(** * Felix: the embedded ComfyUI service and the image tools

    A shallow embedding of [server/comfy_service.py] (class
    [ComfyUIService]) and of [generate_image] from
    [server/tools/builtin/image_tools.py].

    The Python code is effectful: it spawns and signals an operating
    system process, reads the event-loop clock, sleeps, talks HTTP and
    mutates both the service object and the module-level workflow
    template.  The embedding threads a [World] through a small
    state-and-exception monad.  Everything the outside world decides
    (does [Popen] succeed, is the process still alive, what does an HTTP
    request answer, how long did an operation take) is read from an
    oracle [Env], indexed by the number of effects performed so far; the
    code is deterministic, so a theorem quantified over every [Env]
    covers every behaviour of the outside world.

    What the embedding takes for granted: a method runs from its call to
    its return without another method of the same object running in
    between; logging, reading the clock and creating an httpx client do
    not raise; only exceptions deriving from [Exception] occur.  Time is
    counted in milliseconds, one time unit of the specification being
    1000 of them.

    Closing the persistent client is awaited outside every [try] of
    [stop].  Module [ComfyUIService] describes the runs in which that
    close returns; module [Closing] repeats [stop] and the functions
    that reach it with a close that may raise, and the theorems about
    what these functions raise are stated there.

    The text of an exception raised by a library ([str(e)] of an httpx
    status error or of a JSON decoding error) is not modelled: the
    model keeps the class of the exception and, for a status error, the
    status; no theorem depends on such a text. *)

From Stdlib Require Import ZArith NArith QArith List String Bool Lia.
Set Warnings "-register-all".
From stdpp Require Import base option list strings pretty gmap.

Local Open Scope string_scope.
Local Open Scope list_scope.

(** ** Exceptions *)

(** The exception classes that the two modules raise or catch.  All of
    them derive from [Exception]. *)
Inductive exn_class :=
| FileNotFoundError
| OSError              (* Popen, os.getpgid, os.killpg *)
| TimeoutExpired       (* subprocess.TimeoutExpired *)
| RuntimeError
| KeyError
| TypeError
| ValueError           (* response.json() on a body that is not JSON *)
| RequestError         (* httpx.RequestError: every transport failure *)
| TimeoutException     (* httpx.TimeoutException, a RequestError *)
| HTTPStatusError      (* raised by raise_for_status, not a RequestError *)
| OtherException.      (* any other subclass of Exception *)

Record exn := Exn { exn_kind : exn_class; exn_str : string (* str(e) *) }.

(** [except (httpx.RequestError, httpx.TimeoutException)] *)
Definition is_request_error (e : exn) : bool :=
  match exn_kind e with
  | RequestError | TimeoutException => true
  | _ => false
  end.

(** [except subprocess.TimeoutExpired] *)
Definition is_timeout_expired (e : exn) : bool :=
  match exn_kind e with
  | TimeoutExpired => true
  | _ => false
  end.

(** ** Data exchanged with the ComfyUI server *)

(** One entry of ["images"] in a node's output. *)
Record image_info := ImageInfo {
  img_filename : string;          (* img_info["filename"] *)
  img_subfolder : option string   (* img_info.get("subfolder", "") *)
}.

(** The output of one node: [result["outputs"][node]]. *)
Record node_output := NodeOutput {
  out_images : option (list image_info)   (* .get("images", []) *)
}.

(** One history record: [history[prompt_id]]. *)
Record job_record := JobRecord {
  rec_outputs : option (gmap string node_output)   (* "outputs" in result *)
}.

(** What an HTTP request answers: a transport failure (an exception
    raised by the client), or a response with its status code and its
    decoded JSON body ([None] when the body is not JSON). *)
Inductive response (B : Type) :=
| TransportFail (e : exn)
| Reply (status : Z) (body : option B).
Arguments TransportFail {B} e.
Arguments Reply {B} status body.

Inductive signal := SIGTERM | SIGKILL.

(** ** Python values held in the workflow dictionaries *)

(** Locations of the Python heap. *)
Abbreviation loc := nat.

Inductive value :=
| VInt (z : Z)
| VFloat (q : Q)
| VStr (s : string)
| VList (l : list value)
| VDict (l : loc).          (* a reference to a dict on the heap *)

(** ** The outside world *)

(** The oracle.  Every field but [dir_exists] is indexed by the number
    of effects performed before the call it answers. *)
Record Env := {
  dir_exists : bool;                           (* comfy_dir.exists() *)
  popen : nat -> exn + nat;                    (* subprocess.Popen: the pid *)
  poll_alive : nat -> bool;                    (* process.poll() is None *)
  probe_get : nat -> response unit;            (* throwaway GET /system_stats *)
  signal_group : nat -> option exn;            (* os.killpg(os.getpgid(pid), sig) *)
  proc_wait : nat -> option exn;               (* process.wait(timeout) *)
  post_prompt : nat -> response (option string);           (* POST /prompt *)
  get_hist : nat -> response (gmap string job_record);     (* GET /history.. *)
  lapse : nat -> N                             (* milliseconds the effect took *)
}.

Inductive log_level := Info | Warning | Error.

(** The JSON body of POST /prompt, kept as the dict it is built from:
    the [prompt] value is read through the heap as it was when the
    request was sent. *)
Record prompt_payload := PromptPayload {
  pl_prompt : value;
  pl_client_id : string;
  pl_heap : gmap loc (gmap string value)
}.

(** What the program did, oldest first. *)
Inductive Event :=
| EvLog (lvl : log_level) (name : string)
| EvSpawn (host : string) (port : Z)
| EvPoll (pid : nat)
| EvProbe (url : string) (timeout_ms : N)
| EvSignal (pid : nat) (sig : signal)
| EvWait (pid : nat) (timeout : option N)
| EvClientOpen (client : nat) (base_url : string)
| EvClientClose (client : nat)
| EvGet (client : nat) (url : string)
| EvPost (client : nat) (url : string) (payload : prompt_payload)
| EvSleep (seconds : N).

(** The fields of a [ComfyUIService] object. *)
Record Service := {
  host : string;
  port : Z;
  process : option nat;     (* the Popen object, named by its pid *)
  client : option nat;      (* the httpx.AsyncClient, named by its id *)
  _is_ready : bool
}.

Record World := {
  env : Env;
  steps : nat;                (* effects performed so far *)
  now : Z;                    (* the event loop's clock, in milliseconds *)
  trace : list Event;
  registered : bool;          (* the global _comfy_service is not None *)
  self : Service;             (* the object _comfy_service is bound to *)
  heap : gmap loc (gmap string value)
}.

Definition set_self (f : Service -> Service) (w : World) : World :=
  {| env := env w; steps := steps w; now := now w; trace := trace w;
     registered := registered w; self := f (self w); heap := heap w |}.

Definition set_heap (h : gmap loc (gmap string value)) (w : World) : World :=
  {| env := env w; steps := steps w; now := now w; trace := trace w;
     registered := registered w; self := self w; heap := h |}.

(** One effect: it is recorded, it consumes one oracle index and it
    takes the time the oracle says plus [extra]. *)
Definition effect (ev : Event) (extra : N) (w : World) : World :=
  {| env := env w; steps := S (steps w);
     now := (now w + Z.of_N extra + Z.of_N (lapse (env w) (steps w)))%Z;
     trace := trace w ++ [ev];
     registered := registered w; self := self w; heap := heap w |}.

Definition emit (ev : Event) (w : World) : World :=
  {| env := env w; steps := steps w; now := now w; trace := trace w ++ [ev];
     registered := registered w; self := self w; heap := heap w |}.

(** ** The monad *)

(** [Diverge] is produced only by a loop of the model that used up its
    fuel; the theorems show that it does not happen. *)
Inductive outcome (A : Type) :=
| Ok (a : A)
| Raise (e : exn)
| Diverge.
Arguments Ok {A} a.
Arguments Raise {A} e.
Arguments Diverge {A}.

Definition M (A : Type) : Type := World -> outcome A * World.

Definition ret {A} (a : A) : M A := fun w => (Ok a, w).

Definition bind {A B} (m : M A) (k : A -> M B) : M B :=
  fun w =>
    match m w with
    | (Ok a, w1) => k a w1
    | (Raise e, w1) => (Raise e, w1)
    | (Diverge, w1) => (Diverge, w1)
    end.

Definition raise {A} (e : exn) : M A := fun w => (Raise e, w).

(** [try: m  except C as e: h e], where [catches] says which exceptions
    belong to [C].  What [m] did before raising stays done. *)
Definition try_except {A} (catches : exn -> bool) (m : M A) (h : exn -> M A) : M A :=
  fun w =>
    match m w with
    | (Raise e, w1) => if catches e then h e w1 else (Raise e, w1)
    | r => r
    end.

(** [try: m  finally: f] *)
Definition try_finally {A} (m : M A) (f : M unit) : M A :=
  fun w =>
    match m w with
    | (Diverge, w1) => (Diverge, w1)
    | (r, w1) =>
        match f w1 with
        | (Ok _, w2) => (r, w2)
        | (Raise e, w2) => (Raise e, w2)
        | (Diverge, w2) => (Diverge, w2)
        end
    end.

Definition any_exception (e : exn) : bool := true.   (* except Exception *)

Declare Scope py_scope.
Delimit Scope py_scope with py.
Notation "x <- m ;; k" := (bind m (fun x => k))
  (at level 100, m at next level, k at level 200, right associativity) : py_scope.
Notation "m ;; k" := (bind m (fun _ => k))
  (at level 100, k at level 200, right associativity) : py_scope.
Local Open Scope py_scope.

Definition get {A} (f : World -> A) : M A := fun w => (Ok (f w), w).
Definition modify (f : World -> World) : M unit := fun w => (Ok tt, f w).

Definition log (lvl : log_level) (name : string) : M unit :=
  modify (emit (EvLog lvl name)).

(** [await asyncio.sleep(seconds)] *)
Definition sleep (seconds : N) : M unit :=
  modify (effect (EvSleep seconds) (seconds * 1000)).

(** [asyncio.get_event_loop().time()] *)
Definition loop_time : M Z := get now.

(** ** [server/comfy_service.py]: class [ComfyUIService] *)

Module ComfyUIService.

Definition set_process (p : option nat) (s : Service) : Service :=
  {| host := host s; port := port s; process := p;
     client := client s; _is_ready := _is_ready s |}.

Definition set_client (c : option nat) (s : Service) : Service :=
  {| host := host s; port := port s; process := process s;
     client := c; _is_ready := _is_ready s |}.

Definition set_is_ready (b : bool) (s : Service) : Service :=
  {| host := host s; port := port s; process := process s;
     client := client s; _is_ready := b |}.

(** *** The effects the class performs *)

(** [subprocess.Popen(cmd, ..., preexec_fn=os.setsid)] *)
Definition Popen : M nat := fun w =>
  let w' := effect (EvSpawn (host (self w)) (port (self w))) 0 w in
  match popen (env w) (steps w) with
  | inl e => (Raise e, w')
  | inr pid => (Ok pid, w')
  end.

(** [self.process.poll() is None] *)
Definition poll (pid : nat) : M bool := fun w =>
  (Ok (poll_alive (env w) (steps w)), effect (EvPoll pid) 0 w).

(** [os.killpg(os.getpgid(self.process.pid), sig)] *)
Definition killpg (pid : nat) (sig : signal) : M unit := fun w =>
  let w' := effect (EvSignal pid sig) 0 w in
  match signal_group (env w) (steps w) with
  | Some e => (Raise e, w')
  | None => (Ok tt, w')
  end.

(** [self.process.wait(timeout=...)] *)
Definition wait (pid : nat) (timeout : option N) : M unit := fun w =>
  let w' := effect (EvWait pid timeout) 0 w in
  match proc_wait (env w) (steps w) with
  | Some e => (Raise e, w')
  | None => (Ok tt, w')
  end.

(** [httpx.AsyncClient(base_url=..., timeout=httpx.Timeout(30.0))]:
    the new object is named by the index of the effect creating it. *)
Definition AsyncClient (base : string) : M nat := fun w =>
  (Ok (steps w), effect (EvClientOpen (steps w) base) 0 w).

(** [await self.client.aclose()]: the pooled connections are released.
    Here the close returns; [Closing.aclose] is the close that may
    raise. *)
Definition aclose (c : nat) : M unit :=
  modify (effect (EvClientClose c) 0).

(** [async with httpx.AsyncClient() as client:
       response = await client.get(url, timeout=...)];
    the result is [response.status_code]. *)
Definition probe (url : string) (timeout_ms : N) : M Z := fun w =>
  let w' := effect (EvProbe url timeout_ms) 0 w in
  match probe_get (env w) (steps w) with
  | TransportFail e => (Raise e, w')
  | Reply status _ => (Ok status, w')
  end.

(** [response.is_success]: the status is 2xx. *)
Definition accepted (status : Z) : bool :=
  ((200 <=? status) && (status <? 300))%Z.

(** [response.raise_for_status()]: httpx raises [HTTPStatusError] for
    every status outside 2xx.  The text of httpx's error names the
    status, its reason phrase and the URL; the text below keeps the
    status alone and stands for it. *)
Definition raise_for_status (status : Z) : M unit :=
  if accepted status then ret tt
  else raise (Exn HTTPStatusError ("HTTP status " +:+ pretty status)).

(** [response.json()]; the text of the decoding error, which carries
    the position of the fault, is cut to its first words. *)
Definition json {B} (body : option B) : M B :=
  match body with
  | Some b => ret b
  | None => raise (Exn ValueError "Expecting value")
  end.

(** [await self.client.post("/prompt", json=payload)] *)
Definition client_post (c : nat) (url : string) (payload : prompt_payload)
  : M (Z * option (option string)) := fun w =>
  let w' := effect (EvPost c url payload) 0 w in
  match post_prompt (env w) (steps w) with
  | TransportFail e => (Raise e, w')
  | Reply status body => (Ok (status, body), w')
  end.

(** [await self.client.get(url)] on the history endpoint *)
Definition client_get (c : nat) (url : string)
  : M (Z * option (gmap string job_record)) := fun w =>
  let w' := effect (EvGet c url) 0 w in
  match get_hist (env w) (steps w) with
  | TransportFail e => (Raise e, w')
  | Reply status body => (Ok (status, body), w')
  end.

(** *** The methods *)

(** [__init__]: the object under construction takes the place of
    [self]. *)
Definition __init__ (h : string) (p : Z) : M unit :=
  modify (set_self (fun _ =>
    {| host := h; port := p; process := None; client := None;
       _is_ready := false |})) ;;
  ex <- get (fun w => dir_exists (env w)) ;;
  if negb ex then raise (Exn FileNotFoundError "ComfyUI directory not found")
  else log Info "comfy_service_initialized".

(** The property [base_url]: [f"http://{self.host}:{self.port}"] *)
Definition base_url_of (s : Service) : string :=
  "http://" +:+ host s +:+ ":" +:+ pretty (port s).

Definition base_url : M string := get (fun w => base_url_of (self w)).

Definition is_running : M bool :=
  p <- get (fun w => process (self w)) ;;
  match p with
  | None => ret false
  | Some pid => poll pid
  end.

(** One round of the [while] loop of [_wait_for_ready]; [fuel] bounds
    the number of rounds. *)
Fixpoint wait_loop (fuel : nat) (start_time timeout : Z) : M bool :=
  match fuel with
  | O => fun w => (Diverge, w)
  | S fuel' =>
      t <- loop_time ;;
      if (t - start_time <? timeout * 1000)%Z then
        running <- is_running ;;
        if negb running then
          log Error "comfyui_process_died" ;;
          ret false
        else
          url <- base_url ;;
          found <- try_except is_request_error
                     (status <- probe (url +:+ "/system_stats") 2000 ;;
                      if (status =? 200)%Z then
                        log Info "comfyui_ready" ;;
                        ret true
                      else ret false)
                     (fun _ => ret false) ;;
          if (found : bool) then ret true
          else
            sleep 1 ;;
            wait_loop fuel' start_time timeout
      else
        log Error "comfyui_ready_timeout" ;;
        ret false
  end.

(** Every round that does not return sleeps one second, so at most
    [timeout] rounds pass the loop test. *)
Definition _wait_for_ready (timeout : Z) : M bool :=
  start_time <- loop_time ;;
  wait_loop (S (Z.to_nat timeout)) start_time timeout.

Definition stop : M unit :=
  c <- get (fun w => client (self w)) ;;
  match c with
  | Some c =>
      aclose c ;;
      modify (set_self (set_client None))
  | None => ret tt
  end ;;
  p <- get (fun w => process (self w)) ;;
  match p with
  | Some pid =>
      try_finally
        (try_except any_exception
           (killpg pid SIGTERM ;;
            try_except is_timeout_expired
              (wait pid (Some 10%N))
              (fun _ => killpg pid SIGKILL ;; wait pid None) ;;
            log Info "comfyui_stopped")
           (fun _ => log Error "comfyui_stop_error"))
        (modify (set_self (set_process None)) ;;
         modify (set_self (set_is_ready false)))
  | None => ret tt
  end.

Definition start : M bool :=
  running <- is_running ;;
  if (running : bool) then
    log Warning "comfy_already_running" ;;
    ret true
  else
    try_except any_exception
      (log Info "starting_comfyui" ;;
       pid <- Popen ;;
       modify (set_self (set_process (Some pid))) ;;
       ready <- _wait_for_ready 30 ;;
       modify (set_self (set_is_ready ready)) ;;
       if (ready : bool) then
         url <- base_url ;;
         c <- AsyncClient url ;;
         modify (set_self (set_client (Some c))) ;;
         log Info "comfyui_started" ;;
         ret true
       else
         log Error "comfyui_failed_to_start" ;;
         stop ;;
         ret false)
      (fun _ =>
         log Error "comfyui_start_error" ;;
         stop ;;
         ret false).

(** [f"/history/{prompt_id}" if prompt_id else "/history"]: None and
    the empty string are falsy. *)
Definition history_url (prompt_id : option string) : string :=
  match prompt_id with
  | Some (String a s) => "/history/" +:+ String a s
  | _ => "/history"
  end.

Definition get_history (prompt_id : option string)
  : M (gmap string job_record) :=
  c <- get (fun w => client (self w)) ;;
  match c with
  | None => raise (Exn RuntimeError "ComfyUI service not started")
  | Some c =>
      let url := history_url prompt_id in
      r <- client_get c url ;;
      raise_for_status (fst r) ;;
      json (snd r)
  end.

Definition queue_prompt (prompt : value) : M (option string) :=
  c <- get (fun w => client (self w)) ;;
  match c with
  | None => raise (Exn RuntimeError "ComfyUI service not started")
  | Some c =>
      h <- get heap ;;
      let payload := {| pl_prompt := prompt; pl_client_id := "felix";
                        pl_heap := h |} in
      r <- client_post c "/prompt" payload ;;
      raise_for_status (fst r) ;;
      result <- json (snd r) ;;
      let prompt_id : option string := result in
      log Info "prompt_queued" ;;
      ret prompt_id
  end.

(** *** The other client operations *)

(** [await self.client.get("/system_stats")] on the persistent client;
    [probe_get] answers this endpoint whichever client asks. *)
Definition client_get_stats (c : nat) : M Z := fun w =>
  let w' := effect (EvGet c "/system_stats") 0 w in
  match probe_get (env w) (steps w) with
  | TransportFail e => (Raise e, w')
  | Reply status _ => (Ok status, w')
  end.

Definition health_check : M bool :=
  running <- is_running ;;
  if negb running then ret false
  else
    c <- get (fun w => client (self w)) ;;
    match c with
    | None => ret false
    | Some c =>
        try_except any_exception
          (status <- client_get_stats c ;;
           ret (status =? 200)%Z)
          (fun _ => ret false)
    end.

(** The body of GET /queue, as far as the code reads it: the two lists
    under ["queue_running"] and ["queue_pending"], when present. *)
Record queue_status := QueueStatus {
  queue_running : option (list value);
  queue_pending : option (list value)
}.

(** [await self.client.get("/queue")]; [Env] has no field for this
    endpoint, so its answers are a parameter, indexed like the others. *)
Definition client_get_queue (answers : nat -> response queue_status) (c : nat)
  : M (Z * option queue_status) := fun w =>
  let w' := effect (EvGet c "/queue") 0 w in
  match answers (steps w) with
  | TransportFail e => (Raise e, w')
  | Reply status body => (Ok (status, body), w')
  end.

Definition get_queue_status (answers : nat -> response queue_status)
  : M queue_status :=
  c <- get (fun w => client (self w)) ;;
  match c with
  | None => raise (Exn RuntimeError "ComfyUI service not started")
  | Some c =>
      r <- client_get_queue answers c ;;
      raise_for_status (fst r) ;;
      json (snd r)
  end.

End ComfyUIService.

(** The module-level function [get_comfy_service()]: whether the global
    [_comfy_service] is bound.  The object it is bound to is [self]. *)
Definition get_comfy_service : M bool := get registered.

Definition set_registered (b : bool) (w : World) : World :=
  {| env := env w; steps := steps w; now := now w; trace := trace w;
     registered := b; self := self w; heap := heap w |}.

(** [ComfyUIService()] with the default arguments.  While [__init__]
    runs, the new object stands for [self]; when it raises, the new
    object is dropped and [self] is the old object again. *)
Definition construct_default : M unit := fun w =>
  match ComfyUIService.__init__ "127.0.0.1" 8188 w with
  | (Raise e, w1) => (Raise e, set_self (fun _ => self w) w1)
  | r => r
  end.

(** [except FileNotFoundError] *)
Definition is_file_not_found (e : exn) : bool :=
  match exn_kind e with
  | FileNotFoundError => true
  | _ => false
  end.

(** The answer is whether the service is returned, rather than None. *)
Definition initialize_comfy_service (auto_start : bool) : M bool :=
  try_except any_exception
    (construct_default ;;
     modify (set_registered true) ;;            (* _comfy_service = ... *)
     if auto_start then
       success <- ComfyUIService.start ;;
       if negb success then
         log Warning "comfyui_autostart_failed" ;;
         modify (set_registered false) ;;       (* _comfy_service = None *)
         ret false
       else ret true
     else ret true)
    (fun e =>
       if is_file_not_found e then
         log Warning "comfyui_not_found" ;;
         ret false
       else
         log Error "comfyui_init_error" ;;
         ret false).

Definition shutdown_comfy_service : M unit :=
  service <- get registered ;;
  if (service : bool) then
    ComfyUIService.stop ;;
    modify (set_registered false)
  else ret tt.

(** ** [server/tools/builtin/image_tools.py] *)

Module image_tools.

(** *** Python dictionaries on the heap *)

(** [type(v).__name__] *)
Definition type_name (v : value) : string :=
  match v with
  | VInt _ => "int"
  | VFloat _ => "float"
  | VStr _ => "str"
  | VList _ => "list"
  | VDict _ => "dict"
  end.

(** The [TypeError] of [d[k]] and of [d[k] = v] with a string [k],
    when [d] is not a dict (the texts of CPython 3.11 and later). *)
Definition getitem_error (d : value) : exn :=
  match d with
  | VStr _ => Exn TypeError "string indices must be integers, not 'str'"
  | VList _ => Exn TypeError "list indices must be integers or slices, not str"
  | _ => Exn TypeError ("'" +:+ type_name d +:+ "' object is not subscriptable")
  end.

Definition setitem_error (d : value) : exn :=
  match d with
  | VList _ => Exn TypeError "list indices must be integers or slices, not str"
  | _ => Exn TypeError
           ("'" +:+ type_name d +:+ "' object does not support item assignment")
  end.

(** [d[k]] *)
Definition getitem (d : value) (k : string) : M value :=
  match d with
  | VDict l =>
      h <- get heap ;;
      match h !! l ≫= (fun entries => entries !! k) with
      | Some v => ret v
      | None => raise (Exn KeyError ("'" +:+ k +:+ "'"))
      end
  | _ => raise (getitem_error d)
  end.

(** [d[k] = v]: the dict that [d] refers to is updated in place. *)
Definition setitem (d : value) (k : string) (v : value) : M unit :=
  match d with
  | VDict l =>
      h <- get heap ;;
      match h !! l with
      | Some entries => modify (set_heap (<[l := <[k := v]> entries]> h))
      | None => raise (Exn KeyError ("'" +:+ k +:+ "'"))
      end
  | _ => raise (setitem_error d)
  end.

(** [d.copy()]: a new dict with the same entries; the values are not
    copied, so nested dicts are shared with [d]. *)
Definition copy (d : value) : M value :=
  match d with
  | VDict l =>
      h <- get heap ;;
      match h !! l with
      | Some entries =>
          let l' := fresh (dom h) in
          modify (set_heap (<[l' := entries]> h)) ;;
          ret (VDict l')
      | None => raise (Exn KeyError "copy")
      end
  | _ => raise (Exn TypeError "object has no attribute 'copy'")
  end.

(** The statement [workflow[node]["inputs"][key] = v] *)
Definition set_input (workflow : value) (node key : string) (v : value) : M unit :=
  n <- getitem workflow node ;;
  inputs <- getitem n "inputs" ;;
  setitem inputs key v.

(** *** The module-level template *)

(** The top-level dict of [DEFAULT_TEXT2IMG_WORKFLOW] lives at
    location 0; node [n] at an odd location and its ["inputs"] at the
    next one. *)
Definition DEFAULT_TEXT2IMG_WORKFLOW : value := VDict 0.

Definition link (node : string) (output : Z) : value :=
  VList [VStr node; VInt output].

Definition module_heap : gmap loc (gmap string value) :=
  list_to_map
    [ (0, list_to_map
            [ ("3", VDict 1); ("4", VDict 3); ("5", VDict 5); ("6", VDict 7);
              ("7", VDict 9); ("8", VDict 11); ("9", VDict 13) ]);
      (1, list_to_map [ ("inputs", VDict 2); ("class_type", VStr "KSampler") ]);
      (2, list_to_map
            [ ("seed", VInt 0); ("steps", VInt 20); ("cfg", VFloat 7);
              ("sampler_name", VStr "euler"); ("scheduler", VStr "normal");
              ("denoise", VFloat 1); ("model", link "4" 0);
              ("positive", link "6" 0); ("negative", link "7" 0);
              ("latent_image", link "5" 0) ]);
      (3, list_to_map [ ("inputs", VDict 4);
                        ("class_type", VStr "CheckpointLoaderSimple") ]);
      (4, list_to_map [ ("ckpt_name", VStr "v1-5-pruned.safetensors") ]);
      (5, list_to_map [ ("inputs", VDict 6);
                        ("class_type", VStr "EmptyLatentImage") ]);
      (6, list_to_map [ ("width", VInt 512); ("height", VInt 512);
                        ("batch_size", VInt 1) ]);
      (7, list_to_map [ ("inputs", VDict 8); ("class_type", VStr "CLIPTextEncode") ]);
      (8, list_to_map [ ("text", VStr ""); ("clip", link "4" 1) ]);
      (9, list_to_map [ ("inputs", VDict 10); ("class_type", VStr "CLIPTextEncode") ]);
      (10, list_to_map [ ("text", VStr "text, watermark"); ("clip", link "4" 1) ]);
      (11, list_to_map [ ("inputs", VDict 12); ("class_type", VStr "VAEDecode") ]);
      (12, list_to_map [ ("samples", link "3" 0); ("vae", link "4" 2) ]);
      (13, list_to_map [ ("inputs", VDict 14); ("class_type", VStr "SaveImage") ]);
      (14, list_to_map [ ("filename_prefix", VStr "felix_gen");
                         ("images", link "8" 0) ]) ].

(** *** [generate_image] *)

Definition nl : string := String (Ascii.ascii_of_nat 10) "".

Definition msg_not_available : string :=
  "❌ Image generation is not available. ComfyUI service is not initialized.".

Definition msg_start_failed : string :=
  "❌ Failed to start image generation service. Please check ComfyUI installation.".

Definition msg_timed_out : string :=
  "⏱️ Image generation timed out. The image may still be processing.".

Definition msg_failed (e : exn) : string :=
  "❌ Image generation failed: " +:+ exn_str e.

Definition msg_generated (prompt image_url filename : string) : string :=
  "✅ Image generated successfully!" +:+ nl +:+ nl +:+
  "Prompt: " +:+ prompt +:+ nl +:+ nl +:+
  "**View image**: " +:+ image_url +:+ nl +:+ nl +:+
  "_(Image saved as: " +:+ filename +:+ ")_".

(** The nested tests of one poll: the first image of node "9" of the
    record of [prompt_id], when there is one. *)
Definition first_image (prompt_id : option string)
    (history : gmap string job_record) : option image_info :=
  match prompt_id ≫= (fun id => history !! id) with    (* prompt_id in history *)
  | Some result =>
      match rec_outputs result with                    (* "outputs" in result *)
      | Some outputs =>
          match outputs !! "9" with                    (* "9" in result["outputs"] *)
          | Some node =>
              match default [] (out_images node) with  (* .get("images", []) *)
              | img_info :: _ => Some img_info         (* if images: images[0] *)
              | [] => None
              end
          | None => None
          end
      | None => None
      end
  | None => None
  end.

Definition image_url (base : string) (img_info : image_info) : string :=
  let url := base +:+ "/view?filename=" +:+ img_filename img_info +:+ "&type=output" in
  match default "" (img_subfolder img_info) with
  | "" => url
  | subfolder => url +:+ "&subfolder=" +:+ subfolder
  end.

(** The [while waited < max_wait] loop; [fuel] bounds its rounds. *)
Fixpoint poll_loop (fuel : nat) (prompt : string) (prompt_id : option string)
    (waited max_wait : Z) : M string :=
  match fuel with
  | O => fun w => (Diverge, w)
  | S fuel' =>
      if (waited <? max_wait)%Z then
        sleep 2 ;;
        let waited := (waited + 2)%Z in
        history <- ComfyUIService.get_history prompt_id ;;
        match first_image prompt_id history with
        | Some img_info =>
            log Info "image_generated" ;;
            base <- ComfyUIService.base_url ;;
            ret (msg_generated prompt (image_url base img_info)
                   (img_filename img_info))
        | None => poll_loop fuel' prompt prompt_id waited max_wait
        end
      else ret msg_timed_out
  end.

(** The first half of the [try] of [generate_image]: the workflow is
    created from the template, its parameters are updated and it is
    queued.  [cfg_scale] is a Python float; the rationals stand for the
    floats that JSON can encode.  With a NaN or an infinity httpx
    refuses to encode the body, a [ValueError] raised before any
    request is sent: such a call writes the template and ends in the
    failure text, as with any other exception of the submission; it is
    not among the calls that answer with the image or the time-out
    text. *)
Definition queue_workflow (prompt negative_prompt : string)
    (width height steps : Z) (cfg_scale : Q) : M (option string) :=
  workflow <- copy DEFAULT_TEXT2IMG_WORKFLOW ;;
  set_input workflow "6" "text" (VStr prompt) ;;
  set_input workflow "7" "text" (VStr negative_prompt) ;;
  set_input workflow "5" "width" (VInt width) ;;
  set_input workflow "5" "height" (VInt height) ;;
  set_input workflow "3" "steps" (VInt steps) ;;
  set_input workflow "3" "cfg" (VFloat cfg_scale) ;;
  set_input workflow "3" "seed" (VInt (-1)) ;;
  log Info "queueing_image_generation" ;;
  ComfyUIService.queue_prompt workflow.

(** The second half: the history of the job is polled. *)
Definition await_result (prompt : string) (prompt_id : option string) : M string :=
  let max_wait := 120%Z in
  let waited := 0%Z in
  poll_loop (S (Z.to_nat max_wait)) prompt prompt_id waited max_wait.

(** [if not service.is_running: started = await service.start()];
    the result is false when the function has to give up. *)
Definition ensure_started : M bool :=
  running <- ComfyUIService.is_running ;;
  if (running : bool) then ret true
  else
    log Info "starting_comfyui_for_generation" ;;
    ComfyUIService.start.

Definition generate_image (prompt negative_prompt : string)
    (width height steps : Z) (cfg_scale : Q) : M string :=
  service <- get_comfy_service ;;
  if negb service then ret msg_not_available
  else
    started <- ensure_started ;;
    if negb started then ret msg_start_failed
    else
      try_except any_exception
        (prompt_id <- queue_workflow prompt negative_prompt width height
                        steps cfg_scale ;;
         await_result prompt prompt_id)
        (fun e =>
           log Error "image_generation_error" ;;
           ret (msg_failed e)).

(** *** The service tools *)

Definition msg_service_unavailable : string :=
  "❌ ComfyUI service is not available".

Definition msg_stopped : string :=
  "⏸️ ComfyUI service is stopped (will start automatically when needed)".

Definition msg_not_responding : string :=
  "⚠️ ComfyUI service is running but not responding".

Definition msg_running (base : string) (running pending : nat) : string :=
  "✅ ComfyUI service is running" +:+ nl +:+ nl +:+
  "URL: " +:+ base +:+ nl +:+
  "Queue: " +:+ pretty running +:+ " running, " +:+ pretty pending +:+ " pending".

Definition msg_status_error (e : exn) : string :=
  "⚠️ Error checking status: " +:+ exn_str e.

Definition msg_already_running : string :=
  "ℹ️ ComfyUI service is already running".

Definition msg_started (base : string) : string :=
  "✅ ComfyUI service started successfully at " +:+ base.

Definition msg_start_service_failed : string :=
  "❌ Failed to start ComfyUI service".

Definition msg_already_stopped : string :=
  "ℹ️ ComfyUI service is already stopped".

Definition msg_service_stopped : string :=
  "✅ ComfyUI service stopped".

Definition image_service_status
    (queue : nat -> response ComfyUIService.queue_status) : M string :=
  service <- get_comfy_service ;;
  if negb service then ret msg_service_unavailable
  else
    running <- ComfyUIService.is_running ;;
    if negb running then ret msg_stopped
    else
      try_except any_exception
        (is_healthy <- ComfyUIService.health_check ;;
         if negb is_healthy then ret msg_not_responding
         else
           queue_status <- ComfyUIService.get_queue_status queue ;;
           let queue_running :=
             length (default [] (ComfyUIService.queue_running queue_status)) in
           let queue_pending :=
             length (default [] (ComfyUIService.queue_pending queue_status)) in
           base <- ComfyUIService.base_url ;;
           ret (msg_running base queue_running queue_pending))
        (fun e =>
           log Error "status_check_error" ;;
           ret (msg_status_error e)).

Definition start_image_service : M string :=
  service <- get_comfy_service ;;
  if negb service then ret msg_service_unavailable
  else
    running <- ComfyUIService.is_running ;;
    if (running : bool) then ret msg_already_running
    else
      log Info "manually_starting_comfyui" ;;
      started <- ComfyUIService.start ;;
      if (started : bool) then
        base <- ComfyUIService.base_url ;;
        ret (msg_started base)
      else ret msg_start_service_failed.

Definition stop_image_service : M string :=
  service <- get_comfy_service ;;
  if negb service then ret msg_service_unavailable
  else
    running <- ComfyUIService.is_running ;;
    if negb running then ret msg_already_stopped
    else
      log Info "manually_stopping_comfyui" ;;
      ComfyUIService.stop ;;
      ret msg_service_stopped.

End image_tools.

(** ** When closing the client may raise *)

(** [stop] awaits [self.client.aclose()] before its [try]; [start]
    awaits [stop] in its failure branch, inside its [try], and again in
    its [except] handler; [shutdown_comfy_service] and the tools await
    [start] and [stop] with no [try] around them.  In this module the
    close is answered by an oracle like every other effect:
    [close_client n] is what the close performed as effect number [n]
    raises, if anything.  The functions repeated here are those that
    reach [stop]; everything else is taken from the modules above. *)

Module Closing.

Section Closing.

Variable close_client : nat -> option exn.     (* await self.client.aclose() *)

Definition aclose (c : nat) : M unit := fun w =>
  let w' := effect (EvClientClose c) 0 w in
  match close_client (steps w) with
  | Some e => (Raise e, w')
  | None => (Ok tt, w')
  end.

Definition stop : M unit :=
  c <- get (fun w => client (self w)) ;;
  match c with
  | Some c =>
      aclose c ;;
      modify (set_self (ComfyUIService.set_client None))
  | None => ret tt
  end ;;
  p <- get (fun w => process (self w)) ;;
  match p with
  | Some pid =>
      try_finally
        (try_except any_exception
           (ComfyUIService.killpg pid SIGTERM ;;
            try_except is_timeout_expired
              (ComfyUIService.wait pid (Some 10%N))
              (fun _ => ComfyUIService.killpg pid SIGKILL ;;
                        ComfyUIService.wait pid None) ;;
            log Info "comfyui_stopped")
           (fun _ => log Error "comfyui_stop_error"))
        (modify (set_self (ComfyUIService.set_process None)) ;;
         modify (set_self (ComfyUIService.set_is_ready false)))
  | None => ret tt
  end.

Definition start : M bool :=
  running <- ComfyUIService.is_running ;;
  if (running : bool) then
    log Warning "comfy_already_running" ;;
    ret true
  else
    try_except any_exception
      (log Info "starting_comfyui" ;;
       pid <- ComfyUIService.Popen ;;
       modify (set_self (ComfyUIService.set_process (Some pid))) ;;
       ready <- ComfyUIService._wait_for_ready 30 ;;
       modify (set_self (ComfyUIService.set_is_ready ready)) ;;
       if (ready : bool) then
         url <- ComfyUIService.base_url ;;
         c <- ComfyUIService.AsyncClient url ;;
         modify (set_self (ComfyUIService.set_client (Some c))) ;;
         log Info "comfyui_started" ;;
         ret true
       else
         log Error "comfyui_failed_to_start" ;;
         stop ;;
         ret false)
      (fun _ =>
         log Error "comfyui_start_error" ;;
         stop ;;
         ret false).

Definition shutdown_comfy_service : M unit :=
  service <- get registered ;;
  if (service : bool) then
    stop ;;
    modify (set_registered false)
  else ret tt.

Definition ensure_started : M bool :=
  running <- ComfyUIService.is_running ;;
  if (running : bool) then ret true
  else
    log Info "starting_comfyui_for_generation" ;;
    start.

Definition generate_image (prompt negative_prompt : string)
    (width height steps : Z) (cfg_scale : Q) : M string :=
  service <- get_comfy_service ;;
  if negb service then ret image_tools.msg_not_available
  else
    started <- ensure_started ;;
    if negb started then ret image_tools.msg_start_failed
    else
      try_except any_exception
        (prompt_id <- image_tools.queue_workflow prompt negative_prompt
                        width height steps cfg_scale ;;
         image_tools.await_result prompt prompt_id)
        (fun e =>
           log Error "image_generation_error" ;;
           ret (image_tools.msg_failed e)).

Definition start_image_service : M string :=
  service <- get_comfy_service ;;
  if negb service then ret image_tools.msg_service_unavailable
  else
    running <- ComfyUIService.is_running ;;
    if (running : bool) then ret image_tools.msg_already_running
    else
      log Info "manually_starting_comfyui" ;;
      started <- start ;;
      if (started : bool) then
        base <- ComfyUIService.base_url ;;
        ret (image_tools.msg_started base)
      else ret image_tools.msg_start_service_failed.

Definition stop_image_service : M string :=
  service <- get_comfy_service ;;
  if negb service then ret image_tools.msg_service_unavailable
  else
    running <- ComfyUIService.is_running ;;
    if negb running then ret image_tools.msg_already_stopped
    else
      log Info "manually_stopping_comfyui" ;;
      stop ;;
      ret image_tools.msg_service_stopped.

End Closing.

End Closing.

(** ** Vocabulary of the specification *)

Import ComfyUIService.

(** The lifecycle state Stopped: no process, no client, not ready. *)
Definition Stopped (s : Service) : Prop :=
  process s = None /\ client s = None /\ _is_ready s = false.

(** The worlds that construction, [start] and [stop] lead to, in any
    order and against any outside world.  Between two calls anything
    may change but the fields of the object. *)
Inductive reachable : World -> Prop :=
| reach_init h p w w' :
    __init__ h p w = (Ok tt, w') -> reachable w'
| reach_start w r w' :
    reachable w -> start w = (r, w') -> reachable w'
| reach_stop w r w' :
    reachable w -> stop w = (r, w') -> reachable w'
| reach_frame w w' :
    reachable w -> self w' = self w -> reachable w'.

(** What the methods keep consistent. *)
Definition consistent (s : Service) : Prop :=
  (client s <> None <-> _is_ready s = true) /\
  (_is_ready s = true -> process s <> None).

(** *** The readiness prober, round by round *)

(** The loop test of [_wait_for_ready]: the deadline has not elapsed. *)
Definition within (start_time timeout : Z) (w : World) : Prop :=
  (now w - start_time < timeout * 1000)%Z.

(** The health request of a round, sent from world [w]. *)
Definition health_probe (w : World) : Event :=
  EvProbe (base_url_of (self w) +:+ "/system_stats") 2000.

(** A network error or a status other than 200. *)
Definition not_yet_ready (r : response unit) : Prop :=
  match r with
  | TransportFail e => is_request_error e = true
  | Reply status _ => status <> 200%Z
  end.

(** [rounds start_time timeout w k w']: from [w], [k] rounds in a row
    found the process alive and the service not yet ready, each ending
    with a sleep of one time unit; [w'] is the world after them. *)
Inductive rounds (start_time timeout : Z) : World -> nat -> World -> Prop :=
| rounds_none w : rounds start_time timeout w 0 w
| rounds_retry w w1 k w' :
    within start_time timeout w ->
    is_running w = (Ok true, w1) ->
    not_yet_ready (probe_get (env w1) (steps w1)) ->
    rounds start_time timeout
      (effect (EvSleep 1) 1000 (effect (health_probe w1) 0 w1)) k w' ->
    rounds start_time timeout w (S k) w'.

(** The round in which the prober returns, started in world [w]. *)
Inductive last_round (start_time timeout : Z) (w : World)
  : outcome bool * World -> Prop :=
| NotReady :
    ~ within start_time timeout w ->
    last_round start_time timeout w
      (Ok false, emit (EvLog Error "comfyui_ready_timeout") w)
| ProcessDied w1 :
    within start_time timeout w ->
    is_running w = (Ok false, w1) ->
    last_round start_time timeout w
      (Ok false, emit (EvLog Error "comfyui_process_died") w1)
| Ready w1 body :
    within start_time timeout w ->
    is_running w = (Ok true, w1) ->
    probe_get (env w1) (steps w1) = Reply 200 body ->
    last_round start_time timeout w
      (Ok true, emit (EvLog Info "comfyui_ready") (effect (health_probe w1) 0 w1))
| ProbeRaised w1 e :
    within start_time timeout w ->
    is_running w = (Ok true, w1) ->
    probe_get (env w1) (steps w1) = TransportFail e ->
    is_request_error e = false ->
    last_round start_time timeout w (Raise e, effect (health_probe w1) 0 w1).

(** The payloads sent to POST /prompt, oldest first. *)
Definition posted (tr : list Event) : list prompt_payload :=
  omap (fun ev => match ev with EvPost _ _ p => Some p | _ => None end) tr.

(** *** Reading the workflow dictionaries *)

Import image_tools.

(** [d[k]] read from heap [h], when it is there. *)
Definition read (h : gmap loc (gmap string value)) (d : value) (k : string)
  : option value :=
  match d with
  | VDict l => h !! l ≫= (fun entries => entries !! k)
  | _ => None
  end.

(** [workflow[node]["inputs"][key]] *)
Definition input_field (h : gmap loc (gmap string value)) (workflow : value)
    (node key : string) : option value :=
  read h workflow node ≫= (fun n =>
  read h n "inputs" ≫= (fun inputs =>
  read h inputs key)).

(** The sampler seed of a submitted payload. *)
Definition payload_seed (p : prompt_payload) : option value :=
  input_field (pl_heap p) (pl_prompt p) "3" "seed".

(** In heap [h] the dict at [l] has a node [node], a dict at [nl] whose
    ["inputs"] is the dict at [il]. *)
Definition has_node (h : gmap loc (gmap string value)) (l : loc)
    (node : string) (nl il : loc) : Prop :=
  exists top nd,
    h !! l = Some top /\ top !! node = Some (VDict nl) /\
    h !! nl = Some nd /\ nd !! "inputs" = Some (VDict il) /\
    is_Some (h !! il).

(** The four nodes that [generate_image] writes to are where the module
    put them.  The values of their inputs are left open. *)
Definition workflow_shape (h : gmap loc (gmap string value)) (l : loc) : Prop :=
  has_node h l "3" 1 2 /\ has_node h l "5" 5 6 /\
  has_node h l "6" 7 8 /\ has_node h l "7" 9 10.

Definition template_shape (h : gmap loc (gmap string value)) : Prop :=
  workflow_shape h 0.

(** The fields of the module-level template that a call sets. *)
Definition template_field (w : World) (node key : string) : option value :=
  input_field (heap w) DEFAULT_TEXT2IMG_WORKFLOW node key.

(** *** The job poller, poll by poll *)

(** [polls prompt_id max_wait waited w k w']: from [w], with the
    counter at [waited], [k] polls in a row were answered and showed no
    image in node "9"; [w'] is the world after them. *)
Inductive polls (prompt_id : option string) (max_wait : Z)
  : Z -> World -> nat -> World -> Prop :=
| polls_none waited w : polls prompt_id max_wait waited w 0 w
| polls_again waited w history w1 k w' :
    (waited < max_wait)%Z ->
    get_history prompt_id (effect (EvSleep 2) 2000 w) = (Ok history, w1) ->
    first_image prompt_id history = None ->
    polls prompt_id max_wait (waited + 2) w1 k w' ->
    polls prompt_id max_wait waited w (S k) w'.

(** The round in which the poller stops, started in world [w] with the
    counter at [waited]. *)
Inductive last_poll (prompt : string) (prompt_id : option string)
    (max_wait waited : Z) (w : World) : outcome string * World -> Prop :=
| TimedOut :
    ~ (waited < max_wait)%Z ->
    last_poll prompt prompt_id max_wait waited w (Ok msg_timed_out, w)
| Completed history w1 img_info :
    (waited < max_wait)%Z ->
    get_history prompt_id (effect (EvSleep 2) 2000 w) = (Ok history, w1) ->
    first_image prompt_id history = Some img_info ->
    last_poll prompt prompt_id max_wait waited w
      (Ok (msg_generated prompt (image_url (base_url_of (self w1)) img_info)
             (img_filename img_info)),
       emit (EvLog Info "image_generated") w1)
| Failed e w1 :
    (waited < max_wait)%Z ->
    get_history prompt_id (effect (EvSleep 2) 2000 w) = (Raise e, w1) ->
    last_poll prompt prompt_id max_wait waited w (Raise e, w1).

(** The number of history requests in a trace. *)
Definition history_requests (tr : list Event) : nat :=
  length (omap (fun ev => match ev with EvGet _ url => Some url | _ => None end) tr).

(** The spec's reading of completion: the record of the job reports
    some output slot, whichever, with at least one artifact. *)
Definition any_slot_has_artifact (prompt_id : string)
    (history : gmap string job_record) : Prop :=
  exists result outputs slot node img_info rest,
    history !! prompt_id = Some result /\
    rec_outputs result = Some outputs /\
    outputs !! slot = Some node /\
    out_images node = Some (img_info :: rest).

(** ** Vocabulary: the prober, the close and the answers *)

(** *** The readiness prober, by what the outside world answers *)

(** The liveness check of the round started in [w] found the process
    alive; [w1] is the world after the check. *)
Definition found_alive (w w1 : World) : Prop :=
  exists pid,
    process (self w) = Some pid /\ poll_alive (env w) (steps w) = true /\
    w1 = effect (EvPoll pid) 0 w.

(** It found no process, or a process that has exited. *)
Definition found_dead (w w1 : World) : Prop :=
  (process (self w) = None /\ w1 = w) \/
  (exists pid,
     process (self w) = Some pid /\ poll_alive (env w) (steps w) = false /\
     w1 = effect (EvPoll pid) 0 w).

(** [retried start_time timeout w k w']: from [w], [k] rounds in a row
    found the process alive and the health request unanswered or
    answered with a status other than 200; each ended with a sleep of
    one time unit. *)
Inductive retried (start_time timeout : Z) : World -> nat -> World -> Prop :=
| retried_none w : retried start_time timeout w 0 w
| retried_again w w1 k w' :
    within start_time timeout w ->
    found_alive w w1 ->
    not_yet_ready (probe_get (env w1) (steps w1)) ->
    retried start_time timeout
      (effect (EvSleep 1) 1000 (effect (health_probe w1) 0 w1)) k w' ->
    retried start_time timeout w (S k) w'.

(** The round in which the prober returns, started in world [w]. *)
Inductive returned (start_time timeout : Z) (w : World)
  : outcome bool * World -> Prop :=
| returned_not_ready :
    ~ within start_time timeout w ->
    returned start_time timeout w
      (Ok false, emit (EvLog Error "comfyui_ready_timeout") w)
| returned_process_died w1 :
    within start_time timeout w ->
    found_dead w w1 ->
    returned start_time timeout w
      (Ok false, emit (EvLog Error "comfyui_process_died") w1)
| returned_ready w1 body :
    within start_time timeout w ->
    found_alive w w1 ->
    probe_get (env w1) (steps w1) = Reply 200 body ->
    returned start_time timeout w
      (Ok true, emit (EvLog Info "comfyui_ready") (effect (health_probe w1) 0 w1))
| returned_raised w1 e :
    within start_time timeout w ->
    found_alive w w1 ->
    probe_get (env w1) (steps w1) = TransportFail e ->
    is_request_error e = false ->
    returned start_time timeout w (Raise e, effect (health_probe w1) 0 w1).

(** The reading of the spec: a round whose health request is answered
    with a success status, any of 2xx, returns Ready. *)
Definition ready_on_http_success : Prop :=
  forall timeout w w1 status body,
    within (now w) timeout w ->
    found_alive w w1 ->
    probe_get (env w1) (steps w1) = Reply status body ->
    accepted status = true ->
    fst (_wait_for_ready timeout w) = Ok true.

(** *** [stop] and [start] against a close that may raise *)




(** *** The answers of [generate_image] that follow a submission *)

(** The image text or the time-out text: the two answers given once a
    job identifier is polled for. *)
Definition polled_answer (prompt : string) (r : outcome string) : Prop :=
  r = Ok msg_timed_out \/
  exists url filename, r = Ok (msg_generated prompt url filename).

(** The answer to POST /prompt makes [queue_prompt] raise: a transport
    error, a status outside 2xx or a body that is not JSON. *)
Definition refuses (r : response (option string)) : bool :=
  match r with
  | TransportFail _ => true
  | Reply status body => negb (accepted status) || negb (bool_decide (is_Some body))
  end.

(** ** Auxiliary definitions of the proofs *)

(** What every operation of the two modules leaves alone. *)
Definition same_outside (w w' : World) : Prop :=
  env w' = env w /\ registered w' = registered w /\ heap w' = heap w /\
  (steps w <= steps w')%nat /\ (now w <= now w')%Z /\
  posted (trace w') = posted (trace w).

(** The failure path of [start]: the error is logged and [stop] runs. *)
Definition start_failed (name : string) (w : World) : outcome bool * World :=
  (Ok false, snd (stop (emit (EvLog Error name) w))).

(** [start] always returns a boolean; this is where each answer leaves
    the object. *)
Definition start_result (w : World) (b : bool) (w' : World) : Prop :=
  same_outside w w' /\
  host (self w') = host (self w) /\ port (self w') = port (self w) /\
  match b with
  | true =>
      process (self w') <> None /\
      (self w' = self w \/
       (client (self w') <> None /\ _is_ready (self w') = true))
  | false =>
      process (self w') = None /\ client (self w') = None /\
      (_is_ready (self w') = false \/
       (process (self w) = None /\ _is_ready (self w') = _is_ready (self w)))
  end.

(** [w'] is [w] with another heap. *)
Definition heap_only (w w' : World) : Prop := w' = set_heap (heap w') w.

(** The value under [key] in the dict at [il]. *)
Definition slot (h : gmap loc (gmap string value)) (il : loc) (key : string)
  : option value :=
  h !! il ≫= (fun inputs => inputs !! key).

(** The dicts that hold the inputs of the four nodes. *)
Definition inputs_loc (il : loc) : Prop := il = 2 \/ il = 6 \/ il = 8 \/ il = 10.

(** The state of [queue_workflow] between two assignments: the heap
    alone has changed since [w0], template and copy [l] are in shape,
    and the inputs listed in [fs] hold the listed values. *)
Definition tracked (w0 : World) (l : loc) (fs : list (loc * string * value))
    (w : World) : Prop :=
  heap_only w0 w /\
  workflow_shape (heap w) 0 /\ workflow_shape (heap w) l /\
  ~ inputs_loc l /\ l <> 0 /\ heap w !! 0 = heap w0 !! 0 /\
  Forall (fun f => slot (heap w) f.1.1 f.1.2 = Some f.2) fs.

(** The [except Exception] of [generate_image]. *)
Definition caught (r : outcome string * World) : outcome string * World :=
  match r with
  | (Raise e, w) => (Ok (msg_failed e), emit (EvLog Error "image_generation_error") w)
  | r => r
  end.

(** The reading of the spec: whatever identifier a caller chooses, some
    call of the submit operation posts it. *)
Definition caller_chooses_client_id : Prop :=
  forall client_id : string,
  exists prompt w r w' p,
    queue_prompt prompt w = (r, w') /\
    posted (trace w') = posted (trace w) ++ [p] /\
    pl_client_id p = client_id.

(** [has_node], decided. *)
Definition check_node (h : gmap loc (gmap string value)) (l : loc)
    (node : string) (nl il : loc) : bool :=
  match h !! l ≫= (fun top => top !! node),
        h !! nl ≫= (fun nd => nd !! "inputs"), h !! il with
  | Some (VDict nl'), Some (VDict il'), Some _ => (nl' =? nl)%nat && (il' =? il)%nat
  | _, _, _ => false
  end.

(** The record of the job reports node "9", the slot that
    [generate_image] reads, with [img_info] as its first image. *)
Definition primary_slot_artifact (prompt_id : option string)
    (history : gmap string job_record) (img_info : image_info) : Prop :=
  exists id result outputs node rest,
    prompt_id = Some id /\
    history !! id = Some result /\
    rec_outputs result = Some outputs /\
    outputs !! "9" = Some node /\
    out_images node = Some (img_info :: rest).

(** [k] empty polls, run. *)
Fixpoint run_polls (k : nat) (prompt_id : option string) (max_wait waited : Z)
    (w : World) : option World :=
  match k with
  | O => Some w
  | S k' =>
      if (waited <? max_wait)%Z then
        match get_history prompt_id (effect (EvSleep 2) 2000 w) with
        | (Ok history, w1) =>
            match first_image prompt_id history with
            | None => run_polls k' prompt_id max_wait (waited + 2) w1
            | Some _ => None
            end
        | _ => None
        end
      else None
  end.

(** The [except] handler of [start] when the close may raise: the
    error is logged and [stop] runs; what [stop] raises leaves
    [start]. *)
Definition closing_failed (close_client : nat -> option exn) (name : string)
    (w : World) : outcome bool * World :=
  match Closing.stop close_client (emit (EvLog Error name) w) with
  | (Ok _, w') => (Ok false, w')
  | (Raise e, w') => (Raise e, w')
  | (Diverge, w') => (Diverge, w')
  end.

(** ** Example worlds *)

(** The history once the job is done: one image in node "9". *)
Definition history_done : gmap string job_record :=
  {[ "job-42" :=
       JobRecord (Some {[ "9" := NodeOutput
                                   (Some [ImageInfo "felix_gen_001.png" None]) ]}) ]}.

(** The outside world of the end-to-end example: the process spawns,
    the third health probe succeeds, the job is accepted as "job-42"
    and the fourth history request shows its image. *)
Definition example_env : Env := {|
  dir_exists := true;
  popen := fun _ => inr 4711%nat;
  poll_alive := fun _ => true;
  probe_get := fun n =>
    if (n <? 8)%nat then TransportFail (Exn RequestError "connection refused")
    else Reply 200 None;
  signal_group := fun _ => None;
  proc_wait := fun _ => None;
  post_prompt := fun _ => Reply 200 (Some (Some "job-42"));
  get_hist := fun n =>
    if (n <? 19)%nat then Reply 200 (Some ∅) else Reply 200 (Some history_done);
  lapse := fun _ => 0%N |}.

(** A world at time 0 with the heap as the module creates it. *)
Definition world_of (e : Env) (reg : bool) (s : Service) (n : nat) : World :=
  {| env := e; steps := n; now := 0; trace := []; registered := reg;
     self := s; heap := module_heap |}.

(** The fields before any object is constructed. *)
Definition no_service : Service :=
  {| host := ""; port := 0; process := None; client := None; _is_ready := false |}.

(** [ComfyUIService()] *)
Definition constructed_world : World :=
  snd (__init__ "127.0.0.1" 8188 (world_of example_env true no_service 0)).

(** ... and then [start()] *)
Definition ready_world : World := snd (start constructed_world).

(** The process is dead at every liveness check, and signalling it
    fails. *)
Definition crash_env : Env := {|
  dir_exists := true;
  popen := fun _ => inr 4712%nat;
  poll_alive := fun _ => false;
  probe_get := fun _ => TransportFail (Exn RequestError "connection refused");
  signal_group := fun _ => Some (Exn OSError "No such process");
  proc_wait := fun _ => None;
  post_prompt := fun _ => TransportFail (Exn RequestError "connection refused");
  get_hist := fun _ => TransportFail (Exn RequestError "connection refused");
  lapse := fun _ => 250%N |}.

(** A service constructed where the process dies right after it is
    spawned. *)
Definition crash_world : World :=
  snd (__init__ "127.0.0.1" 8188 (world_of crash_env true no_service 0)).

(** [example_env] with other answers to the history requests. *)
Definition with_history (h : nat -> response (gmap string job_record)) : Env := {|
  dir_exists := dir_exists example_env;
  popen := popen example_env;
  poll_alive := poll_alive example_env;
  probe_get := probe_get example_env;
  signal_group := signal_group example_env;
  proc_wait := proc_wait example_env;
  post_prompt := post_prompt example_env;
  get_hist := h;
  lapse := lapse example_env |}.

(** The service constructed and started in outside world [e]. *)
Definition started (e : Env) : World :=
  snd (start (snd (__init__ "127.0.0.1" 8188 (world_of e true no_service 0)))).

(** The process ignores the first signal: the first wait of [stop]
    times out. *)
Definition stubborn_env : Env := {|
  dir_exists := dir_exists example_env;
  popen := popen example_env;
  poll_alive := poll_alive example_env;
  probe_get := probe_get example_env;
  signal_group := signal_group example_env;
  proc_wait := fun n =>
    if (n =? 12)%nat then Some (Exn TimeoutExpired "timed out after 10 seconds")
    else None;
  post_prompt := post_prompt example_env;
  get_hist := get_hist example_env;
  lapse := lapse example_env |}.

(** The service is never healthy: every probe is refused. *)
Definition deaf_env : Env := {|
  dir_exists := dir_exists example_env;
  popen := popen example_env;
  poll_alive := poll_alive example_env;
  probe_get := fun _ => TransportFail (Exn RequestError "connection refused");
  signal_group := signal_group example_env;
  proc_wait := proc_wait example_env;
  post_prompt := post_prompt example_env;
  get_hist := get_hist example_env;
  lapse := lapse example_env |}.

(** The job never shows an output. *)
Definition never_done_env : Env := with_history (fun _ => Reply 200 (Some ∅)).

(** The connection breaks at the third history request. *)
Definition broken_env : Env :=
  with_history (fun n =>
    if (n <? 17)%nat then Reply 200 (Some ∅)
    else TransportFail (Exn RequestError "connection reset")).

(** The job shows an image, but in node "10". *)
Definition history_other_slot : gmap string job_record :=
  {[ "job-42" :=
       JobRecord (Some {[ "10" := NodeOutput
                                    (Some [ImageInfo "felix_gen_001.png" None]) ]}) ]}.

(** Every history request is answered with it. *)
Definition other_slot_env : Env :=
  with_history (fun _ => Reply 200 (Some history_other_slot)).

(** ** Vocabulary for the rest of the two modules *)

(** The object holds a process, a client and the flag, all three. *)
Definition Serving (s : Service) : Prop :=
  process s <> None /\ client s <> None /\ _is_ready s = true.

(** A request sent through the persistent client. *)
Definition is_client_request (ev : Event) : bool :=
  match ev with
  | EvGet _ _ | EvPost _ _ _ => true
  | _ => false
  end.

Definition is_spawn (ev : Event) : bool :=
  match ev with
  | EvSpawn _ _ => true
  | _ => false
  end.

(** Neither a client request nor a spawn. *)
Definition quiet (ev : Event) : bool :=
  negb (is_client_request ev) && negb (is_spawn ev).

(** The number of processes spawned, or tried to, in a trace. *)
Definition spawns (tr : list Event) : nat := length (List.filter is_spawn tr).

(** The number of requests sent through the persistent client. *)
Definition client_requests (tr : list Event) : nat :=
  length (List.filter is_client_request tr).

(** From [w] to [w'] the trace grew by events that satisfy [P]. *)
Definition grows (P : Event -> bool) (w w' : World) : Prop :=
  exists evs, trace w' = trace w ++ evs /\ forallb P evs = true.

(** The fields that [__init__] gives a new object with the default
    arguments. *)
Definition default_service : Service :=
  {| host := "127.0.0.1"; port := 8188; process := None; client := None;
     _is_ready := false |}.

(** What [generate_image] does once the service checks are passed:
    it sleeps, logs and talks to the service through the client. *)
Definition polling_event (ev : Event) : bool :=
  match ev with
  | EvGet _ _ | EvPost _ _ _ | EvSleep _ | EvLog _ _ => true
  | _ => false
  end.

(** The [try] block of [generate_image], from the world [w1] in which
    the service checks are passed. *)
Definition submit_and_poll (prompt negative_prompt : string)
    (width height steps : Z) (cfg_scale : Q) (w1 : World) : outcome string * World :=
  match queue_workflow prompt negative_prompt width height steps cfg_scale w1 with
  | (Ok prompt_id, w2) => caught (await_result prompt prompt_id w2)
  | (Raise e, w2) => caught (Raise e, w2)
  | (Diverge, w2) => (Diverge, w2)
  end.

(** The events of a poller that has no job identifier: it asks for the
    whole history. *)
Definition whole_history_poll (ev : Event) : bool :=
  match ev with
  | EvGet _ url => bool_decide (url = "/history")
  | EvSleep _ | EvLog _ _ => true
  | _ => false
  end.

(** Heap [h'] has every dict of [h], and in these dicts every entry
    whose key is not in [keys] is as in [h]; it has at most one dict
    more, at the location [new]. *)
Definition writes_only (keys : list string) (new : loc)
    (h h' : gmap loc (gmap string value)) : Prop :=
  (forall l, is_Some (h !! l) ->
     is_Some (h' !! l) /\
     forall k, k ∉ keys -> slot h' l k = slot h l k) /\
  (forall l, is_Some (h' !! l) -> is_Some (h !! l) \/ l = new).

(** The keys that [generate_image] assigns to. *)
Definition written_keys : list string :=
  ["text"; "width"; "height"; "steps"; "cfg"; "seed"].

(** [example_env] with other answers to the submission; every history
    request shows the finished job "job-42". *)
Definition with_post (p : nat -> response (option string)) : Env := {|
  dir_exists := dir_exists example_env;
  popen := popen example_env;
  poll_alive := poll_alive example_env;
  probe_get := probe_get example_env;
  signal_group := signal_group example_env;
  proc_wait := proc_wait example_env;
  post_prompt := p;
  get_hist := fun _ => Reply 200 (Some history_done);
  lapse := lapse example_env |}.

(** The service accepts the workflow but its answer names no job. *)
Definition no_id_env : Env := with_post (fun _ => Reply 200 (Some None)).

(** The service rejects the workflow. *)
Definition rejecting_env : Env := with_post (fun _ => Reply 400 None).

(** Every health request is answered 204 No Content. *)
Definition no_content_env : Env := {|
  dir_exists := dir_exists example_env;
  popen := popen example_env;
  poll_alive := poll_alive example_env;
  probe_get := fun _ => Reply 204 None;
  signal_group := signal_group example_env;
  proc_wait := proc_wait example_env;
  post_prompt := post_prompt example_env;
  get_hist := get_hist example_env;
  lapse := lapse example_env |}.

(** An object that holds a process and nothing else, as [start] has it
    while it waits. *)
Definition waiting_service : Service :=
  {| host := "127.0.0.1"; port := 8188; process := Some 4711%nat;
     client := None; _is_ready := false |}.



(** The serving object of [ready_world] in an outside world where its
    process has died and a new one dies as well: the object still
    holds its client. *)
Definition stale_world : World :=
  {| env := crash_env; steps := steps ready_world; now := now ready_world;
     trace := trace ready_world; registered := true; self := self ready_world;
     heap := heap ready_world |}.

(** Closing the client raises, every time. *)
Definition close_fails : nat -> option exn :=
  fun _ => Some (Exn OtherException "close failed").


(** ** Proofs *)

Lemma same_outside_refl w : same_outside w w.
Proof. unfold same_outside. repeat split; auto; lia. Qed.

Lemma same_outside_trans w1 w2 w3 :
  same_outside w1 w2 -> same_outside w2 w3 -> same_outside w1 w3.
Proof.
  unfold same_outside. intros (? & ? & ? & ? & ? & ?) (? & ? & ? & ? & ? & ?).
  repeat split; try congruence; lia.
Qed.

Lemma posted_app tr ev :
  posted (tr ++ [ev]) =
  posted tr ++ match ev with EvPost _ _ p => [p] | _ => [] end.
Proof.
  unfold posted. rewrite omap_app. simpl. destruct ev; reflexivity.
Qed.

Lemma same_outside_effect ev extra w :
  match ev with EvPost _ _ _ => False | _ => True end ->
  same_outside w (effect ev extra w).
Proof.
  intros H. unfold same_outside, effect; simpl.
  repeat split; auto; try lia.
  rewrite posted_app. destruct ev; try contradiction; apply app_nil_r.
Qed.

Lemma same_outside_emit ev w :
  match ev with EvPost _ _ _ => False | _ => True end ->
  same_outside w (emit ev w).
Proof.
  intros H. unfold same_outside, emit; simpl.
  repeat split; auto; try lia.
  rewrite posted_app. destruct ev; try contradiction; apply app_nil_r.
Qed.

Lemma same_outside_set_self f w : same_outside w (set_self f w).
Proof. unfold same_outside, set_self; simpl. repeat split; auto; lia. Qed.

Create HintDb frames.
#[local] Hint Resolve same_outside_refl same_outside_effect same_outside_emit
  same_outside_set_self : frames.

(** Peels the effects off the world on the right, then looks for a
    hypothesis about what is left. *)
Ltac frames :=
  repeat lazymatch goal with
  | |- same_outside ?w ?w => apply same_outside_refl
  | H : same_outside ?w ?w' |- same_outside ?w ?w' => exact H
  | |- same_outside _ (emit _ _) =>
      eapply same_outside_trans; [|apply same_outside_emit; exact I]
  | |- same_outside _ (effect _ _ _) =>
      eapply same_outside_trans; [|apply same_outside_effect; exact I]
  | |- same_outside _ (set_self _ _) =>
      eapply same_outside_trans; [|apply same_outside_set_self]
  | H : same_outside _ ?w' |- same_outside _ ?w' =>
      eapply same_outside_trans; [|exact H]
  end.

(** *** [stop] *)

(** Every path through [stop], with the world it ends in. *)
Lemma stop_cases w :
  exists w',
    stop w = (Ok tt, w') /\
    client (self w') = None /\
    host (self w') = host (self w) /\ port (self w') = port (self w) /\
    same_outside w w' /\
    match process (self w) with
    | Some _ => process (self w') = None /\ _is_ready (self w') = false
    | None => process (self w') = None /\ _is_ready (self w') = _is_ready (self w)
    end.
Proof.
  unfold stop, bind, get, aclose, modify, ret, try_finally, try_except,
    killpg, wait, log.
  destruct (client (self w)) as [c|] eqn:Hc; simpl;
    destruct (process (self w)) as [pid|] eqn:Hp; simpl; rewrite ?Hc, ?Hp.
  all: try (destruct (signal_group (env w) _) as [e1|] eqn:Hs1; simpl).
  all: try (destruct (proc_wait (env w) _) as [e2|] eqn:Hw1; simpl).
  all: try (destruct (is_timeout_expired e2) eqn:Ht; simpl).
  all: try (destruct (signal_group (env w) (S (S _))) as [e3|] eqn:Hs2; simpl).
  all: try (destruct (proc_wait (env w) (S (S (S _)))) as [e4|] eqn:Hw2; simpl).
  all: eexists; split; [reflexivity|]; simpl; rewrite ?Hc, ?Hp.
  all: repeat split; auto; simpl; try lia.
  all: rewrite ?posted_app, ?app_nil_r; simpl; rewrite ?app_nil_r; auto.
Qed.

(** *** [is_running] and [_wait_for_ready] *)

Lemma is_running_cases w :
  exists b w',
    is_running w = (Ok b, w') /\ self w' = self w /\ same_outside w w' /\
    match process (self w) with
    | Some pid =>
        b = poll_alive (env w) (steps w) /\ w' = effect (EvPoll pid) 0 w
    | None => b = false /\ w' = w
    end.
Proof.
  unfold is_running, bind, get, poll, ret.
  destruct (process (self w)) as [pid|]; simpl;
    eexists _, _; (split; [reflexivity|]); auto with frames.
Qed.

Lemma wait_loop_unfold fuel start_time timeout w :
  wait_loop (S fuel) start_time timeout w =
  if (now w - start_time <? timeout * 1000)%Z then
    match is_running w with
    | (Ok true, w1) =>
        let w2 := effect (health_probe w1) 0 w1 in
        match probe_get (env w1) (steps w1) with
        | Reply status _ =>
            if (status =? 200)%Z then (Ok true, emit (EvLog Info "comfyui_ready") w2)
            else wait_loop fuel start_time timeout (effect (EvSleep 1) 1000 w2)
        | TransportFail e =>
            if is_request_error e
            then wait_loop fuel start_time timeout (effect (EvSleep 1) 1000 w2)
            else (Raise e, w2)
        end
    | (Ok false, w1) => (Ok false, emit (EvLog Error "comfyui_process_died") w1)
    | (Raise e, w1) => (Raise e, w1)
    | (Diverge, w1) => (Diverge, w1)
    end
  else (Ok false, emit (EvLog Error "comfyui_ready_timeout") w).
Proof.
  cbn [wait_loop]. unfold bind at 1. unfold loop_time, get.
  destruct (now w - start_time <? timeout * 1000)%Z; [|reflexivity].
  unfold bind at 1. destruct (is_running w) as [[[]| |] w1]; try reflexivity.
  unfold health_probe, bind, base_url, get, try_except, probe, log, modify,
    ret, sleep; simpl.
  destruct (probe_get (env w1) (steps w1)) as [e|status body]; simpl.
  - destruct (is_request_error e); reflexivity.
  - destruct (status =? 200)%Z; reflexivity.
Qed.

(** With a unit of fuel for every time unit left, plus one, the loop
    returns: it is a run of retried rounds and a last round. *)
Lemma wait_loop_rounds fuel start_time timeout : forall w,
  (timeout * 1000 - (now w - start_time) <= 1000 * Z.of_nat fuel - 1000)%Z ->
  (1 <= fuel)%nat ->
  exists k w1,
    rounds start_time timeout w k w1 /\
    last_round start_time timeout w1 (wait_loop fuel start_time timeout w) /\
    (k < fuel)%nat.
Proof.
  induction fuel as [|fuel IH]; intros w Hfuel Hpos; [lia|].
  rewrite wait_loop_unfold.
  destruct (now w - start_time <? timeout * 1000)%Z eqn:Hin.
  2: { exists 0%nat, w. split; [constructor|]. split; [|lia].
       apply NotReady. unfold within. apply Z.ltb_ge in Hin. lia. }
  apply Z.ltb_lt in Hin.
  destruct (is_running_cases w) as (b & w1 & Hrun & Hself & Hout & _).
  rewrite Hrun.
  destruct b.
  2: { exists 0%nat, w. split; [constructor|]. split; [|lia].
       eapply ProcessDied; eauto. }
  assert (Hretry :
    not_yet_ready (probe_get (env w1) (steps w1)) ->
    exists k w2,
      rounds start_time timeout w k w2 /\
      last_round start_time timeout w2
        (wait_loop fuel start_time timeout
           (effect (EvSleep 1) 1000 (effect (health_probe w1) 0 w1))) /\
      (k < S fuel)%nat).
  { intros Hnot.
    destruct Hout as (_ & _ & _ & _ & Hnow & _).
    destruct (IH (effect (EvSleep 1) 1000 (effect (health_probe w1) 0 w1)))
      as (k & w2 & Hk & Hlast & Hlt).
    - unfold effect; simpl. lia.
    - destruct fuel; [|lia]. exfalso. unfold effect in *; simpl in *. lia.
    - exists (S k), w2. split; [|split; [assumption|lia]].
      eapply rounds_retry; eauto. }
  destruct (probe_get (env w1) (steps w1)) as [e|status body] eqn:Hprobe.
  - destruct (is_request_error e) eqn:He.
    + apply Hretry. exact He.
    + exists 0%nat, w. split; [constructor|]. split; [|lia].
      eapply ProbeRaised; eauto.
  - destruct (status =? 200)%Z eqn:Hst.
    + apply Z.eqb_eq in Hst; subst status.
      exists 0%nat, w. split; [constructor|]. split; [|lia].
      eapply Ready; eauto.
    + apply Hretry. simpl. apply Z.eqb_neq in Hst. exact Hst.
Qed.

Lemma rounds_frame start_time timeout w k w' :
  rounds start_time timeout w k w' -> self w' = self w /\ same_outside w w'.
Proof.
  induction 1 as [w|w w1 k w' Hin Hrun Hnot Hrest [IHself IHout]].
  - split; auto with frames.
  - destruct (is_running_cases w) as (b & w1' & Hrun' & Hself & Hout & _).
    assert (E := eq_trans (eq_sym Hrun) Hrun'). inversion E; subst w1'.
    split.
    + rewrite IHself. exact Hself.
    + eapply same_outside_trans; [exact Hout|].
      eapply same_outside_trans; [|exact IHout].
      eapply same_outside_trans; [apply (same_outside_effect (health_probe w1)); exact I|].
      apply same_outside_effect; exact I.
Qed.

Lemma last_round_frame start_time timeout w r w' :
  last_round start_time timeout w (r, w') ->
  self w' = self w /\ same_outside w w' /\ r <> Diverge.
Proof.
  destruct (is_running_cases w) as (b & w1' & Hrun' & Hself & Hout & _).
  inversion 1 as [Hin|w1 Hin Hrun|w1 body Hin Hrun Hprobe|w1 e Hin Hrun Hprobe He];
    subst; try (assert (E := eq_trans (eq_sym Hrun) Hrun'); inversion E; subst w1').
  - split; [reflexivity|]. split; [|discriminate].
    apply same_outside_emit; exact I.
  - split; [exact Hself|]. split; [|discriminate].
    eapply same_outside_trans; [exact Hout|]. apply same_outside_emit; exact I.
  - split; [exact Hself|]. split; [|discriminate].
    eapply same_outside_trans; [exact Hout|].
    eapply same_outside_trans; [apply (same_outside_effect (health_probe w1)); exact I|].
    apply same_outside_emit; exact I.
  - split; [exact Hself|]. split; [|discriminate].
    eapply same_outside_trans; [exact Hout|].
    apply (same_outside_effect (health_probe w1)); exact I.
Qed.

(** [_wait_for_ready] returns, whatever the outside world does. *)
Lemma wait_for_ready_rounds timeout w :
  exists k w1,
    rounds (now w) timeout w k w1 /\
    last_round (now w) timeout w1 (_wait_for_ready timeout w) /\
    (Z.of_nat k <= Z.max 0 timeout)%Z.
Proof.
  unfold _wait_for_ready, bind, loop_time, get.
  destruct (wait_loop_rounds (S (Z.to_nat timeout)) (now w) timeout w)
    as (k & w1 & Hk & Hlast & Hlt); [lia|lia|].
  exists k, w1. repeat split; auto. lia.
Qed.

Lemma wait_for_ready_frame timeout w :
  exists r w',
    _wait_for_ready timeout w = (r, w') /\ r <> Diverge /\
    self w' = self w /\ same_outside w w'.
Proof.
  destruct (wait_for_ready_rounds timeout w) as (k & w1 & Hk & Hlast & _).
  destruct (_wait_for_ready timeout w) as [r w'].
  apply rounds_frame in Hk as [Hs1 Ho1].
  apply last_round_frame in Hlast as (Hs2 & Ho2 & Hr).
  exists r, w'. split; [reflexivity|]. split; [exact Hr|].
  split; [congruence|]. eapply same_outside_trans; eauto.
Qed.

(** *** [start] *)

Lemma start_unfold w :
  start w =
  match is_running w with
  | (Ok true, w0) => (Ok true, emit (EvLog Warning "comfy_already_running") w0)
  | (Ok false, w0) =>
      let w1 := emit (EvLog Info "starting_comfyui") w0 in
      let w2 := effect (EvSpawn (host (self w1)) (port (self w1))) 0 w1 in
      match popen (env w1) (steps w1) with
      | inl e => start_failed "comfyui_start_error" w2
      | inr pid =>
          match _wait_for_ready 30 (set_self (set_process (Some pid)) w2) with
          | (Ok true, w3) =>
              let w4 := set_self (set_is_ready true) w3 in
              (Ok true,
               emit (EvLog Info "comfyui_started")
                 (set_self (set_client (Some (steps w4)))
                    (effect (EvClientOpen (steps w4) (base_url_of (self w4))) 0 w4)))
          | (Ok false, w3) =>
              start_failed "comfyui_failed_to_start"
                (set_self (set_is_ready false) w3)
          | (Raise e, w3) => start_failed "comfyui_start_error" w3
          | (Diverge, w3) => (Diverge, w3)
          end
      end
  | (Raise e, w0) => (Raise e, w0)
  | (Diverge, w0) => (Diverge, w0)
  end.
Proof.
  unfold start, start_failed. unfold bind at 1.
  destruct (is_running w) as [[[]| |] w0]; try reflexivity.
  unfold try_except, any_exception. unfold bind at 1. unfold log at 1, modify at 1.
  unfold bind at 1. unfold Popen at 1. cbn [env steps emit].
  destruct (popen (env w0) (steps w0)) as [e|pid].
  - unfold bind, log, modify.
    destruct (stop_cases
      (emit (EvLog Error "comfyui_start_error")
         (effect (EvSpawn (host (self (emit (EvLog Info "starting_comfyui") w0)))
            (port (self (emit (EvLog Info "starting_comfyui") w0)))) 0
            (emit (EvLog Info "starting_comfyui") w0)))) as (w' & Hstop & _).
    rewrite Hstop. reflexivity.
  - unfold bind at 1. unfold modify at 1. unfold bind at 1.
    match goal with |- context [_wait_for_ready 30 ?w] =>
      destruct (_wait_for_ready 30 w) as [[[]| |] w3] end.
    + reflexivity.
    + unfold bind, log, modify.
      match goal with |- context [stop ?w] =>
        destruct (stop_cases w) as (w' & Hstop & _); rewrite Hstop end.
      reflexivity.
    + unfold bind, log, modify.
      match goal with |- context [stop ?w] =>
        destruct (stop_cases w) as (w' & Hstop & _); rewrite Hstop end.
      reflexivity.
    + reflexivity.
Qed.

Lemma start_failed_result name w wf :
  same_outside w wf ->
  host (self wf) = host (self w) -> port (self wf) = port (self w) ->
  (process (self wf) <> None \/ (process (self w) = None /\ self wf = self w)) ->
  exists w', start_failed name wf = (Ok false, w') /\ start_result w false w'.
Proof.
  intros Hout Hh Hp Hpr. unfold start_failed.
  destruct (stop_cases (emit (EvLog Error name) wf))
    as (w' & Hstop & Hc & Hh' & Hp' & Hout' & Hcase).
  rewrite Hstop. exists w'. split; [reflexivity|].
  split; [frames|].
  simpl in *. split; [congruence|]. split; [congruence|].
  destruct (process (self wf)) as [pid|] eqn:Hwf.
  - destruct Hcase as [-> ->]. auto.
  - destruct Hcase as [-> Hr]. destruct Hpr as [Hne|[HN Heq]]; [congruence|].
    split; [reflexivity|]. split; [exact Hc|]. right. split; [exact HN|].
    rewrite Hr, Heq. reflexivity.
Qed.

Lemma start_cases w :
  exists b w', start w = (Ok b, w') /\ start_result w b w'.
Proof.
  rewrite start_unfold.
  destruct (is_running_cases w) as (b0 & w0 & Hrun & Hself0 & Hout0 & Hproc).
  rewrite Hrun. destruct b0.
  { (* already running *)
    eexists true, _. split; [reflexivity|].
    split; [frames|].
    simpl. rewrite Hself0. repeat split; auto.
    destruct (process (self w)); [discriminate|]. destruct Hproc; discriminate. }
  cbv zeta.
  remember (emit (EvLog Info "starting_comfyui") w0) as w1 eqn:Ew1.
  remember (effect (EvSpawn (host (self w1)) (port (self w1))) 0 w1) as w2 eqn:Ew2.
  assert (Hself2 : self w2 = self w) by (subst w2 w1; simpl; exact Hself0).
  assert (Hout2 : same_outside w w2) by (subst w2 w1; frames).
  destruct (popen (env w1) (steps w1)) as [e|pid].
  { destruct (start_failed_result "comfyui_start_error" w w2) as (w' & Hf & Hres);
      auto; try (rewrite Hself2; reflexivity).
    - destruct (process (self w)) eqn:Hp.
      + left. rewrite Hself2, Hp. discriminate.
      + right. auto.
    - exists false, w'. auto. }
  destruct (wait_for_ready_frame 30 (set_self (set_process (Some pid)) w2))
    as (r & w3 & Hwait & Hnd & Hself3 & Hout3).
  rewrite Hwait.
  assert (Hout3' : same_outside w w3).
  { eapply same_outside_trans; [|exact Hout3]. frames. }
  destruct r as [[]|e|]; [| | |congruence].
  - eexists true, _. split; [reflexivity|].
    split; [frames|].
    simpl. rewrite Hself3. simpl. rewrite Hself2.
    repeat split; auto; try discriminate.
  - destruct (start_failed_result "comfyui_failed_to_start" w
                (set_self (set_is_ready false) w3)) as (w' & Hf & Hres).
    + frames.
    + simpl. rewrite Hself3. simpl. rewrite Hself2. reflexivity.
    + simpl. rewrite Hself3. simpl. rewrite Hself2. reflexivity.
    + left. simpl. rewrite Hself3. simpl. discriminate.
    + exists false, w'. auto.
  - destruct (start_failed_result "comfyui_start_error" w w3) as (w' & Hf & Hres).
    + frames.
    + rewrite Hself3. simpl. rewrite Hself2. reflexivity.
    + rewrite Hself3. simpl. rewrite Hself2. reflexivity.
    + left. rewrite Hself3. simpl. discriminate.
    + exists false, w'. auto.
Qed.

(** *** The invariant of the reachable worlds *)

Lemma init_cases h p w w' :
  __init__ h p w = (Ok tt, w') ->
  self w' = {| host := h; port := p; process := None; client := None;
               _is_ready := false |}.
Proof.
  unfold __init__, bind, modify, get, log, raise; simpl.
  destruct (dir_exists (env w)); simpl; intros E; inversion E; reflexivity.
Qed.

Lemma reachable_consistent w : reachable w -> consistent (self w).
Proof.
  induction 1 as [h p w w' Hinit|w r w' Hw IH Hstart|w r w' Hw IH Hstop|w w' Hw IH Heq].
  - rewrite (init_cases _ _ _ _ Hinit). unfold consistent; simpl.
    repeat split; intros; congruence.
  - destruct (start_cases w) as (b & w1 & Hs & _ & _ & _ & Hcase).
    rewrite Hs in Hstart. inversion Hstart; subst r w1. clear Hstart.
    destruct IH as [IH1 IH2]. unfold consistent.
    destruct b.
    + destruct Hcase as [Hp [Heq|[Hc Hr]]].
      * rewrite Heq. split; assumption.
      * split; [tauto|]. intros _. exact Hp.
    + destruct Hcase as (Hp & Hc & [Hr|[HN Hr]]).
      * rewrite Hc, Hr. split; [split; congruence|congruence].
      * rewrite Hc, Hr.
        destruct (_is_ready (self w)); [exfalso; apply IH2; auto|].
        split; [split; congruence|congruence].
  - destruct (stop_cases w) as (w1 & Hs & Hc & _ & _ & _ & Hcase).
    rewrite Hs in Hstop. inversion Hstop; subst r w1. clear Hstop.
    destruct IH as [IH1 IH2]. unfold consistent. rewrite Hc.
    destruct (process (self w)) as [pid|] eqn:Hp.
    + destruct Hcase as [_ ->]. split; [split; congruence|congruence].
    + destruct Hcase as [_ ->].
      destruct (_is_ready (self w)); [exfalso; apply IH2; auto|].
      split; [split; congruence|congruence].
  - rewrite Heq. exact IH.
Qed.

(** *** When closing the client may raise *)

(** [Closing.stop] raises what the close raises, before anything else
    is done; when there is nothing to close or the close returns, it is
    [stop]. *)
Lemma closing_stop_cases close_client w :
  match client (self w), close_client (steps w) with
  | Some c, Some e =>
      Closing.stop close_client w = (Raise e, effect (EvClientClose c) 0 w)
  | _, _ => Closing.stop close_client w = stop w
  end.
Proof.
  unfold Closing.stop, stop, Closing.aclose, aclose, bind, get, modify.
  cbv beta.
  destruct (client (self w)) as [c|]; [|reflexivity].
  destruct (close_client (steps w)); reflexivity.
Qed.

Lemma closing_start_unfold close_client w :
  Closing.start close_client w =
  match is_running w with
  | (Ok true, w0) => (Ok true, emit (EvLog Warning "comfy_already_running") w0)
  | (Ok false, w0) =>
      let w1 := emit (EvLog Info "starting_comfyui") w0 in
      let w2 := effect (EvSpawn (host (self w1)) (port (self w1))) 0 w1 in
      match popen (env w1) (steps w1) with
      | inl e => closing_failed close_client "comfyui_start_error" w2
      | inr pid =>
          match _wait_for_ready 30 (set_self (set_process (Some pid)) w2) with
          | (Ok true, w3) =>
              let w4 := set_self (set_is_ready true) w3 in
              (Ok true,
               emit (EvLog Info "comfyui_started")
                 (set_self (set_client (Some (steps w4)))
                    (effect (EvClientOpen (steps w4) (base_url_of (self w4))) 0 w4)))
          | (Ok false, w3) =>
              match Closing.stop close_client
                      (emit (EvLog Error "comfyui_failed_to_start")
                         (set_self (set_is_ready false) w3)) with
              | (Ok _, w4) => (Ok false, w4)
              | (Raise e, w4) => closing_failed close_client "comfyui_start_error" w4
              | (Diverge, w4) => (Diverge, w4)
              end
          | (Raise e, w3) => closing_failed close_client "comfyui_start_error" w3
          | (Diverge, w3) => (Diverge, w3)
          end
      end
  | (Raise e, w0) => (Raise e, w0)
  | (Diverge, w0) => (Diverge, w0)
  end.
Proof.
  unfold Closing.start, closing_failed. unfold bind at 1.
  destruct (is_running w) as [[[]| |] w0]; try reflexivity.
  unfold try_except, any_exception. unfold bind at 1. unfold log at 1, modify at 1.
  unfold bind at 1. unfold Popen at 1. cbn [env steps emit].
  destruct (popen (env w0) (steps w0)) as [e|pid].
  - unfold bind, log, modify.
    match goal with |- context [Closing.stop ?c ?w] =>
      destruct (Closing.stop c w) as [[[]| |] ?] end; reflexivity.
  - unfold bind at 1. unfold modify at 1. unfold bind at 1.
    match goal with |- context [_wait_for_ready 30 ?w] =>
      destruct (_wait_for_ready 30 w) as [[[]| |] w3] end.
    + reflexivity.
    + unfold bind, log, modify.
      match goal with |- context [Closing.stop ?c ?w] =>
        destruct (Closing.stop c w) as [[[]| |] ?] end; reflexivity.
    + unfold bind, log, modify.
      match goal with |- context [Closing.stop ?c ?w] =>
        destruct (Closing.stop c w) as [[[]| |] ?] end; reflexivity.
    + reflexivity.
Qed.

(** With nothing to close, or with a close that returns, the functions
    of [Closing] are those of [ComfyUIService]. *)
Lemma closing_stop_eq close_client w :
  client (self w) = None \/ (forall n, close_client n = None) ->
  Closing.stop close_client w = stop w.
Proof.
  intros H. pose proof (closing_stop_cases close_client w) as Hc.
  destruct (client (self w)) as [c|]; [|exact Hc].
  destruct H as [H|H]; [discriminate|]. rewrite H in Hc. exact Hc.
Qed.

Lemma closing_failed_eq close_client name w :
  client (self w) = None \/ (forall n, close_client n = None) ->
  closing_failed close_client name w = start_failed name w.
Proof.
  intros H. unfold closing_failed, start_failed.
  rewrite closing_stop_eq by exact H.
  destruct (stop_cases (emit (EvLog Error name) w)) as (w' & -> & _). reflexivity.
Qed.

Lemma closing_start_eq close_client w :
  client (self w) = None \/ (forall n, close_client n = None) ->
  Closing.start close_client w = start w.
Proof.
  intros H. rewrite closing_start_unfold, start_unfold.
  destruct (is_running_cases w) as (b0 & w0 & Hrun & Hself0 & _).
  rewrite Hrun. destruct b0; [reflexivity|]. cbv zeta.
  assert (H0 : forall wf, client (self wf) = client (self w) ->
            client (self wf) = None \/ (forall n, close_client n = None)).
  { intros wf E. destruct H as [H|H]; [left; congruence|right; exact H]. }
  destruct (popen _ _) as [e|pid].
  { apply closing_failed_eq, H0. simpl. rewrite Hself0. reflexivity. }
  match goal with |- context [_wait_for_ready 30 ?w] =>
    destruct (wait_for_ready_frame 30 w) as (r & w3 & Hwait & _ & Hself3 & _) end.
  rewrite Hwait.
  assert (Hc3 : client (self w3) = client (self w)).
  { rewrite Hself3. simpl. rewrite Hself0. reflexivity. }
  destruct r as [[]|e|]; try reflexivity.
  - rewrite closing_stop_eq by (apply H0; exact Hc3).
    unfold start_failed.
    match goal with |- context [stop ?w] =>
      destruct (stop_cases w) as (w' & -> & _) end.
    reflexivity.
  - apply closing_failed_eq, H0. exact Hc3.
Qed.

(** *** The service client: [queue_prompt] and [get_history] *)

Lemma queue_prompt_unfold prompt w :
  queue_prompt prompt w =
  match client (self w) with
  | None => (Raise (Exn RuntimeError "ComfyUI service not started"), w)
  | Some c =>
      let payload := {| pl_prompt := prompt; pl_client_id := "felix";
                        pl_heap := heap w |} in
      let w1 := effect (EvPost c "/prompt" payload) 0 w in
      match post_prompt (env w) (steps w) with
      | TransportFail e => (Raise e, w1)
      | Reply status body =>
          if accepted status then
            match body with
            | Some prompt_id => (Ok prompt_id, emit (EvLog Info "prompt_queued") w1)
            | None => (Raise (Exn ValueError "Expecting value"), w1)
            end
          else (Raise (Exn HTTPStatusError ("HTTP status " +:+ pretty status)), w1)
      end
  end.
Proof.
  unfold queue_prompt, bind, get, client_post, raise_for_status,
    json, raise, ret, log, modify.
  destruct (client (self w)) as [c|]; [|reflexivity].
  destruct (post_prompt (env w) (steps w)) as [e|status body]; [reflexivity|].
  cbn [fst snd].
  destruct (accepted status); [|reflexivity].
  destruct body; reflexivity.
Qed.

Lemma get_history_unfold prompt_id w :
  get_history prompt_id w =
  match client (self w) with
  | None => (Raise (Exn RuntimeError "ComfyUI service not started"), w)
  | Some c =>
      let w1 := effect (EvGet c (history_url prompt_id)) 0 w in
      match get_hist (env w) (steps w) with
      | TransportFail e => (Raise e, w1)
      | Reply status body =>
          if accepted status then
            match body with
            | Some history => (Ok history, w1)
            | None => (Raise (Exn ValueError "Expecting value"), w1)
            end
          else (Raise (Exn HTTPStatusError ("HTTP status " +:+ pretty status)), w1)
      end
  end.
Proof.
  unfold get_history, bind, get, client_get, raise_for_status, json, raise, ret.
  destruct (client (self w)) as [c|]; [|reflexivity].
  destruct (get_hist (env w) (steps w)) as [e|status body]; [reflexivity|].
  cbn [fst snd].
  destruct (accepted status); [|reflexivity].
  destruct body; reflexivity.
Qed.

Lemma get_history_frame prompt_id w :
  exists r w',
    get_history prompt_id w = (r, w') /\ r <> Diverge /\
    self w' = self w /\ same_outside w w' /\
    match client (self w) with
    | Some c => w' = effect (EvGet c (history_url prompt_id)) 0 w
    | None => w' = w /\ exists e, r = Raise e
    end.
Proof.
  rewrite get_history_unfold.
  destruct (client (self w)) as [c|].
  2: { eexists _, _. split; [reflexivity|]. split; [discriminate|].
       split; [reflexivity|]. split; [frames|]. eauto. }
  cbv zeta.
  destruct (get_hist (env w) (steps w)) as [e|status [history|]];
    [|destruct (accepted status)..];
    (eexists _, _; split; [reflexivity|]; split; [discriminate|];
     split; [reflexivity|]; split; [frames|]; reflexivity).
Qed.

(** *** The poll loop *)

Lemma poll_loop_unfold fuel prompt prompt_id waited max_wait w :
  poll_loop (S fuel) prompt prompt_id waited max_wait w =
  if (waited <? max_wait)%Z then
    match get_history prompt_id (effect (EvSleep 2) 2000 w) with
    | (Ok history, w1) =>
        match first_image prompt_id history with
        | Some img_info =>
            (Ok (msg_generated prompt (image_url (base_url_of (self w1)) img_info)
                   (img_filename img_info)),
             emit (EvLog Info "image_generated") w1)
        | None => poll_loop fuel prompt prompt_id (waited + 2) max_wait w1
        end
    | (Raise e, w1) => (Raise e, w1)
    | (Diverge, w1) => (Diverge, w1)
    end
  else (Ok msg_timed_out, w).
Proof.
  cbn [poll_loop].
  destruct (waited <? max_wait)%Z; [|reflexivity].
  unfold bind at 1. unfold sleep at 1, modify at 1.
  unfold bind at 1. change (2 * 1000)%N with 2000%N.
  destruct (get_history prompt_id (effect (EvSleep 2) 2000 w)) as [[history| |] w1];
    try reflexivity.
  destruct (first_image prompt_id history); reflexivity.
Qed.

(** Polls that were answered without an image are skipped over. *)
Lemma poll_loop_polls prompt prompt_id max_wait waited w k w' :
  polls prompt_id max_wait waited w k w' ->
  forall fuel,
    poll_loop (k + fuel) prompt prompt_id waited max_wait w =
    poll_loop fuel prompt prompt_id (waited + 2 * Z.of_nat k) max_wait w'.
Proof.
  induction 1 as [waited w|waited w history w1 k w' Hlt Hget Hnone Hrest IH];
    intros fuel.
  - simpl. f_equal. lia.
  - change (S k + fuel)%nat with (S (k + fuel)).
    rewrite poll_loop_unfold.
    apply Z.ltb_lt in Hlt. rewrite Hlt, Hget, Hnone, IH.
    f_equal. lia.
Qed.

(** With a unit of fuel for every two time units left, plus one, the
    loop returns: it is a run of empty polls and a last poll. *)
Lemma poll_loop_rounds prompt prompt_id max_wait fuel : forall waited w,
  (max_wait - waited <= 2 * Z.of_nat fuel - 2)%Z ->
  (1 <= fuel)%nat ->
  exists k wk,
    polls prompt_id max_wait waited w k wk /\
    last_poll prompt prompt_id max_wait (waited + 2 * Z.of_nat k) wk
      (poll_loop fuel prompt prompt_id waited max_wait w).
Proof.
  induction fuel as [|fuel IH]; intros waited w Hfuel Hpos; [lia|].
  rewrite poll_loop_unfold.
  destruct (waited <? max_wait)%Z eqn:Hlt.
  2: { exists 0%nat, w. split; [constructor|].
       replace (waited + 2 * Z.of_nat 0)%Z with waited by lia.
       apply TimedOut. apply Z.ltb_ge in Hlt. lia. }
  apply Z.ltb_lt in Hlt.
  destruct (get_history_frame prompt_id (effect (EvSleep 2) 2000 w))
    as (r & w1 & Hget & Hnd & _).
  rewrite Hget.
  destruct r as [history|e|]; [| |congruence].
  - destruct (first_image prompt_id history) as [img_info|] eqn:Himg.
    + exists 0%nat, w. split; [constructor|].
      replace (waited + 2 * Z.of_nat 0)%Z with waited by lia.
      eapply Completed; eauto.
    + destruct (IH (waited + 2)%Z w1) as (k & wk & Hk & Hlast); [lia|lia|].
      exists (S k), wk. split; [eapply polls_again; eauto|].
      replace (waited + 2 * Z.of_nat (S k))%Z
        with (waited + 2 + 2 * Z.of_nat k)%Z by lia.
      exact Hlast.
  - exists 0%nat, w. split; [constructor|].
    replace (waited + 2 * Z.of_nat 0)%Z with waited by lia.
    eapply Failed; eauto.
Qed.

Lemma polls_frame prompt_id max_wait waited w k w' :
  polls prompt_id max_wait waited w k w' ->
  self w' = self w /\ same_outside w w' /\
  history_requests (trace w') = (history_requests (trace w) + k)%nat /\
  (now w + 2000 * Z.of_nat k <= now w')%Z.
Proof.
  induction 1 as [waited w|waited w history w1 k w' Hlt Hget Hnone Hrest IH].
  - repeat split; auto with frames; lia.
  - destruct IH as (IHs & IHo & IHn & IHt).
    destruct (get_history_frame prompt_id (effect (EvSleep 2) 2000 w))
      as (r & w1' & Hget' & _ & Hself & Hout & Hw).
    assert (E := eq_trans (eq_sym Hget) Hget'). inversion E; subst r w1'. clear E.
    assert (Hc : exists c, w1 = effect (EvGet c (history_url prompt_id)) 0
                                  (effect (EvSleep 2) 2000 w)).
    { destruct (client (self (effect (EvSleep 2) 2000 w))) as [c|]; [eauto|].
      destruct Hw as [_ [e He]]. discriminate. }
    destruct Hc as [c Hc].
    split; [rewrite IHs, Hself; reflexivity|].
    split; [eapply same_outside_trans; [|exact IHo]; frames|].
    split.
    + rewrite IHn, Hc. unfold history_requests, effect; simpl.
      rewrite !omap_app, !length_app. simpl. lia.
    + rewrite Hc in IHt. unfold effect in IHt; simpl in IHt. lia.
Qed.

(** *** The workflow dictionaries *)

Lemma getitem_read d k w :
  match read (heap w) d k with
  | Some v => getitem d k w = (Ok v, w)
  | None => exists e, getitem d k w = (Raise e, w)
  end.
Proof.
  unfold getitem, read, bind, get, ret, raise.
  destruct d as [z|q|s|l0|l]; simpl; eauto.
  destruct (heap w !! l ≫= _); eauto.
Qed.

(** The nested assignment either raises before writing anything, or
    writes one key of the dict that the two subscripts lead to. *)
Lemma set_input_cases workflow node key v w :
  (exists e, set_input workflow node key v w = (Raise e, w)) \/
  (exists n il inputs,
      read (heap w) workflow node = Some n /\
      read (heap w) n "inputs" = Some (VDict il) /\
      heap w !! il = Some inputs /\
      set_input workflow node key v w =
        (Ok tt, set_heap (<[il := <[key := v]> inputs]> (heap w)) w)).
Proof.
  pose proof (getitem_read workflow node w) as H1.
  destruct (read (heap w) workflow node) as [n|].
  2: { left. destruct H1 as [e He]. exists e.
       unfold set_input, bind. rewrite He. reflexivity. }
  pose proof (getitem_read n "inputs" w) as H2.
  destruct (read (heap w) n "inputs") as [i|] eqn:Hn.
  2: { left. destruct H2 as [e He]. exists e.
       unfold set_input, bind. rewrite H1, He. reflexivity. }
  assert (Hset : set_input workflow node key v w = setitem i key v w)
    by (unfold set_input, bind; rewrite H1, H2; reflexivity).
  rewrite Hset. unfold setitem, bind, get, modify, raise.
  destruct i as [z|q|s|l0|il]; eauto.
  destruct (heap w !! il) as [inputs|] eqn:Hil; eauto.
  right. exists n, il, inputs. auto.
Qed.

(** Writing a key of one dict leaves every other key of every dict. *)
Lemma read_insert_other h il inputs key v d k x :
  h !! il = Some inputs -> k <> key ->
  read h d k = Some x ->
  read (<[il := <[key := v]> inputs]> h) d k = Some x.
Proof.
  intros Hil Hk. destruct d as [z|q|s|l0|l]; simpl; try discriminate.
  destruct (decide (il = l)) as [->|Hne].
  - rewrite lookup_insert_eq, Hil. simpl. rewrite lookup_insert_ne; auto.
  - rewrite lookup_insert_ne; auto.
Qed.

(** What was just assigned is what the same subscripts read back. *)
Lemma set_input_reads_back workflow node key v w w' :
  key <> node -> key <> "inputs" ->
  set_input workflow node key v w = (Ok tt, w') ->
  input_field (heap w') workflow node key = Some v /\
  exists h', w' = set_heap h' w.
Proof.
  intros Hnode Hinputs Hset.
  destruct (set_input_cases workflow node key v w)
    as [[e He]|(n & il & inputs & Hn & Hi & Hil & Heq)]; [congruence|].
  rewrite Heq in Hset. inversion Hset; subst w'. clear Hset.
  split; [|eauto].
  unfold input_field; simpl.
  rewrite (read_insert_other _ _ _ _ _ _ _ _ Hil (not_eq_sym Hnode) Hn). simpl.
  rewrite (read_insert_other _ _ _ _ _ _ _ _ Hil (not_eq_sym Hinputs) Hi). simpl.
  rewrite lookup_insert_eq. simpl. apply lookup_insert_eq.
Qed.

Lemma copy_cases d w :
  (exists e, copy d w = (Raise e, w)) \/
  (exists l entries,
      d = VDict l /\ heap w !! l = Some entries /\
      heap w !! fresh (dom (heap w)) = None /\
      copy d w = (Ok (VDict (fresh (dom (heap w)))),
                  set_heap (<[fresh (dom (heap w)) := entries]> (heap w)) w)).
Proof.
  unfold copy, bind, get, modify, ret, raise.
  destruct d as [z|q|s|l0|l]; eauto.
  destruct (heap w !! l) as [entries|] eqn:Hl; eauto.
  right. exists l, entries. repeat split; auto.
  apply not_elem_of_dom. apply is_fresh.
Qed.

(** *** [queue_workflow] *)

Lemma bind_ok {A B} (m : M A) (k : A -> M B) w a w1 :
  m w = (Ok a, w1) -> bind m k w = k a w1.
Proof. unfold bind. intros ->. reflexivity. Qed.

Lemma bind_raise {A B} (m : M A) (k : A -> M B) w e w1 :
  m w = (Raise e, w1) -> bind m k w = (Raise e, w1).
Proof. unfold bind. intros ->. reflexivity. Qed.

Lemma heap_only_refl w : heap_only w w.
Proof. unfold heap_only, set_heap. destruct w; reflexivity. Qed.

Lemma heap_only_set h w w' : heap_only w w' -> heap_only w (set_heap h w').
Proof. unfold heap_only. intros ->. reflexivity. Qed.

Lemma heap_only_trace w w' :
  heap_only w w' ->
  trace w' = trace w /\ self w' = self w /\ env w' = env w /\
  steps w' = steps w /\ now w' = now w /\ registered w' = registered w.
Proof. unfold heap_only. intros ->. repeat split. Qed.

(** One [set_input] of [queue_workflow]: it raised, or the heap changed. *)
Ltac next_input H0 :=
  match goal with
  | |- context [bind (set_input ?wf ?node ?key ?v) ?k ?w0] =>
      destruct (set_input_cases wf node key v w0)
        as [[e He]|(n & il & inputs & _ & _ & _ & Hset)];
      [ left; exists e, w0; split; [exact H0|]; apply bind_raise, He
      | rewrite (bind_ok _ _ _ _ _ Hset);
        apply (heap_only_set (<[il := <[key := v]> inputs]> (heap w0))) in H0;
        revert H0;
        generalize (set_heap (<[il := <[key := v]> inputs]> (heap w0)) w0);
        clear Hset n il inputs; intros ? H0 ]
  end.

(** What [queue_workflow] can have done when it returns: nothing but
    heap writes and an exception, or heap writes and then
    [queue_prompt] on the new dict. *)
Lemma queue_workflow_cases prompt negative_prompt width height steps cfg_scale w :
  (exists e w', heap_only w w' /\
     queue_workflow prompt negative_prompt width height steps cfg_scale w
       = (Raise e, w')) \/
  (exists workflow w1,
     heap_only w w1 /\
     input_field (heap w1) workflow "3" "seed" = Some (VInt (-1)) /\
     queue_workflow prompt negative_prompt width height steps cfg_scale w
       = queue_prompt workflow (emit (EvLog Info "queueing_image_generation") w1)).
Proof.
  unfold queue_workflow.
  destruct (copy_cases DEFAULT_TEXT2IMG_WORKFLOW w)
    as [[e He]|(l & entries & _ & _ & _ & Hcopy)].
  { left. exists e, w. split; [apply heap_only_refl|]. apply bind_raise, He. }
  rewrite (bind_ok _ _ _ _ _ Hcopy).
  set (workflow := VDict (fresh (dom (heap w)))).
  assert (H0 : heap_only w (set_heap (<[fresh (dom (heap w)):=entries]> (heap w)) w))
    by apply heap_only_set, heap_only_refl.
  revert H0. generalize (set_heap (<[fresh (dom (heap w)):=entries]> (heap w)) w).
  intros w0 H0.
  next_input H0. rename w1 into wa.
  next_input H0. rename w1 into wb.
  next_input H0. rename w1 into wc.
  next_input H0. rename w1 into wd.
  next_input H0. rename w1 into we.
  next_input H0. rename w1 into wf.
  destruct (set_input_cases workflow "3" "seed" (VInt (-1)) wf)
    as [[e He]|(n & il & inputs & _ & _ & _ & Hset)].
  { left. exists e, wf. split; [exact H0|]. apply bind_raise, He. }
  rewrite (bind_ok _ _ _ _ _ Hset).
  destruct (set_input_reads_back workflow "3" "seed" (VInt (-1)) wf _
              ltac:(discriminate) ltac:(discriminate) Hset) as [Hseed _].
  right. exists workflow, (set_heap (<[il:=<["seed":=VInt (-1)]> inputs]> (heap wf)) wf).
  split; [apply heap_only_set, H0|]. split; [exact Hseed|]. reflexivity.
Qed.

(** *** The template under [queue_workflow] *)

Lemma slot_insert h il inputs key v il' key' :
  slot (<[il := <[key := v]> inputs]> h) il' key' =
  if decide (il' = il)
  then (if decide (key' = key) then Some v else inputs !! key')
  else slot h il' key'.
Proof.
  unfold slot. destruct (decide (il' = il)) as [->|Hne].
  - rewrite lookup_insert_eq. simpl.
    destruct (decide (key' = key)) as [->|Hk].
    + apply lookup_insert_eq.
    + rewrite lookup_insert_ne; auto.
  - rewrite lookup_insert_ne; auto.
Qed.

Lemma has_node_field h l node nl il key :
  has_node h l node nl il ->
  input_field h (VDict l) node key = slot h il key.
Proof.
  intros (top & nd & Hl & Hnode & Hnl & Hin & _).
  unfold input_field, slot; simpl.
  rewrite Hl; simpl. rewrite Hnode; simpl. rewrite Hnl; simpl. rewrite Hin.
  reflexivity.
Qed.

Lemma has_node_insert h l node nl il il' d :
  has_node h l node nl il -> il' <> l -> il' <> nl ->
  has_node (<[il' := d]> h) l node nl il.
Proof.
  intros (top & nd & Hl & Hnode & Hnl & Hin & Hil) H1 H2.
  exists top, nd. rewrite !lookup_insert_ne by auto.
  repeat split; auto.
  destruct (decide (il' = il)) as [->|Hne].
  - rewrite lookup_insert_eq. eauto.
  - rewrite lookup_insert_ne; auto.
Qed.

Lemma workflow_shape_insert h l il' d :
  workflow_shape h l -> inputs_loc il' -> il' <> l ->
  workflow_shape (<[il' := d]> h) l.
Proof.
  intros (H3 & H5 & H6 & H7) Hil Hl.
  repeat split; apply has_node_insert; auto;
    destruct Hil as [-> | [-> | [-> | ->]]]; discriminate.
Qed.

Lemma workflow_shape_copy h top l' :
  template_shape h -> h !! 0 = Some top -> h !! l' = None ->
  workflow_shape (<[l' := top]> h) 0 /\ workflow_shape (<[l' := top]> h) l' /\
  ~ inputs_loc l'.
Proof.
  intros Hshape Htop Hfresh.
  assert (Hne : forall l, is_Some (h !! l) -> l' <> l)
    by (intros l [x Hx] ->; congruence).
  assert (Hnode : forall node nl il,
    has_node h 0 node nl il ->
    has_node (<[l' := top]> h) 0 node nl il /\
    has_node (<[l' := top]> h) l' node nl il /\ l' <> il).
  { intros node nl il (top' & nd & Hl & Hn & Hnl & Hin & Hil).
    assert (top' = top) by (rewrite Htop in Hl; inversion Hl; reflexivity).
    subst top'.
    assert (l' <> 0) by (apply Hne; eauto).
    assert (l' <> nl) by (apply Hne; eauto).
    assert (l' <> il) by (apply Hne; eauto).
    split; [|split; [|assumption]].
    - exists top, nd. rewrite !lookup_insert_ne by auto. auto.
    - exists top, nd. rewrite lookup_insert_eq, !lookup_insert_ne by auto. auto. }
  destruct Hshape as (H3 & H5 & H6 & H7).
  apply Hnode in H3 as (? & ? & ?). apply Hnode in H5 as (? & ? & ?).
  apply Hnode in H6 as (? & ? & ?). apply Hnode in H7 as (? & ? & ?).
  repeat split; auto.
  intros [-> | [-> | [-> | ->]]]; congruence.
Qed.

Lemma set_input_shape w l node nl il key v :
  has_node (heap w) l node nl il ->
  exists inputs,
    heap w !! il = Some inputs /\
    set_input (VDict l) node key v w =
      (Ok tt, set_heap (<[il := <[key := v]> inputs]> (heap w)) w).
Proof.
  intros (top & nd & Hl & Hnode & Hnl & Hin & [inputs Hil]).
  exists inputs. split; [exact Hil|].
  pose proof (getitem_read (VDict l) node w) as H1.
  simpl in H1. rewrite Hl in H1. simpl in H1. rewrite Hnode in H1.
  pose proof (getitem_read (VDict nl) "inputs" w) as H2.
  simpl in H2. rewrite Hnl in H2. simpl in H2. rewrite Hin in H2.
  unfold set_input. rewrite (bind_ok _ _ _ _ _ H1), (bind_ok _ _ _ _ _ H2).
  unfold setitem, bind, get, modify. rewrite Hil. reflexivity.
Qed.

Lemma tracked_copy w :
  template_shape (heap w) ->
  exists l w1,
    copy DEFAULT_TEXT2IMG_WORKFLOW w = (Ok (VDict l), w1) /\ tracked w l [] w1.
Proof.
  intros Hshape.
  assert (Htop : is_Some (heap w !! 0))
    by (destruct Hshape as ((top & ? & Ht & _) & _); eauto).
  destruct Htop as [top Htop].
  destruct (copy_cases DEFAULT_TEXT2IMG_WORKFLOW w)
    as [[e He]|(l0 & entries & Hl0 & Hent & Hfresh & Hcopy)].
  { exfalso. unfold copy, DEFAULT_TEXT2IMG_WORKFLOW, bind, get in He.
    rewrite Htop in He. discriminate. }
  inversion Hl0; subst l0. rewrite Htop in Hent. inversion Hent; subst entries.
  destruct (workflow_shape_copy _ _ _ Hshape Htop Hfresh) as (S0 & Sl & Hnl).
  assert (Hl : fresh (dom (heap w)) <> 0)
    by (intros E; rewrite E in Hfresh; congruence).
  eexists _, _. split; [exact Hcopy|].
  unfold tracked; simpl.
  split; [apply heap_only_set, heap_only_refl|].
  repeat (split; [assumption|]).
  split; [rewrite lookup_insert_ne; auto|constructor].
Qed.

Lemma tracked_set_input w0 l fs w node nl il key v :
  tracked w0 l fs w ->
  (forall h, workflow_shape h l -> has_node h l node nl il) ->
  inputs_loc il ->
  Forall (fun f => f.1.1 <> il \/ f.1.2 <> key) fs ->
  exists w',
    set_input (VDict l) node key v w = (Ok tt, w') /\
    tracked w0 l ((il, key, v) :: fs) w'.
Proof.
  intros (H0 & S0 & Sl & Hnl & Hl & Hzero & Hfs) Hnode Hil Hother.
  destruct (set_input_shape w l node nl il key v (Hnode _ Sl)) as (i & Hi & Hset).
  eexists. split; [exact Hset|].
  unfold tracked; simpl.
  split; [apply heap_only_set, H0|].
  split; [apply workflow_shape_insert; auto;
          destruct Hil as [-> | [-> | [-> | ->]]]; discriminate|].
  split; [apply workflow_shape_insert; auto; intros E; apply Hnl; rewrite <- E; exact Hil|].
  split; [exact Hnl|]. split; [exact Hl|].
  split; [rewrite lookup_insert_ne; auto;
          destruct Hil as [-> | [-> | [-> | ->]]]; discriminate|].
  constructor.
  - simpl. rewrite slot_insert. rewrite !decide_True by reflexivity. reflexivity.
  - rewrite Forall_forall in *. intros f Hf.
    specialize (Hfs f Hf). specialize (Hother f Hf). cbv beta in *.
    rewrite slot_insert.
    destruct (decide (f.1.1 = il)) as [E1|]; [|exact Hfs].
    destruct (decide (f.1.2 = key)) as [E2|]; [tauto|].
    unfold slot in Hfs. rewrite E1, Hi in Hfs. exact Hfs.
Qed.

(** The inputs written so far are other inputs than the next one. *)
Ltac other_inputs :=
  repeat (apply Forall_cons_2;
          [simpl; first [left; discriminate | right; discriminate]|]);
  apply Forall_nil_2.

(** With the template in shape, [queue_workflow] reaches [queue_prompt],
    and by then the inputs of the template hold the arguments. *)
Lemma queue_workflow_template prompt negative_prompt width height steps cfg_scale w :
  template_shape (heap w) ->
  exists l w1,
    queue_workflow prompt negative_prompt width height steps cfg_scale w
      = queue_prompt (VDict l) (emit (EvLog Info "queueing_image_generation") w1) /\
    tracked w l
      [ (2, "seed", VInt (-1)); (2, "cfg", VFloat cfg_scale);
        (2, "steps", VInt steps); (6, "height", VInt height);
        (6, "width", VInt width); (10, "text", VStr negative_prompt);
        (8, "text", VStr prompt) ] w1.
Proof.
  intros Hshape. unfold queue_workflow.
  destruct (tracked_copy w Hshape) as (l & wa & Hcopy & Ta).
  rewrite (bind_ok _ _ _ _ _ Hcopy).
  assert (I2 : inputs_loc 2) by (unfold inputs_loc; tauto).
  assert (I6 : inputs_loc 6) by (unfold inputs_loc; tauto).
  assert (I8 : inputs_loc 8) by (unfold inputs_loc; tauto).
  assert (I10 : inputs_loc 10) by (unfold inputs_loc; tauto).
  assert (N3 : forall h, workflow_shape h l -> has_node h l "3" 1 2) by (intros h H; apply H).
  assert (N5 : forall h, workflow_shape h l -> has_node h l "5" 5 6) by (intros h H; apply H).
  assert (N6 : forall h, workflow_shape h l -> has_node h l "6" 7 8) by (intros h H; apply H).
  assert (N7 : forall h, workflow_shape h l -> has_node h l "7" 9 10) by (intros h H; apply H).
  destruct (tracked_set_input _ _ _ _ "6" 7 8 "text" (VStr prompt) Ta N6 I8)
    as (wb & Hb & Tb); [constructor|].
  rewrite (bind_ok _ _ _ _ _ Hb).
  destruct (tracked_set_input _ _ _ _ "7" 9 10 "text" (VStr negative_prompt) Tb N7 I10)
    as (wc & Hc & Tc); [other_inputs|].
  rewrite (bind_ok _ _ _ _ _ Hc).
  destruct (tracked_set_input _ _ _ _ "5" 5 6 "width" (VInt width) Tc N5 I6)
    as (wd & Hd & Td); [other_inputs|].
  rewrite (bind_ok _ _ _ _ _ Hd).
  destruct (tracked_set_input _ _ _ _ "5" 5 6 "height" (VInt height) Td N5 I6)
    as (we & He & Te); [other_inputs|].
  rewrite (bind_ok _ _ _ _ _ He).
  destruct (tracked_set_input _ _ _ _ "3" 1 2 "steps" (VInt steps) Te N3 I2)
    as (wf & Hf & Tf); [other_inputs|].
  rewrite (bind_ok _ _ _ _ _ Hf).
  destruct (tracked_set_input _ _ _ _ "3" 1 2 "cfg" (VFloat cfg_scale) Tf N3 I2)
    as (wg & Hg & Tg); [other_inputs|].
  rewrite (bind_ok _ _ _ _ _ Hg).
  destruct (tracked_set_input _ _ _ _ "3" 1 2 "seed" (VInt (-1)) Tg N3 I2)
    as (wh & Hh & Th); [other_inputs|].
  rewrite (bind_ok _ _ _ _ _ Hh).
  exists l, wh. split; [reflexivity|exact Th].
Qed.

(** *** [generate_image] *)

Lemma ensure_started_cases w :
  exists b w1,
    ensure_started w = (Ok b, w1) /\ same_outside w w1 /\
    host (self w1) = host (self w) /\ port (self w1) = port (self w).
Proof.
  unfold ensure_started.
  destruct (is_running_cases w) as (b0 & w0 & Hrun & Hself0 & Hout0 & _).
  rewrite (bind_ok _ _ _ _ _ Hrun). destruct b0.
  - exists true, w0. unfold ret. rewrite Hself0. auto.
  - unfold bind, log, modify.
    destruct (start_cases (emit (EvLog Info "starting_comfyui_for_generation") w0))
      as (b & w1 & Hstart & Hout1 & Hh & Hp & _).
    rewrite Hstart. exists b, w1. split; [reflexivity|].
    split; [eapply same_outside_trans; [|exact Hout1]; frames|].
    simpl in Hh, Hp. rewrite Hh, Hp, Hself0. auto.
Qed.

Lemma last_poll_frame prompt prompt_id max_wait waited w r w' :
  last_poll prompt prompt_id max_wait waited w (r, w') ->
  self w' = self w /\ same_outside w w' /\ r <> Diverge.
Proof.
  destruct (get_history_frame prompt_id (effect (EvSleep 2) 2000 w))
    as (r1 & w1 & Hget & _ & Hself & Hout & _).
  inversion 1 as [Hlt|history w2 img Hlt Hget'|e w2 Hlt Hget']; subst;
    try (assert (E := eq_trans (eq_sym Hget) Hget'); inversion E; subst r1 w1).
  - split; [reflexivity|]. split; [frames|discriminate].
  - split; [exact Hself|]. split; [frames|discriminate].
  - split; [exact Hself|]. split; [frames|discriminate].
Qed.

(** [await_result] returns: it is a run of empty polls and a last poll. *)
Lemma await_result_rounds prompt prompt_id w :
  exists k wk,
    polls prompt_id 120 0 w k wk /\
    last_poll prompt prompt_id 120 (2 * Z.of_nat k) wk
      (await_result prompt prompt_id w).
Proof.
  unfold await_result.
  destruct (poll_loop_rounds prompt prompt_id 120 (S (Z.to_nat 120)) 0 w)
    as (k & wk & Hk & Hlast); [lia|lia|].
  exists k, wk. split; [exact Hk|exact Hlast].
Qed.

Lemma await_result_frame prompt prompt_id w :
  exists r w',
    await_result prompt prompt_id w = (r, w') /\ r <> Diverge /\
    self w' = self w /\ same_outside w w'.
Proof.
  destruct (await_result_rounds prompt prompt_id w) as (k & wk & Hk & Hlast).
  destruct (await_result prompt prompt_id w) as [r w'].
  apply polls_frame in Hk as (Hs1 & Ho1 & _).
  apply last_poll_frame in Hlast as (Hs2 & Ho2 & Hr).
  exists r, w'. split; [reflexivity|]. split; [exact Hr|].
  split; [congruence|]. eapply same_outside_trans; eauto.
Qed.

Lemma generate_image_unfold prompt negative_prompt width height steps cfg_scale w :
  generate_image prompt negative_prompt width height steps cfg_scale w =
  if registered w then
    match ensure_started w with
    | (Ok true, w1) =>
        match queue_workflow prompt negative_prompt width height steps cfg_scale w1 with
        | (Ok prompt_id, w2) => caught (await_result prompt prompt_id w2)
        | (Raise e, w2) => caught (Raise e, w2)
        | (Diverge, w2) => (Diverge, w2)
        end
    | (Ok false, w1) => (Ok msg_start_failed, w1)
    | (Raise e, w1) => (Raise e, w1)
    | (Diverge, w1) => (Diverge, w1)
    end
  else (Ok msg_not_available, w).
Proof.
  unfold generate_image. unfold bind at 1. unfold get_comfy_service, get at 1.
  destruct (registered w); [|reflexivity]. cbn [negb].
  unfold bind at 1.
  destruct (ensure_started w) as [[[]| |] w1]; try reflexivity.
  cbn [negb]. unfold try_except, any_exception, caught. unfold bind at 1.
  destruct (queue_workflow prompt negative_prompt width height steps cfg_scale w1)
    as [[prompt_id|e|] w2]; try reflexivity.
  destruct (await_result prompt prompt_id w2) as [[s|e|] w3]; reflexivity.
Qed.

(** *** Idempotent start *)

(** C1. When the supervised process is running, that is, the object
    holds a process and the operating system reports it alive, [start]
    returns True at once: the object, and with it the identity of the
    process, is unchanged, and nothing happened but the liveness check
    and the warning; no process was spawned. *)
Theorem start_idempotent (w : World) (pid : nat) :
  process (self w) = Some pid ->
  poll_alive (env w) (steps w) = true ->
  exists w',
    start w = (Ok true, w') /\
    self w' = self w /\
    trace w' = trace w ++ [EvPoll pid; EvLog Warning "comfy_already_running"].
Proof.
  intros Hp Halive. rewrite start_unfold.
  unfold is_running, bind, get, poll, ret. rewrite Hp, Halive.
  eexists. split; [reflexivity|]. split; [reflexivity|].
  simpl. rewrite <- app_assoc. reflexivity.
Qed.

Lemma start_idempotent_witness :
  process (self ready_world) = Some 4711%nat /\
  poll_alive (env ready_world) (steps ready_world) = true /\
  exists w',
    start ready_world = (Ok true, w') /\
    self w' = self ready_world /\
    trace w' = trace ready_world
                 ++ [EvPoll 4711; EvLog Warning "comfy_already_running"].
Proof.
  split; [vm_compute; reflexivity|]. split; [vm_compute; reflexivity|].
  apply (start_idempotent ready_world 4711%nat); vm_compute; reflexivity.
Defined.

(** *** [stop] *)







(** A process that ignores SIGTERM: the wait of 10 time units expires,
    the group is killed and waited for; the failed wait would have been
    logged and swallowed. *)
Example stop_forced :
  let w := snd (stop (started stubborn_env)) in
  fst (stop (started stubborn_env)) = Ok tt /\
  self w = {| host := "127.0.0.1"; port := 8188; process := None;
              client := None; _is_ready := false |} /\
  skipn 14 (trace w) =
    [ EvClientClose 9; EvSignal 4711 SIGTERM; EvWait 4711 (Some 10%N);
      EvSignal 4711 SIGKILL; EvWait 4711 None; EvLog Info "comfyui_stopped" ].
Proof. vm_compute. repeat split. Qed.

(** *** The readiness prober *)

Lemma is_running_found w b w1 :
  is_running w = (Ok b, w1) ->
  if b then found_alive w w1 else found_dead w w1.
Proof.
  intros Hrun.
  destruct (is_running_cases w) as (b' & w1' & Hrun' & _ & _ & Hcase).
  rewrite Hrun in Hrun'. inversion Hrun'; subst b' w1'. clear Hrun'.
  unfold found_alive, found_dead.
  destruct (process (self w)) as [pid|].
  - destruct Hcase as [-> ->].
    destruct (poll_alive (env w) (steps w)) eqn:Halive; [eauto|right; eauto].
  - destruct Hcase as [-> ->]. left. auto.
Qed.

Lemma rounds_retried start_time timeout w k w' :
  rounds start_time timeout w k w' -> retried start_time timeout w k w'.
Proof.
  induction 1 as [w|w w1 k w' Hin Hrun Hnot Hrest IH]; [constructor|].
  eapply retried_again; eauto.
  exact (is_running_found _ _ _ Hrun).
Qed.

Lemma last_round_returned start_time timeout w r :
  last_round start_time timeout w r -> returned start_time timeout w r.
Proof.
  inversion 1 as [Hin|w1 Hin Hrun|w1 body Hin Hrun Hprobe|w1 e Hin Hrun Hprobe He];
    subst.
  - apply returned_not_ready. exact Hin.
  - apply returned_process_died; [exact Hin|].
    exact (is_running_found _ _ _ Hrun).
  - eapply returned_ready; [exact Hin| |exact Hprobe].
    exact (is_running_found _ _ _ Hrun).
  - eapply returned_raised; [exact Hin| |exact Hprobe|exact He].
    exact (is_running_found _ _ _ Hrun).
Qed.

(** C5, as the code has it.  [_wait_for_ready] always returns, and its
    run is a sequence of rounds.  Every round first tests the deadline
    and then the liveness of the process: the object holds a process
    and the operating system reports it alive.  In the rounds before
    the last the process was alive and the health request, sent with a
    timeout of 2 time units, met a network error or a status other
    than 200, any other 2xx included; each of them ended with a sleep
    of one time unit.  The last round is one of four: the deadline has
    elapsed (NotReady); there is no process or it has exited
    (ProcessDied, returned at once: after the liveness check nothing
    is requested and nothing is slept, and the deadline had not
    elapsed); the health request answers 200 (Ready); or the request
    raises something that is not a network error, which propagates.
    At most [timeout] rounds are retried.  The answer False with the
    timeout logged comes only once the deadline has elapsed; the code
    answers False for ProcessDied as well, and the log tells them
    apart. *)
Theorem readiness_prober (timeout : Z) (w : World) :
  (exists k w1,
     retried (now w) timeout w k w1 /\
     returned (now w) timeout w1 (_wait_for_ready timeout w) /\
     (Z.of_nat k <= Z.max 0 timeout)%Z) /\
  (forall w',
     _wait_for_ready timeout w = (Ok false, w') ->
     (last (trace w') = Some (EvLog Error "comfyui_ready_timeout") /\
      (timeout * 1000 <= now w' - now w)%Z) \/
     last (trace w') = Some (EvLog Error "comfyui_process_died")).
Proof.
  destruct (wait_for_ready_rounds timeout w) as (k & w1 & Hk & Hlast & Hle).
  split.
  { exists k, w1. split; [apply rounds_retried; exact Hk|].
    split; [apply last_round_returned; exact Hlast|exact Hle]. }
  intros w' Hrun. rewrite Hrun in Hlast.
  pose proof (rounds_frame _ _ _ _ _ Hk) as (_ & _ & _ & _ & _ & Hnow & _).
  inversion Hlast as [Hin|w2 Hin Hdead| |]; subst.
  - left. simpl. split; [apply last_snoc|]. unfold within in Hin. lia.
  - right. simpl. apply last_snoc.
Qed.

(** C5, as the spec has it, fails: the process is alive and every
    health request is answered 204, a success status; the prober
    retries until the deadline and answers NotReady. *)
Lemma ready_needs_status_200 : ~ ready_on_http_success.
Proof.
  intros H.
  pose (w := world_of no_content_env true waiting_service 0).
  specialize (H 30%Z w (effect (EvPoll 4711) 0 w) 204%Z None).
  assert (E : fst (_wait_for_ready 30 w) = Ok false) by (vm_compute; reflexivity).
  rewrite H in E; [discriminate| | | |reflexivity].
  - unfold within. simpl. lia.
  - exists 4711%nat. repeat split.
  - reflexivity.
Qed.

(** Every health request is answered 204: the prober gives up after
    30 rounds and 30 time units. *)
Example no_content_is_not_ready :
  let run := _wait_for_ready 30 (world_of no_content_env true waiting_service 0) in
  fst run = Ok false /\
  now (snd run) = 30000%Z /\
  last (trace (snd run)) = Some (EvLog Error "comfyui_ready_timeout").
Proof. vm_compute. repeat split. Qed.

(** A service that is never healthy: the prober gives up after 30
    rounds and 30 time units, not earlier, and [start] answers False
    and leaves the state Stopped. *)
Example never_healthy :
  let run := _wait_for_ready 30 (world_of deaf_env true
               {| host := "127.0.0.1"; port := 8188; process := Some 4711%nat;
                  client := None; _is_ready := false |} 0) in
  fst run = Ok false /\
  now (snd run) = 30000%Z /\
  length (trace (snd run)) = 91%nat /\
  last (trace (snd run)) = Some (EvLog Error "comfyui_ready_timeout") /\
  fst (start (world_of deaf_env true no_service 0)) = Ok false /\
  Stopped (self (snd (start (world_of deaf_env true no_service 0)))).
Proof. vm_compute. repeat split. Qed.

(** *** Failure of [start] *)


(** *** The client and the readiness flag *)



(** The process dies: [start] answers False after one liveness check,
    a quarter of a second in, and the failed signal of [stop] is
    swallowed. *)
Example start_crash :
  fst (start crash_world) = Ok false /\
  self (snd (start crash_world)) =
    {| host := "127.0.0.1"; port := 8188; process := None; client := None;
       _is_ready := false |} /\
  now (snd (start crash_world)) = 750%Z /\
  trace (snd (start crash_world)) =
    [ EvLog Info "comfy_service_initialized";
      EvLog Info "starting_comfyui"; EvSpawn "127.0.0.1" 8188;
      EvPoll 4712; EvLog Error "comfyui_process_died";
      EvLog Error "comfyui_failed_to_start";
      EvSignal 4712 SIGTERM; EvLog Error "comfyui_stop_error" ].
Proof. vm_compute. repeat split. Qed.




(** *** The client identifier *)

Lemma queue_prompt_posted prompt w :
  match client (self w) with
  | Some c =>
      posted (trace (snd (queue_prompt prompt w))) =
      posted (trace w)
        ++ [ {| pl_prompt := prompt; pl_client_id := "felix"; pl_heap := heap w |} ]
  | None => snd (queue_prompt prompt w) = w
  end /\
  heap (snd (queue_prompt prompt w)) = heap w /\
  self (snd (queue_prompt prompt w)) = self w /\
  fst (queue_prompt prompt w) <> Diverge.
Proof.
  rewrite queue_prompt_unfold.
  destruct (client (self w)) as [c|]; [|repeat split; discriminate].
  cbv zeta.
  destruct (post_prompt (env w) (steps w)) as [e|status [id|]];
    [|destruct (accepted status)..]; simpl;
    rewrite ?posted_app; simpl; rewrite ?app_nil_r; repeat split; discriminate.
Qed.

(** C8, as the code has it.  With a client, [queue_prompt] posts exactly
    one payload: the workflow it was given and the client identifier
    "felix", which is fixed.  When the service accepts the request and
    its answer carries a prompt id, that id is returned. *)
Theorem queue_prompt_payload (prompt : value) (w : World) (c : nat) :
  client (self w) = Some c ->
  exists r w',
    queue_prompt prompt w = (r, w') /\
    posted (trace w') =
      posted (trace w)
        ++ [ {| pl_prompt := prompt; pl_client_id := "felix"; pl_heap := heap w |} ] /\
    (forall status prompt_id,
       post_prompt (env w) (steps w) = Reply status (Some prompt_id) ->
       accepted status = true ->
       r = Ok prompt_id).
Proof.
  intros Hc.
  pose proof (queue_prompt_posted prompt w) as (Hposted & _).
  rewrite Hc in Hposted.
  destruct (queue_prompt prompt w) as [r w'] eqn:Hq.
  exists r, w'. split; [reflexivity|]. split; [exact Hposted|].
  intros status prompt_id Hreply Hacc.
  rewrite queue_prompt_unfold, Hc in Hq. cbv zeta in Hq.
  rewrite Hreply, Hacc in Hq. inversion Hq; reflexivity.
Qed.

Lemma queue_prompt_payload_witness :
  client (self ready_world) = Some 9%nat /\
  exists r w',
    queue_prompt (VDict 0) ready_world = (r, w') /\
    posted (trace w') =
      posted (trace ready_world)
        ++ [ {| pl_prompt := VDict 0; pl_client_id := "felix";
                pl_heap := heap ready_world |} ] /\
    (forall status prompt_id,
       post_prompt (env ready_world) (steps ready_world)
         = Reply status (Some prompt_id) ->
       accepted status = true ->
       r = Ok prompt_id).
Proof.
  split; [vm_compute; reflexivity|].
  apply (queue_prompt_payload (VDict 0) ready_world 9%nat).
  vm_compute. reflexivity.
Defined.

(** C8, as the spec has it, fails: no call posts the identifier
    "caller-7". *)
Lemma client_id_is_not_chosen : ~ caller_chooses_client_id.
Proof.
  intros H. destruct (H "caller-7") as (prompt & w & r & w' & p & Hq & Hp & Hid).
  pose proof (queue_prompt_posted prompt w) as (Hposted & _).
  rewrite Hq in Hposted. simpl in Hposted.
  destruct (client (self w)) as [c|].
  - rewrite Hp in Hposted. apply app_inv_head in Hposted.
    inversion Hposted; subst p. simpl in Hid. discriminate.
  - subst w'. apply (f_equal length) in Hp. rewrite length_app in Hp.
    simpl in Hp. lia.
Qed.

(** *** The seed of the submitted workflow *)

Lemma caught_frame (r : outcome string * World) :
  heap (snd (caught r)) = heap (snd r) /\
  posted (trace (snd (caught r))) = posted (trace (snd r)) /\
  self (snd (caught r)) = self (snd r).
Proof.
  destruct r as [[s|e|] w]; simpl; repeat split.
  rewrite posted_app. apply app_nil_r.
Qed.

Lemma failed_is_not_polled prompt e : ~ polled_answer prompt (Ok (msg_failed e)).
Proof.
  intros [H|(url & filename & H)]; revert H;
    unfold msg_timed_out, msg_failed, msg_generated; simpl; discriminate.
Qed.

Lemma after_queue_posted prompt workflow wq :
  posted (trace (snd (match queue_prompt workflow wq with
                      | (Ok prompt_id, w3) => caught (await_result prompt prompt_id w3)
                      | (Raise e, w3) => caught (Raise e, w3)
                      | (Diverge, w3) => (Diverge, w3)
                      end))) = posted (trace (snd (queue_prompt workflow wq))).
Proof.
  destruct (queue_prompt workflow wq) as [[prompt_id|e|] w3]; simpl.
  - destruct (await_result_frame prompt prompt_id w3) as (r4 & w4 & Hawait & _ & _ & Hout4).
    rewrite Hawait. destruct (caught_frame (r4, w4)) as (_ & Hp & _).
    rewrite Hp. simpl. apply Hout4.
  - rewrite posted_app. apply app_nil_r.
  - reflexivity.
Qed.

(** What follows the construction of the workflow: with a client the
    workflow is posted once, whatever the answer; without one nothing
    is posted and the answer is a failure text. *)
Lemma after_queue_result prompt workflow wq :
  let r := match queue_prompt workflow wq with
           | (Ok prompt_id, w3) => caught (await_result prompt prompt_id w3)
           | (Raise e, w3) => caught (Raise e, w3)
           | (Diverge, w3) => (Diverge, w3)
           end in
  match client (self wq) with
  | Some c =>
      posted (trace (snd r)) =
      posted (trace wq)
        ++ [ {| pl_prompt := workflow; pl_client_id := "felix"; pl_heap := heap wq |} ]
  | None =>
      posted (trace (snd r)) = posted (trace wq) /\
      exists e, fst r = Ok (msg_failed e)
  end.
Proof.
  cbv zeta. rewrite after_queue_posted.
  pose proof (queue_prompt_posted workflow wq) as (Hposted & _).
  destruct (client (self wq)) as [c|] eqn:Hc; [exact Hposted|].
  rewrite Hposted. split; [reflexivity|].
  rewrite queue_prompt_unfold, Hc. simpl. eauto.
Qed.

(** C9.  Whatever the arguments and whatever the state and the outside
    world, a call of [generate_image] posts at most one payload, and a
    payload it posts has the sampler seed -1: the path
    ["3"]["inputs"]["seed"] of the posted workflow reads -1.  A call
    that answers with the image or with the time-out text, the two
    answers that follow a submission, has posted exactly one.
    [generate_image] has no seed parameter. *)
Theorem submitted_seed_is_sentinel (prompt negative_prompt : string)
    (width height steps : Z) (cfg_scale : Q) (w : World) :
  exists new,
    posted (trace (snd (generate_image prompt negative_prompt width height
                          steps cfg_scale w)))
      = posted (trace w) ++ new /\
    Forall (fun p => payload_seed p = Some (VInt (-1))) new /\
    (length new <= 1)%nat /\
    (polled_answer prompt
       (fst (generate_image prompt negative_prompt width height steps
               cfg_scale w)) ->
     length new = 1%nat).
Proof.
  rewrite generate_image_unfold.
  assert (Hnone : forall (text : string) w',
    posted (trace w') = posted (trace w) ->
    ~ polled_answer prompt (Ok text) ->
    exists new,
      posted (trace (snd (Ok text, w'))) = posted (trace w) ++ new /\
      Forall (fun p => payload_seed p = Some (VInt (-1))) new /\
      (length new <= 1)%nat /\
      (polled_answer prompt (fst (Ok text, w')) -> length new = 1%nat)).
  { intros text w' Hp Hno. exists []. rewrite app_nil_r. simpl.
    split; [exact Hp|]. split; [constructor|]. split; [lia|].
    intros H. contradiction. }
  destruct (registered w).
  2: { apply Hnone; [reflexivity|].
       intros [H|(url & filename & H)]; revert H;
         unfold msg_not_available, msg_timed_out, msg_generated; simpl; discriminate. }
  destruct (ensure_started_cases w) as (b & w1 & Hens & Hout1 & _).
  rewrite Hens.
  assert (Hp1 : posted (trace w1) = posted (trace w)) by apply Hout1.
  destruct b.
  2: { apply Hnone; [exact Hp1|].
       intros [H|(url & filename & H)]; revert H;
         unfold msg_start_failed, msg_timed_out, msg_generated; simpl; discriminate. }
  destruct (queue_workflow_cases prompt negative_prompt width height steps cfg_scale w1)
    as [(e & w2 & Hheap & Hq)|(workflow & w2 & Hheap & Hseed & Hq)].
  { rewrite Hq. apply heap_only_trace in Hheap as (Ht & _).
    apply Hnone; [|apply failed_is_not_polled].
    simpl. rewrite posted_app, app_nil_r, Ht. exact Hp1. }
  rewrite Hq.
  pose proof (after_queue_result prompt workflow
                (emit (EvLog Info "queueing_image_generation") w2)) as Hres.
  cbv zeta in Hres.
  apply heap_only_trace in Hheap as (Ht & _).
  assert (Hpq : posted (trace (emit (EvLog Info "queueing_image_generation") w2))
                = posted (trace w)).
  { simpl. rewrite posted_app, app_nil_r, Ht. exact Hp1. }
  destruct (client (self (emit (EvLog Info "queueing_image_generation") w2))) as [c|].
  - eexists. split; [rewrite Hres, Hpq; reflexivity|].
    split; [repeat constructor; exact Hseed|]. simpl. split; [lia|reflexivity].
  - destruct Hres as [Hp (e & He)].
    match goal with |- context [queue_prompt ?wf ?wq] =>
      destruct (match queue_prompt wf wq with
                | (Ok prompt_id, w3) => caught (await_result prompt prompt_id w3)
                | (Raise e, w3) => caught (Raise e, w3)
                | (Diverge, w3) => (Diverge, w3)
                end) as [r w'] end.
    simpl in He, Hp. subst r.
    apply Hnone; [rewrite Hp; exact Hpq|apply failed_is_not_polled].
Qed.

Lemma submitted_seed_is_sentinel_witness :
  exists p,
    posted (trace (snd (generate_image "a cat" "blurry" 640 480 30 (7 # 2)
                          ready_world)))
      = posted (trace ready_world) ++ [p] /\
    payload_seed p = Some (VInt (-1)).
Proof.
  destruct (submitted_seed_is_sentinel "a cat" "blurry" 640 480 30 (7 # 2) ready_world)
    as (new & Hp & Hseed & _ & Hone).
  assert (Hlen : length new = 1%nat).
  { apply Hone. right.
    exists "http://127.0.0.1:8188/view?filename=felix_gen_001.png&type=output",
      "felix_gen_001.png".
    vm_compute. reflexivity. }
  destruct new as [|p [|q new]]; try discriminate.
  exists p. split; [exact Hp|].
  apply Forall_cons in Hseed as [H _]. exact H.
Defined.

(** A payload is posted indeed, and its seed is -1 whatever was asked. *)
Example submitted_seed_example :
  map payload_seed
    (posted (trace (snd (generate_image "a cat" "blurry" 640 480 30 (7 # 2)
                           ready_world))))
  = [Some (VInt (-1))].
Proof. vm_compute. reflexivity. Qed.

(** *** The shared template *)

Lemma check_node_sound h l node nl il :
  check_node h l node nl il = true -> has_node h l node nl il.
Proof.
  unfold check_node, has_node.
  destruct (h !! l) as [top|]; simpl; [|discriminate].
  destruct (top !! node) as [[| | | |nl']|] eqn:Hnode; try discriminate.
  destruct (h !! nl) as [nd|]; simpl; [|discriminate].
  destruct (nd !! "inputs") as [[| | | |il']|] eqn:Hin; try discriminate.
  destruct (h !! il) as [inputs|]; [|discriminate].
  intros H. apply andb_true_iff in H as [H1 H2].
  apply Nat.eqb_eq in H1, H2. subst nl' il'.
  exists top, nd. repeat split; eauto.
Qed.

Lemma module_heap_shape : template_shape module_heap.
Proof.
  unfold template_shape, workflow_shape.
  repeat split; apply check_node_sound; vm_compute; reflexivity.
Qed.

(** After the workflow is queued nothing writes to the heap. *)
Lemma after_queue_heap prompt workflow wq :
  heap (snd (match queue_prompt workflow wq with
             | (Ok prompt_id, w3) => caught (await_result prompt prompt_id w3)
             | (Raise e, w3) => caught (Raise e, w3)
             | (Diverge, w3) => (Diverge, w3)
             end)) = heap wq.
Proof.
  pose proof (queue_prompt_posted workflow wq) as (_ & Hh & _ & _).
  destruct (queue_prompt workflow wq) as [[prompt_id|e|] w3]; simpl in Hh; auto.
  destruct (await_result_frame prompt prompt_id w3) as (r4 & w4 & Hawait & _ & _ & Hout4).
  rewrite Hawait. destruct (caught_frame (r4, w4)) as (Hch & _).
  rewrite Hch. simpl. rewrite <- Hh. apply Hout4.
Qed.

(** What a call that gets past the service checks leaves in the template. *)
Lemma template_after_call (prompt negative_prompt : string)
    (width height steps : Z) (cfg_scale : Q) (w w1 : World) :
  template_shape (heap w) ->
  registered w = true ->
  ensure_started w = (Ok true, w1) ->
  let w' := snd (generate_image prompt negative_prompt width height steps
                   cfg_scale w) in
  template_field w' "6" "text" = Some (VStr prompt) /\
  template_field w' "7" "text" = Some (VStr negative_prompt) /\
  template_field w' "5" "width" = Some (VInt width) /\
  template_field w' "5" "height" = Some (VInt height) /\
  template_field w' "3" "steps" = Some (VInt steps) /\
  template_field w' "3" "cfg" = Some (VFloat cfg_scale) /\
  template_field w' "3" "seed" = Some (VInt (-1)) /\
  template_shape (heap w') /\
  heap w' !! 0 = heap w !! 0.
Proof.
  intros Hshape Hreg Hens. cbv zeta.
  rewrite generate_image_unfold, Hreg, Hens.
  destruct (ensure_started_cases w) as (b & w1' & Hens' & Hout1 & _).
  rewrite Hens in Hens'. inversion Hens'; subst b w1'. clear Hens'.
  assert (Hh1 : heap w1 = heap w) by apply Hout1.
  rewrite <- Hh1 in Hshape.
  destruct (queue_workflow_template prompt negative_prompt width height steps
              cfg_scale w1 Hshape) as (l & w2 & Hq & Ht).
  rewrite Hq.
  pose proof (after_queue_heap prompt (VDict l)
                (emit (EvLog Info "queueing_image_generation") w2)) as Hheap.
  unfold template_field. rewrite Hheap. cbn [emit heap].
  destruct Ht as (_ & S0 & _ & _ & _ & Hzero & Hfs).
  repeat (apply Forall_cons in Hfs as [? Hfs]). simpl in *.
  destruct S0 as (N3 & N5 & N6 & N7).
  unfold DEFAULT_TEXT2IMG_WORKFLOW.
  rewrite !(has_node_field _ _ _ _ _ _ N3), !(has_node_field _ _ _ _ _ _ N5),
    !(has_node_field _ _ _ _ _ _ N6), !(has_node_field _ _ _ _ _ _ N7).
  repeat (split; [assumption|]).
  split; [unfold template_shape, workflow_shape; auto|].
  rewrite Hzero, Hh1. reflexivity.
Qed.

(** The shape of the template is kept by every call, so the theorem
    applies to the next call as well. *)
Lemma template_shape_kept prompt negative_prompt width height steps cfg_scale w :
  template_shape (heap w) ->
  template_shape
    (heap (snd (generate_image prompt negative_prompt width height steps
                  cfg_scale w))).
Proof.
  intros Hshape.
  destruct (ensure_started_cases w) as (b & w1 & Hens & Hout1 & _).
  destruct (registered w) eqn:Hreg; [destruct b|].
  - apply (template_after_call prompt negative_prompt width height steps
             cfg_scale w w1 Hshape Hreg Hens).
  - rewrite generate_image_unfold, Hreg, Hens. simpl.
    replace (heap w1) with (heap w) by (symmetry; apply Hout1). exact Hshape.
  - rewrite generate_image_unfold, Hreg. exact Hshape.
Qed.

(** C10, as the code has it.  When a call gets past the two service
    checks (a service is registered, and it is running or the call
    started it), then after the call, however it ends, the inputs of the
    module-level template hold the arguments of the call, and its seed
    holds -1, in place of the values they had.  The top-level dict of
    the template is as it was: the workflow is a copy of that dict
    alone, and the node dicts are shared with it. *)
Theorem template_holds_arguments (prompt negative_prompt : string)
    (width height steps : Z) (cfg_scale : Q) (w w1 : World) :
  template_shape (heap w) ->
  registered w = true ->
  ensure_started w = (Ok true, w1) ->
  let w' := snd (generate_image prompt negative_prompt width height steps
                   cfg_scale w) in
  template_field w' "6" "text" = Some (VStr prompt) /\
  template_field w' "7" "text" = Some (VStr negative_prompt) /\
  template_field w' "5" "width" = Some (VInt width) /\
  template_field w' "5" "height" = Some (VInt height) /\
  template_field w' "3" "steps" = Some (VInt steps) /\
  template_field w' "3" "cfg" = Some (VFloat cfg_scale) /\
  template_field w' "3" "seed" = Some (VInt (-1)) /\
  template_shape (heap w') /\
  heap w' !! 0 = heap w !! 0.
Proof.
  intros Hshape Hreg Hens.
  exact (template_after_call prompt negative_prompt width height steps
           cfg_scale w w1 Hshape Hreg Hens).
Qed.

Lemma template_holds_arguments_witness :
  let w' := snd (generate_image "a cat" "blurry" 640 480 30 (7 # 2) ready_world) in
  template_field w' "6" "text" = Some (VStr "a cat") /\
  template_field w' "7" "text" = Some (VStr "blurry") /\
  template_field w' "5" "width" = Some (VInt 640) /\
  template_field w' "5" "height" = Some (VInt 480) /\
  template_field w' "3" "steps" = Some (VInt 30) /\
  template_field w' "3" "cfg" = Some (VFloat (7 # 2)) /\
  template_field w' "3" "seed" = Some (VInt (-1)) /\
  template_shape (heap w') /\
  heap w' !! 0 = heap ready_world !! 0.
Proof.
  apply (template_holds_arguments "a cat" "blurry" 640 480 30 (7 # 2)
           ready_world (snd (ensure_started ready_world))).
  - exact module_heap_shape.
  - vm_compute. reflexivity.
  - vm_compute. reflexivity.
Defined.

(** C10, as stated, fails: with no service registered the call returns
    before it builds the workflow, and the prompt text of the template
    is still the empty string of the module, not the argument. *)
Lemma template_untouched_without_service :
  let w := world_of example_env false no_service 0 in
  let w' := snd (generate_image "a cat" "blurry" 640 480 30 (7 # 2) w) in
  fst (generate_image "a cat" "blurry" 640 480 30 (7 # 2) w) = Ok msg_not_available /\
  template_field w' "6" "text" = Some (VStr "") /\
  template_field w' "6" "text" <> Some (VStr "a cat").
Proof.
  cbv zeta. split; [vm_compute; reflexivity|].
  assert (H : template_field
                (snd (generate_image "a cat" "blurry" 640 480 30 (7 # 2)
                        (world_of example_env false no_service 0))) "6" "text"
              = Some (VStr "")) by (vm_compute; reflexivity).
  split; [exact H|]. rewrite H. discriminate.
Qed.

(** *** The job poller *)

Lemma first_image_primary prompt_id history img_info :
  first_image prompt_id history = Some img_info <->
  primary_slot_artifact prompt_id history img_info.
Proof.
  unfold first_image, primary_slot_artifact. split.
  - destruct prompt_id as [id|]; simpl; [|discriminate].
    destruct (history !! id) as [result|] eqn:Hr; [|discriminate].
    destruct (rec_outputs result) as [outputs|] eqn:Ho; [|discriminate].
    destruct (outputs !! "9") as [node|] eqn:Hn; [|discriminate].
    destruct (out_images node) as [[|img rest]|] eqn:Hi; simpl; try discriminate.
    intros E; inversion E; subst img.
    exists id, result, outputs, node, rest. auto.
  - intros (id & result & outputs & node & rest & -> & Hr & Ho & Hn & Hi).
    simpl. rewrite Hr, Ho, Hn, Hi. reflexivity.
Qed.

Lemma run_polls_sound k : forall prompt_id max_wait waited w w',
  run_polls k prompt_id max_wait waited w = Some w' ->
  polls prompt_id max_wait waited w k w'.
Proof.
  induction k as [|k IH]; intros prompt_id max_wait waited w w' Hrun; simpl in Hrun.
  - inversion Hrun; subst. constructor.
  - destruct (waited <? max_wait)%Z eqn:Hlt; [|discriminate].
    destruct (get_history prompt_id (effect (EvSleep 2) 2000 w))
      as [[history| |] w1] eqn:Hget; try discriminate.
    destruct (first_image prompt_id history) eqn:Himg; [discriminate|].
    eapply polls_again; eauto. apply Z.ltb_lt. exact Hlt.
Qed.

(** After [k] empty polls, the next round of [await_result]. *)
Lemma await_result_after prompt prompt_id w k wk :
  polls prompt_id 120 0 w k wk -> (k < 60)%nat ->
  await_result prompt prompt_id w =
  match get_history prompt_id (effect (EvSleep 2) 2000 wk) with
  | (Ok history, w1) =>
      match first_image prompt_id history with
      | Some img_info =>
          (Ok (msg_generated prompt (image_url (base_url_of (self w1)) img_info)
                 (img_filename img_info)),
           emit (EvLog Info "image_generated") w1)
      | None =>
          poll_loop (120 - k) prompt prompt_id (2 * Z.of_nat k + 2) 120 w1
      end
  | (Raise e, w1) => (Raise e, w1)
  | (Diverge, w1) => (Diverge, w1)
  end.
Proof.
  intros Hpolls Hk. unfold await_result.
  change (Z.to_nat 120) with 120%nat.
  replace (S 120) with (k + S (120 - k))%nat by lia.
  rewrite (poll_loop_polls _ _ _ _ _ _ _ Hpolls), poll_loop_unfold.
  replace (0 + 2 * Z.of_nat k <? 120)%Z with true by (symmetry; apply Z.ltb_lt; lia).
  replace (0 + 2 * Z.of_nat k + 2)%Z with (2 * Z.of_nat k + 2)%Z by lia.
  reflexivity.
Qed.

(** C3, as the code has it.  A call got past the service checks and
    queued its workflow; [k] polls, fewer than 60, were answered
    without an image in node "9" of the record of the job; the next
    poll shows the record with [img_info] as the first image of node
    "9".  Then the job is complete: the call returns the success text
    for that image, and this poll is the last thing it does but for the
    log line: in all, [k + 1] history requests. *)
Theorem job_completion (prompt negative_prompt : string)
    (width height steps : Z) (cfg_scale : Q) (w w1 w2 wk w3 : World)
    (prompt_id : option string) (k : nat)
    (history : gmap string job_record) (img_info : image_info) :
  registered w = true ->
  ensure_started w = (Ok true, w1) ->
  queue_workflow prompt negative_prompt width height steps cfg_scale w1
    = (Ok prompt_id, w2) ->
  polls prompt_id 120 0 w2 k wk ->
  (k < 60)%nat ->
  get_history prompt_id (effect (EvSleep 2) 2000 wk) = (Ok history, w3) ->
  primary_slot_artifact prompt_id history img_info ->
  generate_image prompt negative_prompt width height steps cfg_scale w =
    (Ok (msg_generated prompt (image_url (base_url_of (self w3)) img_info)
           (img_filename img_info)),
     emit (EvLog Info "image_generated") w3) /\
  history_requests (trace (emit (EvLog Info "image_generated") w3)) =
    (history_requests (trace w2) + k + 1)%nat.
Proof.
  intros Hreg Hens Hq Hpolls Hk Hget Himg.
  apply first_image_primary in Himg.
  split.
  - rewrite generate_image_unfold, Hreg, Hens, Hq.
    rewrite (await_result_after _ _ _ _ _ Hpolls Hk), Hget, Himg. reflexivity.
  - apply polls_frame in Hpolls as (_ & _ & Hn & _).
    destruct (get_history_frame prompt_id (effect (EvSleep 2) 2000 wk))
      as (r & w3' & Hget' & _ & _ & _ & Hw3).
    rewrite Hget in Hget'. inversion Hget'; subst r w3'. clear Hget'.
    destruct (client (self (effect (EvSleep 2) 2000 wk))) as [c|];
      [|destruct Hw3 as [_ [e He]]; discriminate].
    subst w3. unfold history_requests in *. simpl.
    rewrite !omap_app, !length_app. simpl.
    unfold history_requests in Hn. rewrite Hn. lia.
Qed.

Lemma job_completion_witness :
  fst (generate_image "a cat" "blurry" 640 480 30 (7 # 2) ready_world) =
    Ok (msg_generated "a cat"
          "http://127.0.0.1:8188/view?filename=felix_gen_001.png&type=output"
          "felix_gen_001.png") /\
  history_requests
    (trace (snd (generate_image "a cat" "blurry" 640 480 30 (7 # 2) ready_world)))
  = 4%nat.
Proof.
  pose (w1 := snd (ensure_started ready_world)).
  pose (w2 := snd (queue_workflow "a cat" "blurry" 640 480 30 (7 # 2) w1)).
  pose (wk := default w2 (run_polls 3 (Some "job-42") 120 0 w2)).
  pose (w3 := snd (get_history (Some "job-42") (effect (EvSleep 2) 2000 wk))).
  destruct (job_completion "a cat" "blurry" 640 480 30 (7 # 2)
              ready_world w1 w2 wk w3 (Some "job-42") 3 history_done
              (ImageInfo "felix_gen_001.png" None)) as [Hrun Hcount].
  - vm_compute. reflexivity.
  - vm_compute. reflexivity.
  - vm_compute. reflexivity.
  - apply run_polls_sound. vm_compute. reflexivity.
  - lia.
  - vm_compute. reflexivity.
  - exists "job-42", (JobRecord (Some {[ "9" := NodeOutput
             (Some [ImageInfo "felix_gen_001.png" None]) ]})),
      {[ "9" := NodeOutput (Some [ImageInfo "felix_gen_001.png" None]) ]},
      (NodeOutput (Some [ImageInfo "felix_gen_001.png" None])), [].
    repeat split; vm_compute; reflexivity.
  - rewrite Hrun. split; [vm_compute; reflexivity|].
    cbn [snd]. rewrite Hcount. vm_compute. reflexivity.
Defined.

(** C3, as stated, fails.  In this run every history answer reports an
    output slot holding an artifact, slot "10"; the job is not taken for
    complete: the call sends all 60 history requests and times out. *)
Lemma completion_ignores_other_slots :
  let run := generate_image "a cat" "blurry" 640 480 30 (7 # 2)
               (started other_slot_env) in
  (forall n, get_hist other_slot_env n = Reply 200 (Some history_other_slot)) /\
  any_slot_has_artifact "job-42" history_other_slot /\
  fst run = Ok msg_timed_out /\
  history_requests (trace (snd run)) = 60%nat.
Proof.
  cbv zeta. split; [reflexivity|]. split.
  - exists (JobRecord (Some {[ "10" := NodeOutput
             (Some [ImageInfo "felix_gen_001.png" None]) ]})),
      {[ "10" := NodeOutput (Some [ImageInfo "felix_gen_001.png" None]) ]},
      "10", (NodeOutput (Some [ImageInfo "felix_gen_001.png" None])),
      (ImageInfo "felix_gen_001.png" None), [].
    repeat split; vm_compute; reflexivity.
  - split; vm_compute; reflexivity.
Qed.

(** *** Timeout and failure *)

Lemma timed_out_is_not_failed e : msg_timed_out <> msg_failed e.
Proof. unfold msg_timed_out, msg_failed. simpl. discriminate. Qed.

(** C4. A call got past the service checks and queued its workflow.
    If 60 polls, each after a sleep of two time units, were answered
    without an image in node "9", the budget of 120 is used up and the
    call returns the timeout text, which says that the image may still
    be processing and is not a failure text; at least 120 time units
    have passed.  If after [k] such polls, fewer than 60, the history
    request raises (a transport error, a status outside 2xx, a body
    that is not JSON), the call returns the failure text of that
    exception at once: nothing follows the request but the error log,
    so the request is not retried. *)
Theorem timeout_is_not_failure (prompt negative_prompt : string)
    (width height steps : Z) (cfg_scale : Q) (w w1 w2 : World)
    (prompt_id : option string) :
  registered w = true ->
  ensure_started w = (Ok true, w1) ->
  queue_workflow prompt negative_prompt width height steps cfg_scale w1
    = (Ok prompt_id, w2) ->
  (forall wk,
     polls prompt_id 120 0 w2 60 wk ->
     generate_image prompt negative_prompt width height steps cfg_scale w
       = (Ok msg_timed_out, wk) /\
     (now w2 + 120 * 1000 <= now wk)%Z /\
     history_requests (trace wk) = (history_requests (trace w2) + 60)%nat) /\
  (forall k wk e w3,
     polls prompt_id 120 0 w2 k wk ->
     (k < 60)%nat ->
     get_history prompt_id (effect (EvSleep 2) 2000 wk) = (Raise e, w3) ->
     generate_image prompt negative_prompt width height steps cfg_scale w
       = (Ok (msg_failed e), emit (EvLog Error "image_generation_error") w3) /\
     (history_requests (trace w3) <= history_requests (trace w2) + k + 1)%nat) /\
  (forall e, msg_timed_out <> msg_failed e).
Proof.
  intros Hreg Hens Hq. split; [|split; [|exact timed_out_is_not_failed]].
  - intros wk Hpolls.
    pose proof (polls_frame _ _ _ _ _ _ Hpolls) as (_ & _ & Hn & Ht).
    split; [|split; [lia|exact Hn]].
    rewrite generate_image_unfold, Hreg, Hens, Hq. unfold await_result.
    change (Z.to_nat 120) with 120%nat.
    change (S 120) with (60 + 61)%nat.
    rewrite (poll_loop_polls _ _ _ _ _ _ _ Hpolls), poll_loop_unfold.
    reflexivity.
  - intros k wk e w3 Hpolls Hk Hget.
    split.
    + rewrite generate_image_unfold, Hreg, Hens, Hq.
      rewrite (await_result_after _ _ _ _ _ Hpolls Hk), Hget. reflexivity.
    + apply polls_frame in Hpolls as (_ & _ & Hn & _).
      destruct (get_history_frame prompt_id (effect (EvSleep 2) 2000 wk))
        as (r & w3' & Hget' & _ & _ & _ & Hw3).
      rewrite Hget in Hget'. inversion Hget'; subst r w3'. clear Hget'.
      destruct (client (self (effect (EvSleep 2) 2000 wk))) as [c|].
      * subst w3. unfold history_requests in *. simpl.
        rewrite !omap_app, !length_app. simpl. lia.
      * destruct Hw3 as [-> _]. unfold history_requests in *. simpl.
        rewrite !omap_app, !length_app. simpl. lia.
Qed.

Lemma timeout_is_not_failure_witness :
  fst (generate_image "a cat" "blurry" 640 480 30 (7 # 2) (started never_done_env))
    = Ok msg_timed_out /\
  fst (generate_image "a cat" "blurry" 640 480 30 (7 # 2) (started broken_env))
    = Ok (msg_failed (Exn RequestError "connection reset")).
Proof.
  split.
  - pose (w := started never_done_env).
    pose (w1 := snd (ensure_started w)).
    pose (w2 := snd (queue_workflow "a cat" "blurry" 640 480 30 (7 # 2) w1)).
    pose (wk := default w2 (run_polls 60 (Some "job-42") 120 0 w2)).
    destruct (timeout_is_not_failure "a cat" "blurry" 640 480 30 (7 # 2)
                w w1 w2 (Some "job-42")) as (Htimeout & _ & _);
      [vm_compute; reflexivity..|].
    destruct (Htimeout wk) as (Hrun & _).
    + apply run_polls_sound. vm_compute. reflexivity.
    + fold w. rewrite Hrun. reflexivity.
  - pose (w := started broken_env).
    pose (w1 := snd (ensure_started w)).
    pose (w2 := snd (queue_workflow "a cat" "blurry" 640 480 30 (7 # 2) w1)).
    pose (wk := default w2 (run_polls 2 (Some "job-42") 120 0 w2)).
    destruct (timeout_is_not_failure "a cat" "blurry" 640 480 30 (7 # 2)
                w w1 w2 (Some "job-42")) as (_ & Hfailure & _);
      [vm_compute; reflexivity..|].
    destruct (Hfailure 2%nat wk (Exn RequestError "connection reset")
                (snd (get_history (Some "job-42") (effect (EvSleep 2) 2000 wk))))
      as (Hrun & _).
    + apply run_polls_sound. vm_compute. reflexivity.
    + lia.
    + vm_compute. reflexivity.
    + fold w. rewrite Hrun. reflexivity.
Defined.

(** ** The rest of the two modules *)

(** *** How traces grow *)

Lemma grows_refl P w : grows P w w.
Proof. exists []. rewrite app_nil_r. auto. Qed.

Lemma grows_trans P w1 w2 w3 : grows P w1 w2 -> grows P w2 w3 -> grows P w1 w3.
Proof.
  intros (e1 & H1 & F1) (e2 & H2 & F2). exists (e1 ++ e2).
  rewrite H2, H1, <- app_assoc. split; [reflexivity|].
  rewrite forallb_app, F1, F2. reflexivity.
Qed.

Lemma grows_effect (P : Event -> bool) ev extra w :
  P ev = true -> grows P w (effect ev extra w).
Proof. intros H. exists [ev]. simpl. rewrite H. auto. Qed.

Lemma grows_emit (P : Event -> bool) ev w : P ev = true -> grows P w (emit ev w).
Proof. intros H. exists [ev]. simpl. rewrite H. auto. Qed.

Lemma grows_set_self P f w : grows P w (set_self f w).
Proof. exists []. simpl. rewrite app_nil_r. auto. Qed.

Lemma grows_weaken (P Q : Event -> bool) w w' :
  (forall ev, P ev = true -> Q ev = true) -> grows P w w' -> grows Q w w'.
Proof.
  intros HPQ (evs & Ht & HP). exists evs. split; [exact Ht|].
  rewrite forallb_forall in *. auto.
Qed.

(** Peels the effects off the world on the right, as [frames] does. *)
Ltac grow :=
  repeat lazymatch goal with
  | |- grows _ ?w ?w => apply grows_refl
  | H : grows ?P ?w ?w' |- grows ?P ?w ?w' => exact H
  | |- grows _ _ (emit _ _) =>
      eapply grows_trans; [|apply grows_emit; reflexivity]
  | |- grows _ _ (effect _ _ _) =>
      eapply grows_trans; [|apply grows_effect; reflexivity]
  | |- grows _ _ (set_self _ _) =>
      eapply grows_trans; [|apply grows_set_self]
  | H : grows ?P _ ?w' |- grows ?P _ ?w' =>
      eapply grows_trans; [|exact H]
  end.

Lemma quiet_counts w w' :
  grows quiet w w' ->
  spawns (trace w') = spawns (trace w) /\
  client_requests (trace w') = client_requests (trace w) /\
  history_requests (trace w') = history_requests (trace w) /\
  posted (trace w') = posted (trace w).
Proof.
  intros (evs & -> & Hq). unfold spawns, client_requests, history_requests, posted.
  rewrite !List.filter_app, !omap_app, !length_app.
  induction evs as [|ev evs IH]; simpl in *.
  - rewrite !app_nil_r. repeat split; lia.
  - apply andb_true_iff in Hq as [Hev Hq]. specialize (IH Hq).
    destruct IH as (I1 & I2 & I3 & I4).
    destruct ev; simpl in *; try discriminate; repeat split; auto.
Qed.

Lemma is_running_grows w : grows quiet w (snd (is_running w)).
Proof.
  destruct (is_running_cases w) as (b & w' & Hrun & _ & _ & Hcase).
  rewrite Hrun. simpl.
  destruct (process (self w)) as [pid|]; destruct Hcase as [_ ->]; grow.
Qed.

Lemma stop_grows w : grows quiet w (snd (stop w)).
Proof.
  unfold grows, stop, bind, get, aclose, modify, ret, try_finally, try_except,
    killpg, wait, log.
  destruct (client (self w)) as [c|] eqn:Hc; simpl;
    destruct (process (self w)) as [pid|] eqn:Hp; simpl; rewrite ?Hc, ?Hp.
  all: try (destruct (signal_group (env w) _) as [e1|] eqn:Hs1; simpl).
  all: try (destruct (proc_wait (env w) _) as [e2|] eqn:Hw1; simpl).
  all: try (destruct (is_timeout_expired e2) eqn:Ht; simpl).
  all: try (destruct (signal_group (env w) (S (S _))) as [e3|] eqn:Hs2; simpl).
  all: try (destruct (proc_wait (env w) (S (S (S _)))) as [e4|] eqn:Hw2; simpl).
  all: rewrite ?Hc, ?Hp; simpl.
  all: rewrite <- ?app_assoc; simpl.
  all: try (eexists; split; [reflexivity|reflexivity]).
  all: exists []; rewrite app_nil_r; auto.
Qed.

Lemma rounds_grows start_time timeout w k w' :
  rounds start_time timeout w k w' -> grows quiet w w'.
Proof.
  induction 1 as [w|w w1 k w' Hin Hrun Hnot Hrest IH]; [grow|].
  pose proof (is_running_grows w) as Hg. rewrite Hrun in Hg. simpl in Hg.
  eapply grows_trans; [|exact IH]. grow.
Qed.

Lemma last_round_grows start_time timeout w r w' :
  last_round start_time timeout w (r, w') -> grows quiet w w'.
Proof.
  pose proof (is_running_grows w) as Hg.
  inversion 1 as [Hin|w1 Hin Hrun|w1 body Hin Hrun Hprobe|w1 e Hin Hrun Hprobe He];
    subst; try (rewrite Hrun in Hg; simpl in Hg); grow.
Qed.

Lemma wait_for_ready_grows timeout w :
  grows quiet w (snd (_wait_for_ready timeout w)).
Proof.
  destruct (wait_for_ready_rounds timeout w) as (k & w1 & Hk & Hlast & _).
  destruct (_wait_for_ready timeout w) as [r w'].
  apply rounds_grows in Hk. apply last_round_grows in Hlast.
  simpl. eapply grows_trans; eauto.
Qed.

(** The events of [start]: no client request, and one spawn when the
    process was not running, none when it was. *)
Lemma start_grows w :
  grows (fun ev => negb (is_client_request ev)) w (snd (start w)) /\
  spawns (trace (snd (start w))) =
    (spawns (trace w) + if fst (is_running w) is Ok true then 0 else 1)%nat.
Proof.
  assert (Hweak : forall w1 w2, grows quiet w1 w2 ->
            grows (fun ev => negb (is_client_request ev)) w1 w2).
  { intros w1 w2. apply grows_weaken. intros ev. unfold quiet.
    intros H. apply andb_true_iff in H as [H _]. exact H. }
  rewrite start_unfold.
  pose proof (is_running_grows w) as Hg0.
  destruct (is_running_cases w) as (b0 & w0 & Hrun & _ & _ & _).
  rewrite Hrun in *. simpl in Hg0. simpl fst.
  destruct b0.
  { simpl. split.
    - apply Hweak. grow.
    - assert (Hq : grows quiet w (emit (EvLog Warning "comfy_already_running") w0))
        by grow.
      apply quiet_counts in Hq as (Hs & _). simpl in Hs. rewrite Hs. lia. }
  cbv zeta.
  remember (emit (EvLog Info "starting_comfyui") w0) as w1 eqn:Ew1.
  remember (effect (EvSpawn (host (self w1)) (port (self w1))) 0 w1) as w2 eqn:Ew2.
  assert (H2 : grows (fun ev => negb (is_client_request ev)) w w2).
  { subst w2. eapply grows_trans; [|apply grows_effect; reflexivity].
    apply Hweak. subst w1. grow. }
  assert (S2 : spawns (trace w2) = (spawns (trace w) + 1)%nat).
  { assert (Hq : grows quiet w w1) by (subst w1; grow).
    apply quiet_counts in Hq as (Hs & _).
    subst w2. unfold spawns in *. simpl. rewrite List.filter_app, length_app.
    simpl. rewrite Hs. reflexivity. }
  assert (Hrest : forall wf wz, grows quiet w2 wf -> grows quiet wf wz ->
    grows (fun ev => negb (is_client_request ev)) w wz /\
    spawns (trace wz) = (spawns (trace w) + 1)%nat).
  { intros wf wz Hf Hz.
    assert (Hq : grows quiet w2 wz) by (eapply grows_trans; eauto).
    split; [eapply grows_trans; [exact H2|apply Hweak; exact Hq]|].
    apply quiet_counts in Hq as (Hs & _). rewrite Hs. exact S2. }
  destruct (popen (env w1) (steps w1)) as [e|pid].
  { unfold start_failed. simpl snd.
    apply (Hrest (emit (EvLog Error "comfyui_start_error") w2)); [grow|apply stop_grows]. }
  pose proof (wait_for_ready_grows 30 (set_self (set_process (Some pid)) w2)) as Hw.
  destruct (_wait_for_ready 30 (set_self (set_process (Some pid)) w2))
    as [[[]|e|] w3]; simpl in Hw.
  - simpl snd. apply (Hrest w3); [|grow].
    eapply grows_trans; [|exact Hw]. grow.
  - unfold start_failed. simpl snd.
    apply (Hrest (emit (EvLog Error "comfyui_failed_to_start")
                    (set_self (set_is_ready false) w3))); [|apply stop_grows].
    eapply grows_trans; [eapply grows_trans; [|exact Hw]; grow|]. grow.
  - unfold start_failed. simpl snd.
    apply (Hrest (emit (EvLog Error "comfyui_start_error") w3)); [|apply stop_grows].
    eapply grows_trans; [eapply grows_trans; [|exact Hw]; grow|]. grow.
  - simpl snd. apply (Hrest w3 w3); [|grow].
    eapply grows_trans; [|exact Hw]. grow.
Qed.

(** *** The lifecycle of the object *)

(** The two conditions of a reachable object. *)
Lemma reachable_settled (w : World) :
  reachable w -> Stopped (self w) \/ Serving (self w).
Proof.
  induction 1 as [h p w w' Hinit|w r w' Hw IH Hstart|w r w' Hw IH Hstop|w w' Hw IH Heq].
  - left. rewrite (init_cases _ _ _ _ Hinit). repeat split.
  - destruct (start_cases w) as (b & w1 & Hs & _ & _ & _ & Hcase).
    rewrite Hs in Hstart. inversion Hstart; subst r w1. clear Hstart.
    destruct b.
    + destruct Hcase as [Hp [Heq|[Hc Hr]]].
      * rewrite Heq. exact IH.
      * right. repeat split; assumption.
    + destruct Hcase as (Hp & Hc & [Hr|[HN Hr]]); left.
      * repeat split; assumption.
      * repeat split; try assumption. rewrite Hr.
        destruct IH as [(_ & _ & Hf)|(Hproc & _)]; [exact Hf|contradiction].
  - destruct (stop_cases w) as (w1 & Hs & Hc & _ & _ & _ & Hcase).
    rewrite Hs in Hstop. inversion Hstop; subst r w1. clear Hstop.
    left. destruct (process (self w)) as [pid|] eqn:Hp.
    + destruct Hcase as [Hp' Hr]. repeat split; assumption.
    + destruct Hcase as [Hp' Hr]. repeat split; try assumption. rewrite Hr.
      destruct IH as [(_ & _ & Hf)|(Hproc & _)]; [exact Hf|congruence].
  - rewrite Heq. exact IH.
Qed.




(** *** The client operations *)

Lemma health_check_unfold w :
  health_check w =
  match is_running w with
  | (Ok true, w1) =>
      match client (self w1) with
      | None => (Ok false, w1)
      | Some c =>
          let w2 := effect (EvGet c "/system_stats") 0 w1 in
          match probe_get (env w1) (steps w1) with
          | Reply status _ => (Ok (status =? 200)%Z, w2)
          | TransportFail e => (Ok false, w2)
          end
      end
  | (Ok false, w1) => (Ok false, w1)
  | (Raise e, w1) => (Raise e, w1)
  | (Diverge, w1) => (Diverge, w1)
  end.
Proof.
  unfold health_check. unfold bind at 1.
  destruct (is_running w) as [[[]| |] w1]; try reflexivity.
  cbn [negb]. unfold bind, get, try_except, any_exception, client_get_stats, ret.
  destruct (client (self w1)) as [c|]; [|reflexivity].
  destruct (probe_get (env w1) (steps w1)); reflexivity.
Qed.

Lemma get_queue_status_unfold answers w :
  get_queue_status answers w =
  match client (self w) with
  | None => (Raise (Exn RuntimeError "ComfyUI service not started"), w)
  | Some c =>
      let w1 := effect (EvGet c "/queue") 0 w in
      match answers (steps w) with
      | TransportFail e => (Raise e, w1)
      | Reply status body =>
          if accepted status then
            match body with
            | Some queue_status => (Ok queue_status, w1)
            | None => (Raise (Exn ValueError "Expecting value"), w1)
            end
          else (Raise (Exn HTTPStatusError ("HTTP status " +:+ pretty status)), w1)
      end
  end.
Proof.
  unfold get_queue_status, bind, get, client_get_queue, raise_for_status,
    json, raise, ret.
  destruct (client (self w)) as [c|]; [|reflexivity].
  destruct (answers (steps w)) as [e|status body]; [reflexivity|].
  cbn [fst snd].
  destruct (accepted status); [|reflexivity].
  destruct body; reflexivity.
Qed.

(** X3. [health_check] never raises: it answers a boolean and leaves
    the object as it is.  The answer is True exactly when the process is
    alive, a client exists and GET /system_stats answers 200; a
    transport error or any other status gives False.  Without a process
    or without a client no request is sent. *)
Theorem health_check_answer (w : World) :
  exists b w',
    health_check w = (Ok b, w') /\
    self w' = self w /\
    (b = true <->
     exists w1 c body,
       is_running w = (Ok true, w1) /\ client (self w) = Some c /\
       probe_get (env w1) (steps w1) = Reply 200 body) /\
    (process (self w) = None \/ client (self w) = None ->
     client_requests (trace w') = client_requests (trace w)).
Proof.
  rewrite health_check_unfold.
  pose proof (is_running_grows w) as Hg.
  destruct (is_running_cases w) as (b0 & w1 & Hrun & Hself & _ & Hcase).
  rewrite Hrun in *. simpl in Hg.
  apply quiet_counts in Hg as (_ & Hreq & _).
  destruct b0.
  2: { exists false, w1. split; [reflexivity|]. split; [exact Hself|]. split.
       - split; [discriminate|]. intros (w1' & c & body & E & _). discriminate.
       - intros _. exact Hreq. }
  rewrite Hself.
  destruct (client (self w)) as [c|] eqn:Hc.
  2: { exists false, w1. split; [reflexivity|]. split; [exact Hself|]. split.
       - split; [discriminate|]. intros (w1' & c & body & _ & E & _). discriminate.
       - intros _. exact Hreq. }
  assert (Hproc : process (self w) <> None).
  { destruct (process (self w)); [discriminate|]. destruct Hcase; discriminate. }
  cbv zeta.
  destruct (probe_get (env w1) (steps w1)) as [e|status body] eqn:Hprobe.
  - eexists false, _. split; [reflexivity|]. split; [exact Hself|]. split.
    + split; [discriminate|].
      intros (w1' & c' & body & E & _ & Hp). inversion E; subst w1'. congruence.
    + intros [H|H]; congruence.
  - eexists (status =? 200)%Z, _. split; [reflexivity|]. split; [exact Hself|].
    split.
    + split.
      * intros Hst. apply Z.eqb_eq in Hst. subst status.
        exists w1, c, body. auto.
      * intros (w1' & c' & body' & E & _ & Hp). inversion E; subst w1'.
        rewrite Hprobe in Hp. inversion Hp. reflexivity.
    + intros [H|H]; congruence.
Qed.


(** [stop], summed up. *)
Lemma stop_never_raises_cases w :
  exists w',
    stop w = (Ok tt, w') /\
    process (self w') = None /\ client (self w') = None /\
    (reachable w -> Stopped (self w')).
Proof.
  destruct (stop_cases w) as (w' & Hstop & Hc & _ & _ & _ & Hcase).
  assert (Hp : process (self w') = None)
    by (destruct (process (self w)); destruct Hcase as [Hp _]; exact Hp).
  exists w'. split; [exact Hstop|]. split; [exact Hp|]. split; [exact Hc|].
  intros Hreach. apply reachable_consistent in Hreach as [_ Hready].
  split; [exact Hp|]. split; [exact Hc|].
  destruct (process (self w)) as [pid|] eqn:Hpw.
  - destruct Hcase as [_ ->]. reflexivity.
  - destruct Hcase as [_ ->].
    destruct (_is_ready (self w)); [exfalso; apply Hready; auto|reflexivity].
Qed.

(** *** The module-level singleton *)

Lemma initialize_unfold auto_start w :
  initialize_comfy_service auto_start w =
  if dir_exists (env w) then
    let w1 := set_registered true
                (emit (EvLog Info "comfy_service_initialized")
                   (set_self (fun _ => default_service) w)) in
    if auto_start then
      match start w1 with
      | (Ok true, w2) => (Ok true, w2)
      | (Ok false, w2) =>
          (Ok false,
           set_registered false (emit (EvLog Warning "comfyui_autostart_failed") w2))
      | (Raise e, w2) =>
          (Ok false,
           emit (if is_file_not_found e then EvLog Warning "comfyui_not_found"
                 else EvLog Error "comfyui_init_error") w2)
      | (Diverge, w2) => (Diverge, w2)
      end
    else (Ok true, w1)
  else
    (Ok false,
     emit (EvLog Warning "comfyui_not_found")
       (set_self (fun _ => self w) (set_self (fun _ => default_service) w))).
Proof.
  unfold initialize_comfy_service, construct_default, __init__, try_except,
    any_exception, bind, log, modify, get, raise, ret, default_service.
  cbn [env set_self]. destruct (dir_exists (env w)); cbn [negb];
    cbv beta iota zeta; [|reflexivity].
  destruct auto_start; [|reflexivity].
  match goal with |- context [start ?w1] =>
    destruct (start w1) as [[[]|e0|] w2] end; cbn [negb]; cbv beta iota;
    try reflexivity.
  destruct (is_file_not_found _); reflexivity.
Qed.

(** X5. [initialize_comfy_service] never raises.  It returns the service
    only if the installation directory exists; the global is then bound
    to a new object, which holds process, client and flag when it was
    started and nothing when it was not.  It returns None in two cases:
    the directory is missing, and then the global and the object it was
    bound to are as before; or the automatic start failed, and then the
    global is None and nothing is left running. *)
Theorem initialize_comfy_service_answer (auto_start : bool) (w : World) :
  exists b w',
    initialize_comfy_service auto_start w = (Ok b, w') /\
    (b = true ->
     dir_exists (env w) = true /\ registered w' = true /\ reachable w' /\
     if auto_start then Serving (self w') else self w' = default_service) /\
    (b = false ->
     (dir_exists (env w) = false /\ registered w' = registered w /\
      self w' = self w) \/
     (dir_exists (env w) = true /\ auto_start = true /\ registered w' = false /\
      reachable w' /\ Stopped (self w'))).
Proof.
  rewrite initialize_unfold.
  destruct (dir_exists (env w)) eqn:Hdir.
  2: { eexists false, _. split; [reflexivity|]. split; [discriminate|].
       intros _. left. auto. }
  cbv zeta.
  set (w1 := set_registered true
               (emit (EvLog Info "comfy_service_initialized")
                  (set_self (fun _ => default_service) w))).
  assert (Hr1 : reachable w1).
  { apply (reach_frame (emit (EvLog Info "comfy_service_initialized")
                          (set_self (fun _ => default_service) w))); [|reflexivity].
    apply (reach_init "127.0.0.1" 8188 w).
    unfold __init__, bind, modify, get, log. cbn [env set_self]. rewrite Hdir.
    reflexivity. }
  destruct auto_start.
  2: { exists true, w1. split; [reflexivity|]. split; [|discriminate].
       intros _. auto. }
  destruct (start_cases w1) as (b & w2 & Hstart & _ & _ & _ & Hcase).
  assert (Hr2 : reachable w2) by (eapply reach_start; eauto).
  rewrite Hstart. destruct b.
  - exists true, w2. split; [reflexivity|]. split; [|discriminate].
    intros _. split; [reflexivity|].
    destruct (start_cases w1) as (b' & w2' & Hstart' & (_ & Hreg & _) & _).
    rewrite Hstart in Hstart'. inversion Hstart'; subst b' w2'.
    split; [exact Hreg|]. split; [exact Hr2|].
    destruct Hcase as [Hp [Heq|[Hc Hr]]].
    + exfalso. apply Hp. rewrite Heq. reflexivity.
    + repeat split; assumption.
  - eexists false, _. split; [reflexivity|]. split; [discriminate|].
    intros _. right. split; [reflexivity|]. split; [reflexivity|].
    split; [reflexivity|].
    split; [eapply reach_frame; [exact Hr2|reflexivity]|].
    destruct Hcase as (Hp & Hc & [Hr|[_ Hr]]); repeat split; auto.
Qed.

(** With the installation directory in place and a healthy service, the
    service is returned and holds process, client and flag. *)
Example initialize_example :
  let run := initialize_comfy_service true (world_of example_env false no_service 0) in
  fst run = Ok true /\
  registered (snd run) = true /\
  self (snd run) = {| host := "127.0.0.1"; port := 8188; process := Some 4711%nat;
                      client := Some 9%nat; _is_ready := true |}.
Proof. vm_compute. repeat split. Qed.

(** *** What the functions of [Closing] do, whatever the close does *)

Lemma closing_stop_grows close_client w :
  grows quiet w (snd (Closing.stop close_client w)).
Proof.
  pose proof (closing_stop_cases close_client w) as Hc.
  destruct (client (self w)) as [c|];
    [destruct (close_client (steps w)) as [e|]|];
    rewrite Hc; try apply stop_grows.
  simpl. grow.
Qed.

(** The [except] handler of [start], entered in world [wf] of a call
    made in world [w]. *)
Lemma closing_failed_cases close_client name w wf :
  same_outside w wf ->
  host (self wf) = host (self w) -> port (self wf) = port (self w) ->
  client (self wf) = client (self w) ->
  (process (self wf) <> None \/ (process (self w) = None /\ self wf = self w)) ->
  exists r w',
    closing_failed close_client name wf = (r, w') /\
    grows quiet wf w' /\
    match r with
    | Ok b => b = false /\ start_result w false w'
    | Raise e =>
        same_outside w w' /\ client (self w) <> None /\
        client (self w') = client (self w) /\
        exists n, close_client n = Some e
    | Diverge => False
    end.
Proof.
  intros Hout Hh Hp Hc Hpr. unfold closing_failed.
  pose proof (closing_stop_grows close_client (emit (EvLog Error name) wf)) as Hg.
  assert (Hg' : grows quiet wf
                  (snd (Closing.stop close_client (emit (EvLog Error name) wf)))).
  { eapply grows_trans; [|exact Hg]. grow. }
  clear Hg.
  pose proof (closing_stop_cases close_client (emit (EvLog Error name) wf)) as Hcs.
  cbn [emit self steps] in Hcs.
  assert (Hok : Closing.stop close_client (emit (EvLog Error name) wf)
                = stop (emit (EvLog Error name) wf) ->
    exists r w',
      match Closing.stop close_client (emit (EvLog Error name) wf) with
      | (Ok _, w') => (Ok false, w')
      | (Raise e, w') => (Raise e, w')
      | (Diverge, w') => (Diverge, w')
      end = (r, w') /\
      grows quiet wf w' /\
      match r with
      | Ok b => b = false /\ start_result w false w'
      | Raise e =>
          same_outside w w' /\ client (self w) <> None /\
          client (self w') = client (self w) /\
          exists n, close_client n = Some e
      | Diverge => False
      end).
  { intros E. rewrite E in *.
    destruct (start_failed_result name w wf Hout Hh Hp Hpr) as (w' & Hf & Hres).
    unfold start_failed in Hf.
    destruct (stop_cases (emit (EvLog Error name) wf)) as (w'' & Hs & _).
    rewrite Hs in *. simpl in Hf, Hg'. inversion Hf; subst w''.
    exists (Ok false), w'. auto. }
  destruct (client (self wf)) as [c|] eqn:Hcl; [|exact (Hok Hcs)].
  destruct (close_client (steps wf)) as [e|] eqn:Hcc; [|exact (Hok Hcs)].
  rewrite Hcs in *. simpl in Hg'.
  eexists _, _. split; [reflexivity|]. split; [exact Hg'|].
  split; [frames|]. split; [congruence|]. split; [simpl; congruence|eauto].
Qed.

(** Every path through [Closing.start]: it returns as [start] does, or
    it raises what closing the client it held raised. *)
Lemma closing_start_cases close_client w :
  exists r w',
    Closing.start close_client w = (r, w') /\
    grows (fun ev => negb (is_client_request ev)) w w' /\
    spawns (trace w') =
      (spawns (trace w) + if fst (is_running w) is Ok true then 0 else 1)%nat /\
    match r with
    | Ok b => start_result w b w'
    | Raise e =>
        same_outside w w' /\ client (self w) <> None /\
        client (self w') = client (self w) /\
        exists n, close_client n = Some e
    | Diverge => False
    end.
Proof.
  assert (Hweak : forall w1 w2, grows quiet w1 w2 ->
            grows (fun ev => negb (is_client_request ev)) w1 w2).
  { intros w1 w2. apply grows_weaken. intros ev. unfold quiet.
    intros H. apply andb_true_iff in H as [H _]. exact H. }
  rewrite closing_start_unfold.
  pose proof (is_running_grows w) as Hg0.
  destruct (is_running_cases w) as (b0 & w0 & Hrun & Hself0 & Hout0 & Hproc).
  rewrite Hrun in *. simpl in Hg0. simpl fst.
  destruct b0.
  { eexists _, _. split; [reflexivity|]. split; [apply Hweak; grow|].
    split.
    - assert (Hq : grows quiet w (emit (EvLog Warning "comfy_already_running") w0))
        by grow.
      apply quiet_counts in Hq as (Hs & _). rewrite Hs. lia.
    - split; [frames|]. simpl. rewrite Hself0. repeat split; auto.
      destruct (process (self w)); [discriminate|]. destruct Hproc; discriminate. }
  cbv zeta.
  remember (emit (EvLog Info "starting_comfyui") w0) as w1 eqn:Ew1.
  remember (effect (EvSpawn (host (self w1)) (port (self w1))) 0 w1) as w2 eqn:Ew2.
  assert (Hself2 : self w2 = self w) by (subst w2 w1; simpl; exact Hself0).
  assert (Hout2 : same_outside w w2) by (subst w2 w1; frames).
  assert (H2 : grows (fun ev => negb (is_client_request ev)) w w2).
  { subst w2. eapply grows_trans; [|apply grows_effect; reflexivity].
    apply Hweak. subst w1. grow. }
  assert (S2 : spawns (trace w2) = (spawns (trace w) + 1)%nat).
  { assert (Hq : grows quiet w w1) by (subst w1; grow).
    apply quiet_counts in Hq as (Hs & _).
    subst w2. unfold spawns in *. simpl. rewrite List.filter_app, length_app.
    simpl. rewrite Hs. reflexivity. }
  assert (Hrest : forall wz, grows quiet w2 wz ->
    grows (fun ev => negb (is_client_request ev)) w wz /\
    spawns (trace wz) = (spawns (trace w) + 1)%nat).
  { intros wz Hq.
    split; [eapply grows_trans; [exact H2|apply Hweak; exact Hq]|].
    apply quiet_counts in Hq as (Hs & _). rewrite Hs. exact S2. }
  assert (Hfail : forall name wf,
    grows quiet w2 wf -> same_outside w wf ->
    host (self wf) = host (self w) -> port (self wf) = port (self w) ->
    client (self wf) = client (self w) ->
    (process (self wf) <> None \/ (process (self w) = None /\ self wf = self w)) ->
    exists r w',
      closing_failed close_client name wf = (r, w') /\
      grows (fun ev => negb (is_client_request ev)) w w' /\
      spawns (trace w') = (spawns (trace w) + 1)%nat /\
      match r with
      | Ok b => start_result w b w'
      | Raise e =>
          same_outside w w' /\ client (self w) <> None /\
          client (self w') = client (self w) /\
          exists n, close_client n = Some e
      | Diverge => False
      end).
  { intros name wf Hgf Hout Hh Hp Hc Hpr.
    destruct (closing_failed_cases close_client name w wf Hout Hh Hp Hc Hpr)
      as (r & w' & Hf & Hg & Hres).
    exists r, w'. split; [exact Hf|].
    destruct (Hrest w') as [Hr1 Hr2]; [eapply grows_trans; eauto|].
    split; [exact Hr1|]. split; [exact Hr2|].
    destruct r as [b|e|]; [destruct Hres as [-> Hres]|..]; exact Hres. }
  destruct (popen (env w1) (steps w1)) as [e|pid].
  { apply Hfail; auto; try (rewrite Hself2; reflexivity); [grow|].
    destruct (process (self w)) eqn:Hp.
    - left. rewrite Hself2, Hp. discriminate.
    - right. auto. }
  pose proof (wait_for_ready_grows 30 (set_self (set_process (Some pid)) w2)) as Hw.
  destruct (wait_for_ready_frame 30 (set_self (set_process (Some pid)) w2))
    as (r & w3 & Hwait & Hnd & Hself3 & Hout3).
  rewrite Hwait in *. simpl in Hw. simpl in Hself3. rewrite Hself2 in Hself3.
  assert (Hout3' : same_outside w w3).
  { eapply same_outside_trans; [|exact Hout3]. frames. }
  assert (Hg3 : grows quiet w2 w3).
  { eapply grows_trans; [|exact Hw]. grow. }
  destruct r as [[]|e|]; [| | |congruence].
  - eexists _, _. split; [reflexivity|].
    destruct (Hrest (emit (EvLog Info "comfyui_started")
                 (set_self (set_client (Some (steps (set_self (set_is_ready true) w3))))
                    (effect (EvClientOpen (steps (set_self (set_is_ready true) w3))
                               (base_url_of (self (set_self (set_is_ready true) w3))))
                       0 (set_self (set_is_ready true) w3))))) as [Hr1 Hr2].
    { eapply grows_trans; [exact Hg3|]. grow. }
    split; [exact Hr1|]. split; [exact Hr2|].
    split; [frames|].
    simpl. rewrite Hself3. simpl.
    repeat split; auto; try discriminate.
  - set (wf := emit (EvLog Error "comfyui_failed_to_start")
                 (set_self (set_is_ready false) w3)).
    assert (Hgf : grows quiet w2 wf).
    { eapply grows_trans; [exact Hg3|]. subst wf. grow. }
    assert (Houtf : same_outside w wf) by (subst wf; frames).
    assert (Hselff : self wf = set_is_ready false (set_process (Some pid) (self w)))
      by (subst wf; simpl; rewrite Hself3; reflexivity).
    pose proof (closing_stop_grows close_client wf) as Hgs.
    pose proof (closing_stop_cases close_client wf) as Hcs.
    rewrite Hselff in Hcs. cbn [client set_is_ready set_process] in Hcs.
    assert (Hok : Closing.stop close_client wf = stop wf ->
      exists r w',
        match Closing.stop close_client wf with
        | (Ok _, w4) => (Ok false, w4)
        | (Raise e, w4) => closing_failed close_client "comfyui_start_error" w4
        | (Diverge, w4) => (Diverge, w4)
        end = (r, w') /\
        grows (fun ev => negb (is_client_request ev)) w w' /\
        spawns (trace w') = (spawns (trace w) + 1)%nat /\
        match r with
        | Ok b => start_result w b w'
        | Raise e =>
            same_outside w w' /\ client (self w) <> None /\
            client (self w') = client (self w) /\
            exists n, close_client n = Some e
        | Diverge => False
        end).
    { intros E. rewrite E in *.
      destruct (start_failed_result "comfyui_failed_to_start" w
                  (set_self (set_is_ready false) w3)) as (w' & Hf & Hres).
      - frames.
      - simpl. rewrite Hself3. reflexivity.
      - simpl. rewrite Hself3. reflexivity.
      - left. simpl. rewrite Hself3. simpl. discriminate.
      - unfold start_failed in Hf. fold wf in Hf.
        destruct (stop_cases wf) as (w'' & Hs & _).
        rewrite Hs in *. simpl in Hf, Hgs. inversion Hf; subst w''.
        exists (Ok false), w'. split; [reflexivity|].
        destruct (Hrest w') as [Hr1 Hr2]; [eapply grows_trans; eauto|].
        auto. }
    clearbody wf.
    destruct (client (self w)) as [c|] eqn:Hcl; [|exact (Hok Hcs)].
    destruct (close_client (steps wf)) as [e|] eqn:Hcc; [|exact (Hok Hcs)].
    rewrite Hcs.
    apply Hfail.
    + eapply grows_trans; [exact Hgf|]. grow.
    + frames.
    + simpl. rewrite Hselff. reflexivity.
    + simpl. rewrite Hselff. reflexivity.
    + simpl. rewrite Hselff. simpl. congruence.
    + left. simpl. rewrite Hselff. simpl. discriminate.
  - apply Hfail; auto.
    + rewrite Hself3. reflexivity.
    + rewrite Hself3. reflexivity.
    + rewrite Hself3. reflexivity.
    + left. rewrite Hself3. simpl. discriminate.
Qed.

Lemma closing_ensure_started_cases close_client w :
  exists r w1,
    Closing.ensure_started close_client w = (r, w1) /\
    same_outside w w1 /\
    grows (fun ev => negb (is_client_request ev)) w w1 /\
    (spawns (trace w1) <= spawns (trace w) + 1)%nat /\
    match r with
    | Ok b =>
        (b = false -> process (self w1) = None /\ client (self w1) = None) /\
        (b = true -> process (self w1) <> None)
    | Raise e => client (self w) <> None /\ exists n, close_client n = Some e
    | Diverge => False
    end.
Proof.
  unfold Closing.ensure_started.
  pose proof (is_running_grows w) as Hg0.
  destruct (is_running_cases w) as (b0 & w0 & Hrun & Hself0 & Hout0 & Hproc).
  rewrite Hrun in Hg0. simpl in Hg0.
  rewrite (bind_ok _ _ _ _ _ Hrun).
  apply quiet_counts in Hg0 as Hc0. destruct Hc0 as (Hs0 & _).
  assert (Hn0 : grows (fun ev => negb (is_client_request ev)) w w0).
  { eapply grows_weaken; [|exact Hg0]. intros ev. unfold quiet.
    intros H. apply andb_true_iff in H. apply H. }
  destruct b0.
  - exists (Ok true), w0. unfold ret. split; [reflexivity|].
    split; [exact Hout0|]. split; [exact Hn0|]. split; [lia|].
    split; [discriminate|]. intros _. rewrite Hself0.
    destruct (process (self w)); [discriminate|]. destruct Hproc. discriminate.
  - unfold bind, log, modify.
    set (w0' := emit (EvLog Info "starting_comfyui_for_generation") w0).
    destruct (closing_start_cases close_client w0')
      as (r & w1 & Hstart & Hg1 & Hs1 & Hres).
    rewrite Hstart. exists r, w1. split; [reflexivity|].
    assert (Hout : same_outside w w1).
    { destruct r as [b|e|]; [destruct Hres as [Hres _]|destruct Hres as [Hres _]
                             |contradiction];
        (eapply same_outside_trans; [|exact Hres]); subst w0'; frames. }
    split; [exact Hout|].
    split.
    { eapply grows_trans; [|exact Hg1]. eapply grows_trans; [exact Hn0|].
      apply grows_emit. reflexivity. }
    split.
    { rewrite Hs1. unfold spawns in *. subst w0'. simpl.
      rewrite List.filter_app, length_app. simpl.
      destruct (fst (is_running _)) as [[]| |]; lia. }
    destruct r as [[]|e|]; [| | |contradiction].
    + destruct Hres as (_ & _ & _ & Hp & _).
      split; [discriminate|]. intros _. exact Hp.
    + destruct Hres as (_ & _ & _ & Hp & Hc & _).
      split; [auto|discriminate].
    + destruct Hres as (_ & Hc & _ & Hn). subst w0'. simpl in Hc.
      rewrite Hself0 in Hc. auto.
Qed.

Lemma closing_generate_image_split close_client prompt negative_prompt
    width height steps cfg_scale w :
  Closing.generate_image close_client prompt negative_prompt width height steps
    cfg_scale w =
  if registered w then
    match Closing.ensure_started close_client w with
    | (Ok true, w1) =>
        submit_and_poll prompt negative_prompt width height steps cfg_scale w1
    | (Ok false, w1) => (Ok msg_start_failed, w1)
    | (Raise e, w1) => (Raise e, w1)
    | (Diverge, w1) => (Diverge, w1)
    end
  else (Ok msg_not_available, w).
Proof.
  unfold Closing.generate_image, submit_and_poll. unfold bind at 1.
  unfold get_comfy_service, get at 1.
  destruct (registered w); [|reflexivity]. cbn [negb].
  unfold bind at 1.
  destruct (Closing.ensure_started close_client w) as [[[]| |] w1]; try reflexivity.
  cbn [negb]. unfold try_except, any_exception, caught. unfold bind at 1.
  destruct (queue_workflow prompt negative_prompt width height steps cfg_scale w1)
    as [[prompt_id|e|] w2]; try reflexivity.
  destruct (await_result prompt prompt_id w2) as [[s|e|] w3]; reflexivity.
Qed.

Lemma closing_start_image_service_unfold close_client w :
  Closing.start_image_service close_client w =
  if registered w then
    match is_running w with
    | (Ok true, w1) => (Ok msg_already_running, w1)
    | (Ok false, w1) =>
        match Closing.start close_client
                (emit (EvLog Info "manually_starting_comfyui") w1) with
        | (Ok true, w2) => (Ok (msg_started (base_url_of (self w2))), w2)
        | (Ok false, w2) => (Ok msg_start_service_failed, w2)
        | (Raise e, w2) => (Raise e, w2)
        | (Diverge, w2) => (Diverge, w2)
        end
    | (Raise e, w1) => (Raise e, w1)
    | (Diverge, w1) => (Diverge, w1)
    end
  else (Ok msg_service_unavailable, w).
Proof.
  unfold Closing.start_image_service. unfold bind at 1.
  unfold get_comfy_service, get at 1.
  destruct (registered w); [|reflexivity]. cbn [negb]. unfold bind at 1.
  destruct (is_running w) as [[[]| |] w1]; try reflexivity.
  unfold bind at 1. unfold log at 1, modify at 1. unfold bind at 1.
  destruct (Closing.start close_client
              (emit (EvLog Info "manually_starting_comfyui") w1))
    as [[[]| |] w2]; reflexivity.
Qed.

Lemma closing_stop_image_service_unfold close_client w :
  Closing.stop_image_service close_client w =
  if registered w then
    match is_running w with
    | (Ok true, w1) =>
        match Closing.stop close_client
                (emit (EvLog Info "manually_stopping_comfyui") w1) with
        | (Ok _, w2) => (Ok msg_service_stopped, w2)
        | (Raise e, w2) => (Raise e, w2)
        | (Diverge, w2) => (Diverge, w2)
        end
    | (Ok false, w1) => (Ok msg_already_stopped, w1)
    | (Raise e, w1) => (Raise e, w1)
    | (Diverge, w1) => (Diverge, w1)
    end
  else (Ok msg_service_unavailable, w).
Proof.
  unfold Closing.stop_image_service. unfold bind at 1.
  unfold get_comfy_service, get at 1.
  destruct (registered w); [|reflexivity]. cbn [negb]. unfold bind at 1.
  destruct (is_running w) as [[[]| |] w1]; reflexivity.
Qed.

(** X6.  [shutdown_comfy_service] with no service bound does nothing.
    With one bound it runs [stop] on it; when [stop] returns, the
    global is set to None, process and client are cleared, and every
    tool then answers that the service is not available and does
    nothing: [generate_image], [image_service_status],
    [start_image_service] and [stop_image_service].  When there is no
    client to close, or the close returns, the function returns.  When
    the close raises, the exception leaves the function at once: the
    global stays bound and the process is neither signalled nor
    forgotten. *)
Theorem shutdown_comfy_service_answer (close_client : nat -> option exn)
    (w : World) (prompt negative_prompt : string) (width height nsteps : Z)
    (cfg_scale : Q) (queue : nat -> response queue_status) :
  let r := Closing.shutdown_comfy_service close_client w in
  (registered w = false -> r = (Ok tt, w)) /\
  (registered w = true ->
   client (self w) = None \/ close_client (steps w) = None ->
   r = (Ok tt, set_registered false (snd (stop w))) /\
   process (self (snd r)) = None /\ client (self (snd r)) = None /\
   (reachable w -> Stopped (self (snd r)))) /\
  (forall c e,
     registered w = true -> client (self w) = Some c ->
     close_client (steps w) = Some e ->
     r = (Raise e, effect (EvClientClose c) 0 w)) /\
  (fst r = Ok tt ->
   registered (snd r) = false /\
   Closing.generate_image close_client prompt negative_prompt width height
     nsteps cfg_scale (snd r) = (Ok msg_not_available, snd r) /\
   image_service_status queue (snd r) = (Ok msg_service_unavailable, snd r) /\
   Closing.start_image_service close_client (snd r)
     = (Ok msg_service_unavailable, snd r) /\
   Closing.stop_image_service close_client (snd r)
     = (Ok msg_service_unavailable, snd r)).
Proof.
  cbv zeta.
  assert (Htools : forall w', registered w' = false ->
    registered w' = false /\
    Closing.generate_image close_client prompt negative_prompt width height
      nsteps cfg_scale w' = (Ok msg_not_available, w') /\
    image_service_status queue w' = (Ok msg_service_unavailable, w') /\
    Closing.start_image_service close_client w' = (Ok msg_service_unavailable, w') /\
    Closing.stop_image_service close_client w' = (Ok msg_service_unavailable, w')).
  { intros w' Hr. split; [exact Hr|].
    rewrite closing_generate_image_split, closing_start_image_service_unfold,
      closing_stop_image_service_unfold.
    unfold image_service_status, bind, get_comfy_service, get.
    rewrite Hr. repeat split. }
  unfold Closing.shutdown_comfy_service, bind, get, modify, ret.
  destruct (registered w) eqn:Hreg.
  2: { split; [reflexivity|]. split; [discriminate|].
       split; [intros c e H; discriminate|]. intros _. apply Htools. exact Hreg. }
  pose proof (closing_stop_cases close_client w) as Hcs.
  split; [discriminate|].
  assert (Hok : Closing.stop close_client w = stop w ->
    (true = true ->
     client (self w) = None \/ close_client (steps w) = None ->
     (let (o, w1) := Closing.stop close_client w in
      match o with
      | Ok _ => (Ok tt, set_registered false w1)
      | Raise e => (Raise e, w1)
      | Diverge => (Diverge, w1)
      end) = (Ok tt, set_registered false (snd (stop w))) /\
     process (self (snd (let (o, w1) := Closing.stop close_client w in
                         match o with
                         | Ok _ => (Ok tt, set_registered false w1)
                         | Raise e => (Raise e, w1)
                         | Diverge => (Diverge, w1)
                         end))) = None /\
     client (self (snd (let (o, w1) := Closing.stop close_client w in
                        match o with
                        | Ok _ => (Ok tt, set_registered false w1)
                        | Raise e => (Raise e, w1)
                        | Diverge => (Diverge, w1)
                        end))) = None /\
     (reachable w ->
      Stopped (self (snd (let (o, w1) := Closing.stop close_client w in
                          match o with
                          | Ok _ => (Ok tt, set_registered false w1)
                          | Raise e => (Raise e, w1)
                          | Diverge => (Diverge, w1)
                          end))))) /\
    (fst (let (o, w1) := Closing.stop close_client w in
          match o with
          | Ok _ => (Ok tt, set_registered false w1)
          | Raise e => (Raise e, w1)
          | Diverge => (Diverge, w1)
          end) = Ok tt ->
     registered (snd (let (o, w1) := Closing.stop close_client w in
                      match o with
                      | Ok _ => (Ok tt, set_registered false w1)
                      | Raise e => (Raise e, w1)
                      | Diverge => (Diverge, w1)
                      end)) = false)).
  { intros E. rewrite E.
    destruct (stop_never_raises_cases w) as (w' & Hstop & Hp & Hc & Hstopped).
    rewrite Hstop. simpl. auto. }
  destruct (client (self w)) as [c|] eqn:Hc.
  - destruct (close_client (steps w)) as [e|] eqn:Hcc.
    + rewrite Hcs. split; [intros _ [H|H]; discriminate|].
      split; [|discriminate].
      intros c' e' _ E1 E2. inversion E1; inversion E2; subst. reflexivity.
    + destruct (Hok Hcs) as [H1 H2]. split; [exact H1|].
      split; [intros c' e' _ _ H; discriminate|].
      intros H. apply Htools, H2, H.
  - destruct (Hok Hcs) as [H1 H2]. split; [exact H1|].
    split; [intros c' e' _ H; discriminate|].
    intros H. apply Htools, H2, H.
Qed.

(** *** The service tools *)

Lemma health_check_grows w :
  exists b w',
    health_check w = (Ok b, w') /\ self w' = self w /\
    (client_requests (trace w') <= client_requests (trace w) + 1)%nat.
Proof.
  rewrite health_check_unfold.
  pose proof (is_running_grows w) as Hg.
  destruct (is_running_cases w) as (b0 & w1 & Hrun & Hself & _ & _).
  rewrite Hrun in *. simpl in Hg. apply quiet_counts in Hg as (_ & Hreq & _).
  destruct b0; [|exists false, w1; split; [reflexivity|]; split; [exact Hself|]; lia].
  destruct (client (self w1)) as [c|];
    [|exists false, w1; split; [reflexivity|]; split; [exact Hself|]; lia].
  cbv zeta.
  assert (Hone : client_requests (trace (effect (EvGet c "/system_stats") 0 w1))
                 = (client_requests (trace w) + 1)%nat).
  { unfold client_requests in *. simpl. rewrite List.filter_app, length_app.
    simpl. lia. }
  destruct (probe_get (env w1) (steps w1)) as [e|status body];
    eexists _, _; (split; [reflexivity|]); (split; [exact Hself|]); lia.
Qed.

Lemma get_queue_status_grows answers w :
  exists r w',
    get_queue_status answers w = (r, w') /\ r <> Diverge /\ self w' = self w /\
    (client_requests (trace w') <= client_requests (trace w) + 1)%nat.
Proof.
  rewrite get_queue_status_unfold.
  destruct (client (self w)) as [c|].
  2: { eexists _, _. split; [reflexivity|]. split; [discriminate|].
       split; [reflexivity|]. lia. }
  cbv zeta.
  assert (Hone : client_requests (trace (effect (EvGet c "/queue") 0 w))
                 = (client_requests (trace w) + 1)%nat).
  { unfold client_requests. simpl. rewrite List.filter_app, length_app.
    simpl. lia. }
  destruct (answers (steps w)) as [e|status [body|]];
    [|destruct (accepted status)..];
    (eexists _, _; split; [reflexivity|]; split; [discriminate|];
     split; [reflexivity|]; lia).
Qed.

(** X7. [image_service_status] never raises and never changes the
    object: it returns a text and has sent at most two requests, the
    health check and the queue request.  With a service bound whose
    process is absent or dead it answers that the service is stopped,
    without sending any request. *)
Theorem image_service_status_answer
    (queue : nat -> response queue_status) (w : World) :
  exists text w',
    image_service_status queue w = (Ok text, w') /\
    self w' = self w /\
    (client_requests (trace w') <= client_requests (trace w) + 2)%nat /\
    (registered w = true -> fst (is_running w) = Ok false ->
     text = msg_stopped /\
     client_requests (trace w') = client_requests (trace w)).
Proof.
  unfold image_service_status. unfold bind at 1. unfold get_comfy_service, get at 1.
  destruct (registered w) eqn:Hreg; cbn [negb].
  2: { exists msg_service_unavailable, w. split; [reflexivity|].
       split; [reflexivity|]. split; [lia|discriminate]. }
  unfold bind at 1.
  pose proof (is_running_grows w) as Hg.
  destruct (is_running_cases w) as (b0 & w1 & Hrun & Hself1 & _ & _).
  rewrite Hrun in *. simpl in Hg. apply quiet_counts in Hg as (_ & Hreq1 & _).
  destruct b0; cbn [negb].
  2: { exists msg_stopped, w1. split; [reflexivity|]. split; [exact Hself1|].
       split; [lia|]. auto. }
  unfold try_except, any_exception. unfold bind at 1.
  destruct (health_check_grows w1) as (b & w2 & Hh & Hself2 & Hreq2).
  rewrite Hh. destruct b; cbn [negb].
  2: { exists msg_not_responding, w2. split; [reflexivity|].
       split; [congruence|]. split; [lia|discriminate]. }
  unfold bind at 1.
  destruct (get_queue_status_grows queue w2) as (r & w3 & Hq & Hnd & Hself3 & Hreq3).
  rewrite Hq. destruct r as [qs|e|]; [| |congruence].
  - unfold bind, base_url, get, ret.
    eexists _, w3. split; [reflexivity|]. split; [congruence|].
    split; [lia|discriminate].
  - unfold bind, log, modify, ret.
    eexists _, _. split; [reflexivity|]. split; [simpl; congruence|].
    split; [|discriminate].
    unfold client_requests in *. simpl. rewrite List.filter_app, length_app.
    simpl. lia.
Qed.

(** A healthy service with one job running and two waiting. *)
Example image_service_status_example :
  fst (image_service_status
         (fun _ => Reply 200 (Some (QueueStatus (Some [VStr "a"])
                                      (Some [VStr "b"; VStr "c"]))))
         ready_world)
  = Ok (msg_running "http://127.0.0.1:8188" 1 2).
Proof. vm_compute. reflexivity. Qed.

Lemma start_image_service_unfold w :
  start_image_service w =
  if registered w then
    match is_running w with
    | (Ok true, w1) => (Ok msg_already_running, w1)
    | (Ok false, w1) =>
        match start (emit (EvLog Info "manually_starting_comfyui") w1) with
        | (Ok true, w2) => (Ok (msg_started (base_url_of (self w2))), w2)
        | (Ok false, w2) => (Ok msg_start_service_failed, w2)
        | (Raise e, w2) => (Raise e, w2)
        | (Diverge, w2) => (Diverge, w2)
        end
    | (Raise e, w1) => (Raise e, w1)
    | (Diverge, w1) => (Diverge, w1)
    end
  else (Ok msg_service_unavailable, w).
Proof.
  unfold start_image_service. unfold bind at 1. unfold get_comfy_service, get at 1.
  destruct (registered w); [|reflexivity]. cbn [negb]. unfold bind at 1.
  destruct (is_running w) as [[[]| |] w1]; try reflexivity.
  unfold bind at 1. unfold log at 1, modify at 1. unfold bind at 1.
  destruct (start (emit (EvLog Info "manually_starting_comfyui") w1))
    as [[[]| |] w2]; reflexivity.
Qed.

Lemma stop_image_service_unfold w :
  stop_image_service w =
  if registered w then
    match is_running w with
    | (Ok true, w1) =>
        (Ok msg_service_stopped,
         snd (stop (emit (EvLog Info "manually_stopping_comfyui") w1)))
    | (Ok false, w1) => (Ok msg_already_stopped, w1)
    | (Raise e, w1) => (Raise e, w1)
    | (Diverge, w1) => (Diverge, w1)
    end
  else (Ok msg_service_unavailable, w).
Proof.
  unfold stop_image_service. unfold bind at 1. unfold get_comfy_service, get at 1.
  destruct (registered w); [|reflexivity]. cbn [negb]. unfold bind at 1.
  destruct (is_running w) as [[[]| |] w1]; try reflexivity.
  cbn [negb]. unfold bind, log, modify, ret.
  destruct (stop_cases (emit (EvLog Info "manually_stopping_comfyui") w1))
    as (w2 & Hstop & _).
  rewrite Hstop. reflexivity.
Qed.

(** X8.  [start_image_service] does not run for ever and spawns at
    most one process.  It says "started" only when the object holds a
    process, and process, client and flag on an object that
    construction, [start] and [stop] have led to; after "failed to
    start" the object holds neither process nor client; and when the
    process is alive it says "already running" and leaves the object
    as it is, spawning nothing.  On an object without a client, or when
    closing the client returns, it always returns a text; the only
    exception that can leave it is one raised by closing the client
    that the object held. *)
Theorem start_image_service_answer (close_client : nat -> option exn) (w : World) :
  let r := Closing.start_image_service close_client w in
  fst r <> Diverge /\
  (spawns (trace (snd r)) <= spawns (trace w) + 1)%nat /\
  (forall base, fst r = Ok (msg_started base) ->
     base = base_url_of (self (snd r)) /\ process (self (snd r)) <> None /\
     (reachable w -> Serving (self (snd r)))) /\
  (fst r = Ok msg_start_service_failed ->
   process (self (snd r)) = None /\ client (self (snd r)) = None) /\
  (registered w = true -> fst (is_running w) = Ok true ->
   fst r = Ok msg_already_running /\ self (snd r) = self w /\
   spawns (trace (snd r)) = spawns (trace w)) /\
  (client (self w) = None \/ (forall n, close_client n = None) ->
   exists text, fst r = Ok text) /\
  (forall e, fst r = Raise e ->
     client (self w) <> None /\ exists n, close_client n = Some e).
Proof.
  cbv zeta. rewrite closing_start_image_service_unfold.
  destruct (registered w) eqn:Hreg.
  2: { simpl. split; [discriminate|]. split; [lia|].
       split; [discriminate|]. split; [discriminate|]. split; [discriminate|].
       split; [eauto|discriminate]. }
  pose proof (is_running_grows w) as Hg.
  destruct (is_running_cases w) as (b0 & w1 & Hrun & Hself1 & _ & _).
  rewrite Hrun in *. simpl in Hg. apply quiet_counts in Hg as (Hsp1 & _).
  destruct b0.
  { simpl. split; [discriminate|]. split; [lia|].
    split; [discriminate|]. split; [discriminate|]. split; [auto|].
    split; [eauto|discriminate]. }
  set (w1' := emit (EvLog Info "manually_starting_comfyui") w1).
  destruct (closing_start_cases close_client w1')
    as (r & w2 & Hstart & _ & Hsp2 & Hres).
  assert (Hsp : (spawns (trace w2) <= spawns (trace w) + 1)%nat).
  { assert (Hq : grows quiet w1 w1') by (subst w1'; grow).
    apply quiet_counts in Hq as (Hs & _). rewrite Hsp2, Hs, Hsp1.
    destruct (fst (is_running w1')) as [[]| |]; lia. }
  rewrite Hstart. destruct r as [[]|e|]; [| | |contradiction]; simpl.
  - split; [discriminate|]. split; [exact Hsp|]. split; [|split; [|split]].
    + intros base H. unfold msg_started in H.
      assert (base = base_url_of (self w2)).
      { inversion H as [H']. apply String.app_inj in H'. symmetry. exact H'. }
      split; [assumption|].
      destruct Hres as (_ & _ & _ & Hp & Hrest). split; [exact Hp|].
      intros Hreach. destruct Hrest as [Heq|[Hc Hr]].
      * rewrite Heq. subst w1'. simpl. rewrite Hself1.
        destruct (reachable_settled w Hreach) as [(Hn & _)|Hs]; [|exact Hs].
        exfalso. apply Hp. rewrite Heq. simpl. rewrite Hself1. exact Hn.
      * repeat split; assumption.
    + discriminate.
    + intros _ H. discriminate.
    + split; [eauto|discriminate].
  - split; [discriminate|]. split; [exact Hsp|]. split; [|split; [|split]].
    + discriminate.
    + intros _. destruct Hres as (_ & _ & _ & Hp & Hc & _). auto.
    + intros _ H. discriminate.
    + split; [eauto|discriminate].
  - destruct Hres as (_ & Hc & _ & Hn). subst w1'. simpl in Hc. rewrite Hself1 in Hc.
    split; [discriminate|]. split; [exact Hsp|]. split; [discriminate|].
    split; [discriminate|]. split; [intros _ H; discriminate|].
    split.
    + intros [H|H]; [contradiction|]. destruct Hn as (n & Hn).
      rewrite H in Hn. discriminate.
    + intros e' E. inversion E; subst e'. auto.
Qed.

(** X9.  [stop_image_service] says "stopped" only after [stop] has
    returned: the state is then Stopped.  When the process is absent or
    has died on its own it says "already stopped" and does not run
    [stop]: the object is left as it is, so a client that was open
    stays open and the flag stays as it was.  When there is no client
    to close, or the close returns, it always returns a text.  When the
    close raises, the exception leaves the tool: the liveness check,
    the log and the close are all that happened, and the process is
    neither signalled nor forgotten. *)
Theorem stop_image_service_answer (close_client : nat -> option exn) (w : World) :
  let r := Closing.stop_image_service close_client w in
  fst r <> Diverge /\
  (fst r = Ok msg_service_stopped -> Stopped (self (snd r))) /\
  (registered w = true -> fst (is_running w) = Ok false ->
   r = (Ok msg_already_stopped, snd (is_running w)) /\ self (snd r) = self w) /\
  (client (self w) = None \/ (forall n, close_client n = None) ->
   exists text, fst r = Ok text) /\
  (forall e, fst r = Raise e ->
     exists pid c,
       process (self w) = Some pid /\ client (self w) = Some c /\
       self (snd r) = self w /\
       trace (snd r) =
         trace w ++ [EvPoll pid; EvLog Info "manually_stopping_comfyui";
                     EvClientClose c]).
Proof.
  cbv zeta. rewrite closing_stop_image_service_unfold.
  destruct (registered w) eqn:Hreg.
  2: { simpl. split; [discriminate|]. split; [discriminate|].
       split; [discriminate|]. split; [eauto|discriminate]. }
  destruct (is_running_cases w) as (b0 & w1 & Hrun & Hself1 & _ & Hproc).
  rewrite Hrun. simpl fst. simpl snd.
  destruct b0.
  2: { simpl. split; [discriminate|]. split; [discriminate|].
       split; [auto|]. split; [eauto|discriminate]. }
  destruct (process (self w)) as [pid|] eqn:Hp; [|destruct Hproc; discriminate].
  destruct Hproc as [_ ->].
  set (w1' := emit (EvLog Info "manually_stopping_comfyui") (effect (EvPoll pid) 0 w)).
  pose proof (closing_stop_cases close_client w1') as Hcs.
  assert (Hself : self w1' = self w) by reflexivity.
  rewrite Hself in Hcs.
  assert (Hok : Closing.stop close_client w1' = stop w1' ->
    let r := match Closing.stop close_client w1' with
             | (Ok _, w2) => (Ok msg_service_stopped, w2)
             | (Raise e, w2) => (Raise e, w2)
             | (Diverge, w2) => (Diverge, w2)
             end in
    fst r <> Diverge /\
    (fst r = Ok msg_service_stopped -> Stopped (self (snd r))) /\
    (true = true -> Ok true = Ok false ->
     r = (Ok msg_already_stopped, effect (EvPoll pid) 0 w) /\ self (snd r) = self w) /\
    (client (self w) = None \/ (forall n, close_client n = None) ->
     exists text, fst r = Ok text) /\
    (forall e, fst r = Raise e ->
       exists pid0 c,
         Some pid = Some pid0 /\ client (self w) = Some c /\
         self (snd r) = self w /\
         trace (snd r) =
           trace w ++ [EvPoll pid0; EvLog Info "manually_stopping_comfyui";
                       EvClientClose c])).
  { intros E. cbv zeta. rewrite E.
    destruct (stop_cases w1') as (w2 & Hs & Hc & _ & _ & _ & Hcase).
    rewrite Hs. simpl. rewrite Hself, Hp in Hcase. destruct Hcase as [Hpn Hrn].
    split; [discriminate|]. split; [intros _; repeat split; assumption|].
    split; [intros _ H; discriminate|]. split; [eauto|discriminate]. }
  destruct (client (self w)) as [c|] eqn:Hc; [|exact (Hok Hcs)].
  destruct (close_client (steps w1')) as [e|] eqn:Hcc; [|exact (Hok Hcs)].
  rewrite Hcs. simpl.
  split; [discriminate|]. split; [discriminate|].
  split; [intros _ H; discriminate|]. split.
  - intros [H|H]; [discriminate|]. rewrite H in Hcc. discriminate.
  - intros e' E. exists pid, c. repeat split.
    rewrite <- !app_assoc. reflexivity.
Qed.

(** The process of a ready service has died: the tool leaves the client
    open and the flag set. *)
Example stop_image_service_stale :
  let r := Closing.stop_image_service close_fails stale_world in
  fst r = Ok msg_already_stopped /\
  client (self (snd r)) = Some 9%nat /\
  _is_ready (self (snd r)) = true.
Proof. vm_compute. repeat split. Qed.

(** The service is ready and closing its client raises: the tool
    raises, and the process keeps running. *)
Example stop_image_service_close_raises :
  let r := Closing.stop_image_service close_fails ready_world in
  fst r = Raise (Exn OtherException "close failed") /\
  self (snd r) = self ready_world.
Proof. vm_compute. repeat split. Qed.

(** *** What a call of [generate_image] does and does not *)

Lemma get_history_grows prompt_id w :
  grows polling_event w (snd (get_history prompt_id w)).
Proof.
  destruct (get_history_frame prompt_id w) as (r & w' & Hget & _ & _ & _ & Hw).
  rewrite Hget. simpl.
  destruct (client (self w)) as [c|]; [subst w'|destruct Hw as [-> _]]; grow.
Qed.

Lemma polls_grows prompt_id max_wait waited w k w' :
  polls prompt_id max_wait waited w k w' -> grows polling_event w w'.
Proof.
  induction 1 as [waited w|waited w history w1 k w' Hlt Hget Hnone Hrest IH]; [grow|].
  pose proof (get_history_grows prompt_id (effect (EvSleep 2) 2000 w)) as Hg.
  rewrite Hget in Hg. simpl in Hg.
  eapply grows_trans; [|exact IH]. eapply grows_trans; [|exact Hg]. grow.
Qed.

Lemma last_poll_grows prompt prompt_id max_wait waited w r w' :
  last_poll prompt prompt_id max_wait waited w (r, w') -> grows polling_event w w'.
Proof.
  pose proof (get_history_grows prompt_id (effect (EvSleep 2) 2000 w)) as Hg.
  inversion 1 as [Hlt|history w2 img Hlt Hget|e w2 Hlt Hget]; subst;
    try (rewrite Hget in Hg; simpl in Hg).
  - grow.
  - eapply grows_trans; [|apply grows_emit; reflexivity].
    eapply grows_trans; [|exact Hg]. grow.
  - eapply grows_trans; [|exact Hg]. grow.
Qed.

(** While it polls, the counter is below the budget. *)
Lemma polls_bound prompt_id max_wait waited w k w' :
  polls prompt_id max_wait waited w k w' ->
  k = 0%nat \/ (waited + 2 * Z.of_nat k - 2 < max_wait)%Z.
Proof.
  induction 1 as [waited w|waited w history w1 k w' Hlt Hget Hnone Hrest IH];
    [left; reflexivity|right].
  destruct IH as [->|IH]; lia.
Qed.

Lemma last_poll_requests prompt prompt_id max_wait waited w r w' :
  last_poll prompt prompt_id max_wait waited w (r, w') ->
  (history_requests (trace w') <= history_requests (trace w)
     + if bool_decide (waited < max_wait)%Z then 1 else 0)%nat.
Proof.
  destruct (get_history_frame prompt_id (effect (EvSleep 2) 2000 w))
    as (r1 & w1 & Hget & _ & _ & _ & Hw).
  assert (H1 : (history_requests (trace w1) <= history_requests (trace w) + 1)%nat).
  { destruct (client (self (effect (EvSleep 2) 2000 w))) as [c|].
    - subst w1. unfold history_requests. simpl.
      rewrite !omap_app, !length_app. simpl. lia.
    - destruct Hw as [-> _]. unfold history_requests. simpl.
      rewrite !omap_app, !length_app. simpl. lia. }
  inversion 1 as [Hlt|history w2 img Hlt Hget'|e w2 Hlt Hget']; subst;
    try (assert (E := eq_trans (eq_sym Hget) Hget'); inversion E; subst r1 w1).
  - lia.
  - rewrite bool_decide_eq_true_2 by exact Hlt.
    unfold history_requests in *. simpl. rewrite omap_app, length_app. simpl. lia.
  - rewrite bool_decide_eq_true_2 by exact Hlt. exact H1.
Qed.

Lemma await_result_requests prompt prompt_id w :
  (history_requests (trace (snd (await_result prompt prompt_id w)))
   <= history_requests (trace w) + 60)%nat /\
  grows polling_event w (snd (await_result prompt prompt_id w)) /\
  posted (trace (snd (await_result prompt prompt_id w))) = posted (trace w).
Proof.
  destruct (await_result_rounds prompt prompt_id w) as (k & wk & Hk & Hlast).
  destruct (await_result_frame prompt prompt_id w) as (r & w' & Hawait & _ & _ & Hout).
  rewrite Hawait in *. simpl snd.
  split; [|split; [|apply Hout]].
  - pose proof (polls_frame _ _ _ _ _ _ Hk) as (_ & _ & Hn & _).
    pose proof (polls_bound _ _ _ _ _ _ Hk) as Hb.
    pose proof (last_poll_requests _ _ _ _ _ _ _ Hlast) as Hl.
    case_bool_decide; lia.
  - eapply grows_trans; [eapply polls_grows; exact Hk|].
    eapply last_poll_grows; exact Hlast.
Qed.

Lemma polling_counts w w' :
  grows polling_event w w' -> spawns (trace w') = spawns (trace w).
Proof.
  intros (evs & -> & Hq). unfold spawns.
  rewrite List.filter_app, length_app.
  induction evs as [|ev evs IH]; simpl in *; [lia|].
  apply andb_true_iff in Hq as [Hev Hq]. specialize (IH Hq).
  destruct ev; simpl in *; try discriminate; lia.
Qed.

Lemma no_request_counts w w' :
  grows (fun ev => negb (is_client_request ev)) w w' ->
  history_requests (trace w') = history_requests (trace w) /\
  posted (trace w') = posted (trace w).
Proof.
  intros (evs & -> & Hq). unfold history_requests, posted.
  rewrite !omap_app, !length_app.
  induction evs as [|ev evs IH]; simpl in *.
  - rewrite !app_nil_r. repeat split; lia.
  - apply andb_true_iff in Hq as [Hev Hq]. specialize (IH Hq).
    destruct IH as (I1 & I2).
    destruct ev; simpl in *; try discriminate; split; auto.
Qed.

Lemma ensure_started_grows w :
  grows (fun ev => negb (is_client_request ev)) w (snd (ensure_started w)) /\
  (spawns (trace (snd (ensure_started w))) <= spawns (trace w) + 1)%nat.
Proof.
  unfold ensure_started.
  pose proof (is_running_grows w) as Hg0.
  destruct (is_running_cases w) as (b0 & w0 & Hrun & _).
  rewrite Hrun in Hg0. simpl in Hg0.
  rewrite (bind_ok _ _ _ _ _ Hrun).
  apply quiet_counts in Hg0 as Hc0. destruct Hc0 as (Hs0 & _).
  assert (Hn0 : grows (fun ev => negb (is_client_request ev)) w w0).
  { eapply grows_weaken; [|exact Hg0]. intros ev. unfold quiet.
    intros H. apply andb_true_iff in H. apply H. }
  destruct b0.
  - unfold ret. simpl. split; [exact Hn0|lia].
  - unfold bind, log, modify.
    destruct (start_grows (emit (EvLog Info "starting_comfyui_for_generation") w0))
      as (Hg1 & Hs1).
    destruct (start (emit (EvLog Info "starting_comfyui_for_generation") w0))
      as [r w1]. simpl in *.
    split.
    + eapply grows_trans; [|exact Hg1]. eapply grows_trans; [exact Hn0|].
      apply grows_emit. reflexivity.
    + rewrite Hs1. unfold spawns in *. rewrite List.filter_app, length_app. simpl.
      destruct (fst (is_running _)) as [[]| |]; lia.
Qed.

Lemma queue_prompt_grows prompt w :
  grows polling_event w (snd (queue_prompt prompt w)) /\
  history_requests (trace (snd (queue_prompt prompt w))) = history_requests (trace w) /\
  (length (posted (trace (snd (queue_prompt prompt w))))
   <= length (posted (trace w)) + 1)%nat.
Proof.
  rewrite queue_prompt_unfold.
  destruct (client (self w)) as [c|]; [|simpl; split; [grow|split; lia]].
  cbv zeta.
  destruct (post_prompt (env w) (steps w)) as [e|status [id|]];
    [|destruct (accepted status)..]; simpl;
    (split; [grow|]); unfold history_requests;
    rewrite ?posted_app, ?omap_app, ?length_app; simpl; split; lia.
Qed.

Lemma caught_grows (r : outcome string * World) :
  grows polling_event (snd r) (snd (caught r)) /\
  history_requests (trace (snd (caught r))) = history_requests (trace (snd r)) /\
  (fst r <> Diverge -> exists text, fst (caught r) = Ok text).
Proof.
  destruct r as [[s|e|] w]; simpl.
  - split; [grow|]. split; [reflexivity|]. eauto.
  - split; [grow|]. unfold history_requests. rewrite omap_app, length_app. simpl.
    split; [lia|]. eauto.
  - split; [grow|]. split; [reflexivity|]. intros H. contradiction.
Qed.

Lemma submit_and_poll_bounded prompt negative_prompt width height steps cfg_scale w1 :
  exists text w',
    submit_and_poll prompt negative_prompt width height steps cfg_scale w1
      = (Ok text, w') /\
    grows polling_event w1 w' /\
    (history_requests (trace w') <= history_requests (trace w1) + 60)%nat /\
    (length (posted (trace w')) <= length (posted (trace w1)) + 1)%nat /\
    self w' = self w1.
Proof.
  unfold submit_and_poll.
  destruct (queue_workflow_cases prompt negative_prompt width height steps cfg_scale w1)
    as [(e & w2 & Hheap & Hq)|(workflow & w2 & Hheap & _ & Hq)].
  { rewrite Hq. simpl.
    apply heap_only_trace in Hheap as (Ht & Hs & _).
    eexists _, _. split; [reflexivity|]. simpl. rewrite Ht.
    split; [exists [EvLog Error "image_generation_error"]; simpl; rewrite Ht; auto|].
    unfold history_requests. rewrite posted_app, omap_app, !length_app. simpl.
    split; [lia|]. split; [lia|]. exact Hs. }
  rewrite Hq.
  set (wq := emit (EvLog Info "queueing_image_generation") w2).
  apply heap_only_trace in Hheap as (Ht & Hs & _).
  assert (Hgq : grows polling_event w1 wq).
  { exists [EvLog Info "queueing_image_generation"]. subst wq. simpl.
    rewrite Ht. auto. }
  assert (Hhq : history_requests (trace wq) = history_requests (trace w1) /\
                posted (trace wq) = posted (trace w1) /\ self wq = self w1).
  { subst wq. simpl. rewrite Ht. unfold history_requests.
    rewrite posted_app, omap_app, length_app. simpl. rewrite app_nil_r.
    split; [lia|]. split; [reflexivity|]. exact Hs. }
  destruct Hhq as (Hhq & Hpq & Hsq). clearbody wq.
  destruct (queue_prompt_grows workflow wq) as (Hg3 & Hh3 & Hp3).
  pose proof (queue_prompt_posted workflow wq) as (_ & _ & Hs3 & Hd3).
  destruct (queue_prompt workflow wq) as [[prompt_id|e|] w3]; simpl in *;
    [| |contradiction].
  - destruct (await_result_requests prompt prompt_id w3) as (Hh4 & Hg4 & Hp4).
    destruct (await_result_frame prompt prompt_id w3) as (r4 & w4 & Hawait & Hd4 & Hs4 & _).
    rewrite Hawait in *. simpl in Hh4, Hg4, Hp4.
    destruct (caught_grows (r4, w4)) as (Hg5 & Hh5 & Ht5).
    destruct (caught_frame (r4, w4)) as (_ & Hp5 & Hs5).
    destruct (Ht5 Hd4) as (text & Htext).
    destruct (caught (r4, w4)) as [r5 w5]. simpl in *. subst r5.
    exists text, w5. split; [reflexivity|].
    split; [repeat (eapply grows_trans; [|eassumption]); grow|].
    split; [lia|]. split; [rewrite Hp5, Hp4, <- Hpq; lia|]. congruence.
  - eexists _, _. split; [reflexivity|]. simpl.
    split; [eapply grows_trans; [|apply grows_emit; reflexivity];
            eapply grows_trans; eassumption|].
    rewrite <- Hpq, <- Hhq, <- Hh3.
    unfold history_requests in *. rewrite posted_app, omap_app, !length_app. simpl.
    split; [lia|]. split; [lia|]. congruence.
Qed.

Lemma generate_image_split prompt negative_prompt width height steps cfg_scale w :
  generate_image prompt negative_prompt width height steps cfg_scale w =
  if registered w then
    match ensure_started w with
    | (Ok true, w1) =>
        submit_and_poll prompt negative_prompt width height steps cfg_scale w1
    | (Ok false, w1) => (Ok msg_start_failed, w1)
    | (Raise e, w1) => (Raise e, w1)
    | (Diverge, w1) => (Diverge, w1)
    end
  else (Ok msg_not_available, w).
Proof. apply generate_image_unfold. Qed.

(** X10.  [generate_image] does not run for ever, and one call starts
    at most one process, submits at most one workflow and asks for the
    history at most 60 times, whatever closing the client does.  The
    only exception that can leave it is one raised by closing the
    client that the object held when [start] had to clean up; it leaves
    before anything is submitted.  On an object without a client, or
    when the close returns, the call always returns a text. *)
Theorem generate_image_bounded (close_client : nat -> option exn)
    (prompt negative_prompt : string)
    (width height steps : Z) (cfg_scale : Q) (w : World) :
  let r := Closing.generate_image close_client prompt negative_prompt
             width height steps cfg_scale w in
  fst r <> Diverge /\
  (spawns (trace (snd r)) <= spawns (trace w) + 1)%nat /\
  (length (posted (trace (snd r))) <= length (posted (trace w)) + 1)%nat /\
  (history_requests (trace (snd r)) <= history_requests (trace w) + 60)%nat /\
  (client (self w) = None \/ (forall n, close_client n = None) ->
   exists text, fst r = Ok text) /\
  (forall e, fst r = Raise e ->
     client (self w) <> None /\ (exists n, close_client n = Some e) /\
     posted (trace (snd r)) = posted (trace w) /\
     history_requests (trace (snd r)) = history_requests (trace w)).
Proof.
  cbv zeta. rewrite closing_generate_image_split.
  destruct (registered w).
  2: { simpl. split; [discriminate|]. repeat (split; [lia|]).
       split; [eauto|discriminate]. }
  destruct (closing_ensure_started_cases close_client w)
    as (r & w1 & Hens & Hout & Hg1 & Hs1 & Hres).
  apply no_request_counts in Hg1 as (Hh1 & Hp1).
  rewrite Hens.
  destruct r as [[]|e|]; [| | |contradiction].
  - destruct (submit_and_poll_bounded prompt negative_prompt width height steps
                cfg_scale w1) as (text & w' & Hrun & Hg & Hh & Hp & _).
    rewrite Hrun. simpl. apply polling_counts in Hg.
    split; [discriminate|]. split; [lia|]. split; [rewrite <- Hp1; lia|].
    split; [lia|]. split; [eauto|discriminate].
  - simpl. split; [discriminate|]. split; [lia|]. split; [rewrite Hp1; lia|].
    split; [lia|]. split; [eauto|discriminate].
  - simpl. destruct Hres as (Hc & Hn).
    split; [discriminate|]. split; [lia|]. split; [rewrite Hp1; lia|].
    split; [lia|]. split.
    + intros [H|H]; [contradiction|]. destruct Hn as (n & Hn).
      rewrite H in Hn. discriminate.
    + intros e' E. inversion E; subst e'. auto.
Qed.

(** The serving object whose process has died: the new process dies
    as well, closing the old client raises, and the exception leaves
    [generate_image]; one process was spawned and nothing submitted. *)
Example generate_image_close_raises :
  let r := Closing.generate_image close_fails "a cat" "blurry" 640 480 30 (7 # 2)
             stale_world in
  fst r = Raise (Exn OtherException "close failed") /\
  spawns (trace (snd r)) = (spawns (trace stale_world) + 1)%nat /\
  posted (trace (snd r)) = [].
Proof. vm_compute. repeat split. Qed.

(** Where [ensure_started] leaves the object. *)
Lemma ensure_started_state w :
  exists b w1,
    ensure_started w = (Ok b, w1) /\ same_outside w w1 /\
    (b = false -> process (self w1) = None /\ client (self w1) = None) /\
    (b = true -> process (self w1) <> None /\
                 (reachable w -> Serving (self w1))).
Proof.
  unfold ensure_started.
  destruct (is_running_cases w) as (b0 & w0 & Hrun & Hself0 & Hout0 & Hproc).
  rewrite (bind_ok _ _ _ _ _ Hrun). destruct b0.
  - exists true, w0. unfold ret. split; [reflexivity|]. split; [exact Hout0|].
    split; [discriminate|]. intros _.
    assert (Hp : process (self w0) <> None).
    { rewrite Hself0. destruct (process (self w)); [discriminate|].
      destruct Hproc. discriminate. }
    split; [exact Hp|]. intros Hreach.
    destruct (reachable_settled w Hreach) as [(Hn & _)|Hs].
    + rewrite Hself0 in Hp. contradiction.
    + rewrite Hself0. exact Hs.
  - unfold bind, log, modify.
    set (w0' := emit (EvLog Info "starting_comfyui_for_generation") w0).
    destruct (start_cases w0') as (b & w1 & Hstart & Hout1 & _ & _ & Hcase).
    rewrite Hstart. exists b, w1. split; [reflexivity|].
    split; [eapply same_outside_trans; [|exact Hout1]; subst w0'; frames|].
    destruct b.
    + split; [discriminate|]. intros _. destruct Hcase as [Hp _].
      split; [exact Hp|]. intros Hreach.
      assert (Hr1 : reachable w1).
      { eapply reach_start; [|exact Hstart].
        eapply reach_frame; [exact Hreach|]. simpl. exact Hself0. }
      destruct (reachable_settled w1 Hr1) as [(Hn & _)|Hs]; [contradiction|exact Hs].
    + split; [|discriminate]. intros _. destruct Hcase as (Hp & Hc & _). auto.
Qed.

(** The texts that the [try] block of [generate_image] ends in. *)
Lemma submit_and_poll_texts prompt negative_prompt width height steps cfg_scale w1
    text w' :
  submit_and_poll prompt negative_prompt width height steps cfg_scale w1
    = (Ok text, w') ->
  text = msg_timed_out \/ (exists e, text = msg_failed e) \/
  (exists url filename, text = msg_generated prompt url filename).
Proof.
  unfold submit_and_poll.
  destruct (queue_workflow prompt negative_prompt width height steps cfg_scale w1)
    as [[prompt_id|e|] w2]; simpl; [|intros H; inversion H; eauto|discriminate].
  destruct (await_result_rounds prompt prompt_id w2) as (k & wk & _ & Hlast).
  destruct (await_result prompt prompt_id w2) as [r w3].
  inversion Hlast; subst; simpl; intros H; inversion H; eauto.
Qed.

Lemma submit_and_poll_heap prompt negative_prompt width height steps cfg_scale w1 :
  heap (snd (submit_and_poll prompt negative_prompt width height steps cfg_scale w1))
  = heap (snd (queue_workflow prompt negative_prompt width height steps cfg_scale w1)).
Proof.
  unfold submit_and_poll.
  destruct (queue_workflow prompt negative_prompt width height steps cfg_scale w1)
    as [[prompt_id|e|] w2]; [|reflexivity..].
  destruct (await_result_frame prompt prompt_id w2) as (r & w3 & Hawait & _ & _ & Hout).
  rewrite Hawait. destruct (caught_frame (r, w3)) as (Hh & _).
  rewrite Hh. simpl. apply Hout.
Qed.

(** X11. The two refusals of [generate_image].  It answers "not
    available" exactly when no service object is registered, and then
    has done nothing at all.  It answers "failed to start" only after a
    start that failed: the object then holds neither process nor
    client, nothing was submitted, no history was asked for, and the
    heap, the workflow template included, is as it was. *)
Theorem generate_image_refusals (prompt negative_prompt : string)
    (width height steps : Z) (cfg_scale : Q) (w : World) :
  let r := generate_image prompt negative_prompt width height steps cfg_scale w in
  (fst r = Ok msg_not_available <-> registered w = false) /\
  (registered w = false -> snd r = w) /\
  (fst r = Ok msg_start_failed ->
   fst (ensure_started w) = Ok false /\
   process (self (snd r)) = None /\ client (self (snd r)) = None /\
   heap (snd r) = heap w /\
   posted (trace (snd r)) = posted (trace w) /\
   history_requests (trace (snd r)) = history_requests (trace w)).
Proof.
  cbv zeta. rewrite generate_image_split.
  destruct (registered w) eqn:Hreg.
  2: { simpl. split; [tauto|]. split; [reflexivity|]. discriminate. }
  destruct (ensure_started_grows w) as (Hg1 & _).
  apply no_request_counts in Hg1 as (Hh1 & Hp1).
  destruct (ensure_started_state w) as (b & w1 & Hens & Hout & Hfalse & _).
  rewrite Hens in *. simpl in Hh1, Hp1.
  destruct b.
  - destruct (submit_and_poll_bounded prompt negative_prompt width height steps
                cfg_scale w1) as (text & w' & Hrun & _).
    rewrite Hrun. simpl.
    apply submit_and_poll_texts in Hrun as [->|[[e ->]|(url & filename & ->)]];
      (split; [split; [intros H; exfalso; revert H|discriminate]|
               split; [discriminate|intros H; exfalso; revert H]]);
      unfold msg_not_available, msg_start_failed, msg_timed_out, msg_failed,
        msg_generated; simpl; discriminate.
  - simpl. split; [split; discriminate|]. split; [discriminate|].
    intros _. destruct (Hfalse eq_refl) as (Hp & Hc).
    split; [reflexivity|]. split; [exact Hp|]. split; [exact Hc|].
    split; [apply Hout|]. split; [exact Hp1|exact Hh1].
Qed.

(** A service that cannot be started: the process dies at once. *)
Example generate_image_start_failed :
  fst (generate_image "a cat" "blurry" 640 480 30 (7 # 2) crash_world)
    = Ok msg_start_failed.
Proof. vm_compute. reflexivity. Qed.

(** X12.  A call of [generate_image] that answers with the image or
    with the time-out text, made with the template in the shape the
    module gives it, has submitted exactly one workflow.  The submitted
    workflow is a dict of its own, not the template, and read at the
    time of the request it holds the arguments of the call: the two
    prompts, the size, the steps and the scale. *)
Theorem submitted_workflow_holds_arguments (prompt negative_prompt : string)
    (width height steps : Z) (cfg_scale : Q) (w : World) :
  template_shape (heap w) ->
  polled_answer prompt
    (fst (generate_image prompt negative_prompt width height steps cfg_scale w)) ->
  exists p,
    posted (trace (snd (generate_image prompt negative_prompt width height steps
                          cfg_scale w)))
      = posted (trace w) ++ [p] /\
    pl_prompt p <> DEFAULT_TEXT2IMG_WORKFLOW /\
    pl_client_id p = "felix" /\
    input_field (pl_heap p) (pl_prompt p) "6" "text" = Some (VStr prompt) /\
    input_field (pl_heap p) (pl_prompt p) "7" "text" = Some (VStr negative_prompt) /\
    input_field (pl_heap p) (pl_prompt p) "5" "width" = Some (VInt width) /\
    input_field (pl_heap p) (pl_prompt p) "5" "height" = Some (VInt height) /\
    input_field (pl_heap p) (pl_prompt p) "3" "steps" = Some (VInt steps) /\
    input_field (pl_heap p) (pl_prompt p) "3" "cfg" = Some (VFloat cfg_scale).
Proof.
  intros Hshape. rewrite generate_image_split.
  destruct (registered w).
  2: { intros [H|(url & filename & H)]; exfalso; revert H;
         unfold msg_not_available, msg_timed_out, msg_generated; simpl; discriminate. }
  destruct (ensure_started_cases w) as (b & w1 & Hens & Hout1 & _).
  rewrite Hens.
  destruct b.
  2: { intros [H|(url & filename & H)]; exfalso; revert H;
         unfold msg_start_failed, msg_timed_out, msg_generated; simpl; discriminate. }
  assert (Hh1 : heap w1 = heap w) by apply Hout1.
  assert (Hp1 : posted (trace w1) = posted (trace w)) by apply Hout1.
  rewrite <- Hh1 in Hshape. unfold submit_and_poll.
  destruct (queue_workflow_template prompt negative_prompt width height steps
              cfg_scale w1 Hshape) as (l & w2 & Hq & Ht).
  rewrite Hq.
  pose proof (after_queue_result prompt (VDict l)
                (emit (EvLog Info "queueing_image_generation") w2)) as Hres.
  cbv zeta in Hres.
  destruct Ht as (Hheap & _ & Sl & _ & Hl & _ & Hfs).
  apply heap_only_trace in Hheap as (Htr & _).
  destruct (client (self (emit (EvLog Info "queueing_image_generation") w2))) as [c|].
  2: { destruct Hres as [_ (e & He)]. rewrite He. intros H. exfalso.
       exact (failed_is_not_polled _ _ H). }
  intros _. eexists. split.
  { rewrite Hres. simpl. rewrite posted_app, app_nil_r, Htr, Hp1. reflexivity. }
  cbn [pl_prompt pl_heap pl_client_id emit heap].
  split; [unfold DEFAULT_TEXT2IMG_WORKFLOW; congruence|]. split; [reflexivity|].
  repeat (apply Forall_cons in Hfs as [? Hfs]). simpl in *.
  destruct Sl as (N3 & N5 & N6 & N7).
  rewrite !(has_node_field _ _ _ _ _ _ N3), !(has_node_field _ _ _ _ _ _ N5),
    !(has_node_field _ _ _ _ _ _ N6), !(has_node_field _ _ _ _ _ _ N7).
  repeat (split; [assumption|]). assumption.
Qed.

Lemma submitted_workflow_holds_arguments_witness :
  exists p,
    posted (trace (snd (generate_image "a cat" "blurry" 640 480 30 (7 # 2) ready_world)))
      = posted (trace ready_world) ++ [p] /\
    pl_prompt p <> DEFAULT_TEXT2IMG_WORKFLOW /\
    pl_client_id p = "felix" /\
    input_field (pl_heap p) (pl_prompt p) "6" "text" = Some (VStr "a cat") /\
    input_field (pl_heap p) (pl_prompt p) "7" "text" = Some (VStr "blurry") /\
    input_field (pl_heap p) (pl_prompt p) "5" "width" = Some (VInt 640) /\
    input_field (pl_heap p) (pl_prompt p) "5" "height" = Some (VInt 480) /\
    input_field (pl_heap p) (pl_prompt p) "3" "steps" = Some (VInt 30) /\
    input_field (pl_heap p) (pl_prompt p) "3" "cfg" = Some (VFloat (7 # 2)).
Proof.
  apply (submitted_workflow_holds_arguments "a cat" "blurry" 640 480 30 (7 # 2)
           ready_world).
  - exact module_heap_shape.
  - right.
    exists "http://127.0.0.1:8188/view?filename=felix_gen_001.png&type=output",
      "felix_gen_001.png".
    vm_compute. reflexivity.
Defined.

(** *** A submission without a job identifier *)

Lemma get_whole_history_grows w :
  grows whole_history_poll w (snd (get_history None w)).
Proof.
  destruct (get_history_frame None w) as (r & w' & Hget & _ & _ & _ & Hw).
  rewrite Hget. simpl.
  destruct (client (self w)) as [c|]; [subst w'|destruct Hw as [-> _]]; grow.
Qed.

Lemma whole_history_polls max_wait waited w k w' :
  polls None max_wait waited w k w' -> grows whole_history_poll w w'.
Proof.
  induction 1 as [waited w|waited w history w1 k w' Hlt Hget Hnone Hrest IH]; [grow|].
  pose proof (get_whole_history_grows (effect (EvSleep 2) 2000 w)) as Hg.
  rewrite Hget in Hg. simpl in Hg.
  eapply grows_trans; [|exact IH]. eapply grows_trans; [|exact Hg]. grow.
Qed.

(** X13. The service accepted the workflow but its answer holds no
    "prompt_id".  [generate_image] then asks for the whole history,
    "/history", at every poll and looks up no job in it: whatever the
    history holds, the call does not report an image.  It ends in the
    time-out text after 60 requests and at least 120 time units, or in
    the failure text of a history request that raised. *)
Theorem missing_prompt_id_never_completes (prompt negative_prompt : string)
    (width height steps : Z) (cfg_scale : Q) (w w1 w2 : World) :
  registered w = true ->
  ensure_started w = (Ok true, w1) ->
  queue_workflow prompt negative_prompt width height steps cfg_scale w1
    = (Ok None, w2) ->
  exists text w',
    generate_image prompt negative_prompt width height steps cfg_scale w
      = (Ok text, w') /\
    grows whole_history_poll w2 w' /\
    ((text = msg_timed_out /\
      history_requests (trace w') = (history_requests (trace w2) + 60)%nat /\
      (now w2 + 120 * 1000 <= now w')%Z) \/
     (exists e, text = msg_failed e)).
Proof.
  intros Hreg Hens Hq.
  rewrite generate_image_split, Hreg, Hens. unfold submit_and_poll. rewrite Hq.
  destruct (await_result_rounds prompt None w2) as (k & wk & Hk & Hlast).
  pose proof (whole_history_polls _ _ _ _ _ Hk) as Hgk.
  pose proof (polls_frame _ _ _ _ _ _ Hk) as (_ & _ & Hn & Ht).
  pose proof (polls_bound _ _ _ _ _ _ Hk) as Hb.
  pose proof (get_whole_history_grows (effect (EvSleep 2) 2000 wk)) as Hgl.
  destruct (await_result prompt None w2) as [r w3].
  inversion Hlast as [Hlt|history w4 img Hlt Hget Himg|e w4 Hlt Hget]; subst.
  - exists msg_timed_out, w3. split; [reflexivity|]. split; [exact Hgk|].
    left. split; [reflexivity|].
    assert (k = 60%nat) by lia. subst k. split; [exact Hn|lia].
  - unfold first_image in Himg. simpl in Himg. discriminate.
  - rewrite Hget in Hgl. simpl in Hgl.
    eexists _, _. split; [reflexivity|].
    split; [|right; eauto].
    eapply grows_trans; [exact Hgk|].
    eapply grows_trans; [|apply grows_emit; reflexivity].
    eapply grows_trans; [|exact Hgl]. grow.
Qed.

Lemma missing_prompt_id_never_completes_witness :
  exists text w',
    generate_image "a cat" "blurry" 640 480 30 (7 # 2) (started no_id_env)
      = (Ok text, w') /\
    grows whole_history_poll
      (snd (queue_workflow "a cat" "blurry" 640 480 30 (7 # 2)
              (snd (ensure_started (started no_id_env))))) w' /\
    ((text = msg_timed_out /\
      history_requests (trace w') =
        (history_requests
           (trace (snd (queue_workflow "a cat" "blurry" 640 480 30 (7 # 2)
                          (snd (ensure_started (started no_id_env)))))) + 60)%nat /\
      (now (snd (queue_workflow "a cat" "blurry" 640 480 30 (7 # 2)
                   (snd (ensure_started (started no_id_env))))) + 120 * 1000
       <= now w')%Z) \/
     (exists e, text = msg_failed e)).
Proof.
  apply (missing_prompt_id_never_completes "a cat" "blurry" 640 480 30 (7 # 2)
           (started no_id_env) (snd (ensure_started (started no_id_env)))).
  - vm_compute. reflexivity.
  - vm_compute. reflexivity.
  - vm_compute. reflexivity.
Defined.

(** The history shows the image of a finished job all along, and the
    call that was given no identifier times out. *)
Example missing_prompt_id_times_out :
  fst (generate_image "a cat" "blurry" 640 480 30 (7 # 2) (started no_id_env))
    = Ok msg_timed_out.
Proof. vm_compute. reflexivity. Qed.

(** *** A submission that is refused *)

Lemma queue_prompt_refused workflow w :
  refuses (post_prompt (env w) (steps w)) = true ->
  exists e w',
    queue_prompt workflow w = (Raise e, w') /\
    history_requests (trace w') = history_requests (trace w).
Proof.
  intros Href. rewrite queue_prompt_unfold.
  destruct (client (self w)) as [c|]; [|eauto].
  cbv zeta. unfold refuses in Href.
  destruct (post_prompt (env w) (steps w)) as [e|status [id|]];
    [|destruct (accepted status)..]; try discriminate;
    eexists _, _; (split; [reflexivity|]);
    unfold history_requests; simpl; rewrite omap_app, length_app; simpl; lia.
Qed.

(** X14.  A call of [generate_image] has passed the service checks and
    the service answers the submission with a transport error, a
    status outside 2xx or a body that is not JSON.  The call returns a
    failure text at once: it asks for no history, and the error log is
    the last thing it does. *)
Theorem refused_submission_is_reported (prompt negative_prompt : string)
    (width height nsteps : Z) (cfg_scale : Q) (w w1 : World) :
  registered w = true ->
  ensure_started w = (Ok true, w1) ->
  refuses (post_prompt (env w1) (steps w1)) = true ->
  exists e w',
    generate_image prompt negative_prompt width height nsteps cfg_scale w
      = (Ok (msg_failed e), w') /\
    history_requests (trace w') = history_requests (trace w) /\
    last (trace w') = Some (EvLog Error "image_generation_error").
Proof.
  intros Hreg Hens Href.
  rewrite generate_image_split, Hreg, Hens. unfold submit_and_poll.
  destruct (ensure_started_grows w) as (Hg1 & _).
  apply no_request_counts in Hg1 as (Hh1 & _).
  rewrite Hens in Hh1. simpl in Hh1.
  destruct (queue_workflow_cases prompt negative_prompt width height nsteps
              cfg_scale w1)
    as [(e & w2 & Hheap & Hq)|(workflow & w2 & Hheap & _ & Hq)].
  { rewrite Hq. apply heap_only_trace in Hheap as (Ht & _).
    exists e. eexists. split; [reflexivity|]. simpl.
    unfold history_requests in *. rewrite omap_app, length_app, last_snoc, Ht.
    simpl. split; [lia|reflexivity]. }
  rewrite Hq. apply heap_only_trace in Hheap as (Ht & _ & Henv & Hsteps & _).
  destruct (queue_prompt_refused workflow
              (emit (EvLog Info "queueing_image_generation") w2))
    as (e & w3 & Hqp & Hh3).
  { cbn [emit env steps]. rewrite Henv, Hsteps. exact Href. }
  rewrite Hqp. exists e. eexists. split; [reflexivity|]. simpl.
  unfold history_requests in *. rewrite omap_app, length_app, last_snoc.
  simpl in *. rewrite omap_app, length_app, Ht in Hh3. simpl in Hh3.
  split; [lia|reflexivity].
Qed.

Lemma refused_submission_is_reported_witness :
  exists e w',
    generate_image "a cat" "blurry" 640 480 30 (7 # 2) (started rejecting_env)
      = (Ok (msg_failed e), w') /\
    history_requests (trace w') = history_requests (trace (started rejecting_env)) /\
    last (trace w') = Some (EvLog Error "image_generation_error").
Proof.
  apply (refused_submission_is_reported "a cat" "blurry" 640 480 30 (7 # 2)
           (started rejecting_env) (snd (ensure_started (started rejecting_env)))).
  - vm_compute. reflexivity.
  - vm_compute. reflexivity.
  - vm_compute. reflexivity.
Defined.

(** *** What [generate_image] writes to the heap *)

Lemma writes_only_refl keys new h : writes_only keys new h h.
Proof. split; auto. Qed.

Lemma writes_only_insert keys new h0 h il inputs key v :
  key ∈ keys -> h !! il = Some inputs ->
  writes_only keys new h0 h ->
  writes_only keys new h0 (<[il := <[key := v]> inputs]> h).
Proof.
  intros Hkey Hil (Hold & Hnew). split.
  - intros l Hl. destruct (Hold l Hl) as (Hsome & Hslot). split.
    + destruct (decide (l = il)) as [->|Hne].
      * rewrite lookup_insert_eq. eauto.
      * rewrite lookup_insert_ne by auto. exact Hsome.
    + intros k Hk. rewrite slot_insert, <- (Hslot k Hk).
      destruct (decide (l = il)) as [->|Hne]; [|reflexivity].
      destruct (decide (k = key)) as [->|Hk']; [contradiction|].
      unfold slot. rewrite Hil. reflexivity.
  - intros l Hl. apply Hnew.
    destruct (decide (l = il)) as [->|Hne]; [eauto|].
    rewrite lookup_insert_ne in Hl by auto. exact Hl.
Qed.

(** One assignment of [queue_workflow], and what follows it. *)
Lemma writes_only_set_input {A} keys new h0 workflow node key v (k : M A) w :
  key ∈ keys ->
  writes_only keys new h0 (heap w) ->
  (forall w1, writes_only keys new h0 (heap w1) ->
              writes_only keys new h0 (heap (snd (k w1)))) ->
  writes_only keys new h0 (heap (snd ((set_input workflow node key v ;; k) w))).
Proof.
  intros Hkey Hw Hk.
  destruct (set_input_cases workflow node key v w)
    as [[e He]|(n & il & inputs & _ & _ & Hil & Hset)].
  - rewrite (bind_raise _ _ _ _ _ He). exact Hw.
  - rewrite (bind_ok _ _ _ _ _ Hset). apply Hk. simpl.
    apply writes_only_insert; assumption.
Qed.

Lemma queue_workflow_writes prompt negative_prompt width height steps cfg_scale w :
  writes_only written_keys (fresh (dom (heap w))) (heap w)
    (heap (snd (queue_workflow prompt negative_prompt width height steps cfg_scale w))).
Proof.
  unfold queue_workflow.
  destruct (copy_cases DEFAULT_TEXT2IMG_WORKFLOW w)
    as [[e He]|(l & entries & _ & _ & Hfresh & Hcopy)].
  { rewrite (bind_raise _ _ _ _ _ He). apply writes_only_refl. }
  rewrite (bind_ok _ _ _ _ _ Hcopy).
  assert (H0 : writes_only written_keys (fresh (dom (heap w))) (heap w)
                 (heap (set_heap (<[fresh (dom (heap w)) := entries]> (heap w)) w))).
  { simpl. split.
    - intros l' Hl'.
      assert (l' <> fresh (dom (heap w))).
      { intros ->. rewrite Hfresh in Hl'. destruct Hl'. discriminate. }
      unfold slot. rewrite lookup_insert_ne by auto. auto.
    - intros l' Hl'. destruct (decide (l' = fresh (dom (heap w)))) as [->|Hne]; [auto|].
      rewrite lookup_insert_ne in Hl' by auto. auto. }
  set (wa := set_heap _ w) in *. clearbody wa.
  set (l' := fresh (dom (heap w))) in *. clearbody l'.
  set (h0 := heap w) in *. clearbody h0.
  repeat (apply writes_only_set_input;
          [unfold written_keys; set_solver|assumption|intros ? ?]).
  unfold bind, log, modify.
  match goal with
  | |- context [queue_prompt ?wf ?wq] =>
      pose proof (queue_prompt_posted wf wq) as (_ & Hh & _)
  end.
  rewrite Hh. assumption.
Qed.

(** X15. What a call of [generate_image] does to the heap, whatever
    the heap holds: every dict that was there is still there, and
    every entry of these dicts under a key other than "text", "width",
    "height", "steps", "cfg" and "seed" is as it was, so the call
    changes no class, no link between the nodes, no checkpoint and no
    file-name prefix.  At most one dict is new: the copy. *)
Theorem generate_image_writes (prompt negative_prompt : string)
    (width height steps : Z) (cfg_scale : Q) (w : World) :
  writes_only written_keys (fresh (dom (heap w))) (heap w)
    (heap (snd (generate_image prompt negative_prompt width height steps
                  cfg_scale w))).
Proof.
  rewrite generate_image_split.
  destruct (registered w); [|apply writes_only_refl].
  destruct (ensure_started_cases w) as (b & w1 & Hens & Hout & _).
  rewrite Hens. assert (Hh : heap w1 = heap w) by apply Hout.
  destruct b; [|simpl; rewrite Hh; apply writes_only_refl].
  rewrite submit_and_poll_heap, <- Hh. apply queue_workflow_writes.
Qed.

(** The template after a call: the checkpoint, the sampler and the
    file-name prefix are those of the module. *)
Example generate_image_keeps :
  let w' := snd (generate_image "a cat" "blurry" 640 480 30 (7 # 2) ready_world) in
  template_field w' "4" "ckpt_name" = Some (VStr "v1-5-pruned.safetensors") /\
  template_field w' "3" "sampler_name" = Some (VStr "euler") /\
  template_field w' "9" "filename_prefix" = Some (VStr "felix_gen").
Proof. vm_compute. repeat split. Qed.

(** *** What [start] sends *)

(** X16. [start] sends nothing through the persistent client: the
    readiness probes go through clients of their own.  It spawns one
    process, or tries to, unless the liveness check at its entry finds
    the process running; then it spawns none. *)
Theorem start_spawns_once (w : World) :
  client_requests (trace (snd (start w))) = client_requests (trace w) /\
  posted (trace (snd (start w))) = posted (trace w) /\
  spawns (trace (snd (start w))) =
    (spawns (trace w) + if fst (is_running w) is Ok true then 0 else 1)%nat.
Proof.
  destruct (start_grows w) as ((evs & Htr & Hq) & Hs).
  split; [|split; [|exact Hs]].
  - rewrite Htr. unfold client_requests. rewrite List.filter_app, length_app.
    clear Htr. induction evs as [|ev evs IH]; simpl in *; [lia|].
    apply andb_true_iff in Hq as [Hev Hq]. specialize (IH Hq).
    destruct (is_client_request ev); [discriminate|exact IH].
  - destruct (start_cases w) as (b & w' & Hstart & Hout & _).
    rewrite Hstart. apply Hout.
Qed.

(** *** The service after a call of [generate_image] *)




(** The job never shows an output: the call times out and the service
    is still there. *)
Example generate_image_timeout_keeps_service :
  let r := generate_image "a cat" "blurry" 640 480 30 (7 # 2) (started never_done_env) in
  fst r = Ok msg_timed_out /\
  process (self (snd r)) = Some 4711%nat /\ _is_ready (self (snd r)) = true.
Proof. vm_compute. repeat split. Qed.

(** *** The two sets of functions agree *)

(** With nothing to close, or with a close that returns, the tools of
    [Closing] are those of [image_tools]. *)
Lemma closing_ensure_started_eq close_client w :
  client (self w) = None \/ (forall n, close_client n = None) ->
  Closing.ensure_started close_client w = ensure_started w.
Proof.
  intros H. unfold Closing.ensure_started, ensure_started.
  destruct (is_running_cases w) as (b0 & w0 & Hrun & Hself0 & _).
  rewrite !(bind_ok _ _ _ _ _ Hrun). destruct b0; [reflexivity|].
  unfold bind, log, modify. rewrite closing_start_eq; [reflexivity|].
  simpl. rewrite Hself0. exact H.
Qed.

Lemma closing_generate_image_eq close_client prompt negative_prompt
    width height steps cfg_scale w :
  client (self w) = None \/ (forall n, close_client n = None) ->
  Closing.generate_image close_client prompt negative_prompt width height steps
    cfg_scale w
  = generate_image prompt negative_prompt width height steps cfg_scale w.
Proof.
  intros H.
  rewrite closing_generate_image_split, generate_image_split,
    closing_ensure_started_eq by exact H.
  reflexivity.
Qed.

Lemma closing_start_image_service_eq close_client w :
  client (self w) = None \/ (forall n, close_client n = None) ->
  Closing.start_image_service close_client w = start_image_service w.
Proof.
  intros H. rewrite closing_start_image_service_unfold, start_image_service_unfold.
  destruct (registered w); [|reflexivity].
  destruct (is_running_cases w) as (b0 & w1 & Hrun & Hself1 & _).
  rewrite Hrun. destruct b0; [reflexivity|].
  rewrite closing_start_eq; [reflexivity|]. simpl. rewrite Hself1. exact H.
Qed.

Lemma closing_stop_image_service_eq close_client w :
  client (self w) = None \/ (forall n, close_client n = None) ->
  Closing.stop_image_service close_client w = stop_image_service w.
Proof.
  intros H. rewrite closing_stop_image_service_unfold, stop_image_service_unfold.
  destruct (registered w); [|reflexivity].
  destruct (is_running_cases w) as (b0 & w1 & Hrun & Hself1 & _).
  rewrite Hrun. destruct b0; [|reflexivity].
  rewrite closing_stop_eq by (simpl; rewrite Hself1; exact H).
  destruct (stop_cases (emit (EvLog Info "manually_stopping_comfyui") w1))
    as (w2 & -> & _).
  reflexivity.
Qed.

Lemma closing_shutdown_eq close_client w :
  client (self w) = None \/ (forall n, close_client n = None) ->
  Closing.shutdown_comfy_service close_client w = shutdown_comfy_service w.
Proof.
  intros H. unfold Closing.shutdown_comfy_service, shutdown_comfy_service, bind, get.
  destruct (registered w); [|reflexivity].
  rewrite closing_stop_eq by exact H. reflexivity.
Qed.
